(** * dadsjira: identifiers, transport, bulk writer, pagination, checkpoints

    A shallow embedding of the generic ingestion-and-enrichment pipeline of
    the [dads] package ([ds.go], [uuid.go], the affiliation helpers and the
    Jira connector), followed by the properties checked against it.

    Conventions of the embedding:
    - a Go [string] is a byte sequence: Rocq's [string] (a list of 8-bit
      [ascii]);
    - a Go [map] is a stdpp [gmap], a [map[K]struct{}] a [gset];
    - [interface{}] values are the inductive [value];
    - a function that may call [Fatalf]/[FatalOnError] or hit a run-time
      panic returns an [outcome];
    - remote services (HTTP, the identity database, the clock) are an
      abstract world that is threaded through the calls. *)

From Stdlib Require Import ZArith NArith Ascii String Floats Uint63 Lia.
From stdpp Require Import base option list strings pretty gmap.

#[local] Set Warnings "-register-all".
Local Open Scope string_scope.
Local Open Scope list_scope.

(* ===================================================================== *)
(** ** SHA-1 ([crypto/sha1]) and hex encoding ([encoding/hex]) *)
(* ===================================================================== *)

Module Sha1.
Local Open Scope N_scope.

Definition w32 (x : N) : N := x mod 4294967296.
Definition add32 (x y : N) : N := w32 (x + y).
Definition rotl (n x : N) : N :=
  w32 (N.lor (N.shiftl x n) (N.shiftr (w32 x) (32 - n))).
Definition not32 (x : N) : N := 4294967295 - w32 x.

(** Message padding: a 1 bit, zeros up to 56 mod 64, the bit length as a
    big-endian 64-bit integer. *)
Definition be_bytes (n : nat) (x : N) : list N :=
  map (fun i => N.shiftr x (8 * N.of_nat i) mod 256) (rev (seq 0 n)).

Definition pad (msg : list N) : list N :=
  let len := N.of_nat (length msg) in
  let zeros := N.to_nat ((119 - len mod 64) mod 64) in
  msg ++ 128 :: repeat 0 zeros ++ be_bytes 8 (8 * len).

Fixpoint words (n : nat) (bs : list N) : list N :=
  match n, bs with
  | S n', b0 :: b1 :: b2 :: b3 :: t =>
      (N.shiftl b0 24 + N.shiftl b1 16 + N.shiftl b2 8 + b3) :: words n' t
  | _, _ => []
  end.

(** The message schedule, most recent word first. *)
Fixpoint schedule (n : nat) (ws : list N) : list N :=
  match n with
  | O => ws
  | S n' =>
      let w := rotl 1 (N.lxor (N.lxor (nth 2 ws 0) (nth 7 ws 0))
                              (N.lxor (nth 13 ws 0) (nth 15 ws 0))) in
      schedule n' (w :: ws)
  end.

Definition round_fk (t : nat) (b c d : N) : N * N :=
  if (t <? 20)%nat then (N.lor (N.land b c) (N.land (not32 b) d), 1518500249)
  else if (t <? 40)%nat then (N.lxor (N.lxor b c) d, 1859775393)
  else if (t <? 60)%nat then
    (N.lor (N.lor (N.land b c) (N.land b d)) (N.land c d), 2400959708)
  else (N.lxor (N.lxor b c) d, 3395469782).

Definition state : Type := N * N * N * N * N.

Fixpoint rounds (t : nat) (ws : list N) (s : state) : state :=
  match ws with
  | [] => s
  | w :: ws' =>
      let '(a, b, c, d, e) := s in
      let '(f, k) := round_fk t b c d in
      let tmp := add32 (add32 (add32 (add32 (rotl 5 a) f) e) k) w in
      rounds (S t) ws' (tmp, a, rotl 30 b, c, d)
  end.

Definition block (s : state) (chunk : list N) : state :=
  let ws := rev (schedule 64 (rev (words 16 chunk))) in
  let '(a, b, c, d, e) := s in
  let '(a', b', c', d', e') := rounds 0 ws s in
  (add32 a a', add32 b b', add32 c c', add32 d d', add32 e e').

Fixpoint blocks (n : nat) (s : state) (bs : list N) : state :=
  match n with
  | O => s
  | S n' =>
      match bs with
      | [] => s
      | _ => blocks n' (block s (firstn 64 bs)) (skipn 64 bs)
      end
  end.

Definition init : state :=
  (1732584193, 4023233417, 2562383102, 271733878, 3285377520).

(** [hash.Write(msg); hash.Sum(nil)]: the 20 digest bytes. *)
Definition Sum (msg : list N) : list N :=
  let p := pad msg in
  let '(a, b, c, d, e) := blocks (length p) init p in
  be_bytes 4 a ++ be_bytes 4 b ++ be_bytes 4 c ++ be_bytes 4 d ++ be_bytes 4 e.

Definition hexdigit (n : N) : ascii :=
  if n <? 10 then ascii_of_N (48 + n) else ascii_of_N (87 + n).

(** [hex.EncodeToString] *)
Fixpoint EncodeToString (bs : list N) : string :=
  match bs with
  | [] => EmptyString
  | b :: t => String (hexdigit (b / 16)) (String (hexdigit (b mod 16)) (EncodeToString t))
  end.

Definition bytes_of_string (s : string) : list N :=
  map N_of_ascii (list_ascii_of_string s).

(** [hex.EncodeToString(sha1(s))] *)
Definition hex (s : string) : string := EncodeToString (Sum (bytes_of_string s)).
End Sha1.

(* ===================================================================== *)
(** ** Outcomes of a call *)
(* ===================================================================== *)

(** A Go call either returns, or stops the run through [Fatalf] /
    [FatalOnError], or raises a run-time panic (a failed single-value type
    assertion, a nil dereference). [Unfinished] is for the one loop of the
    package that need not end, the paging of [ForEachRawItem]: the model
    runs it for a given number of pages. *)
Inductive outcome (A : Type) : Type :=
| Done (a : A)
| Fatal (msg : string)
| Panic (msg : string)
| Unfinished.
Arguments Done {A} a.
Arguments Fatal {A} msg.
Arguments Panic {A} msg.
Arguments Unfinished {A}.

Definition outcome_map {A B} (f : A -> B) (o : outcome A) : outcome B :=
  match o with
  | Done a => Done (f a)
  | Fatal m => Fatal m
  | Panic m => Panic m
  | Unfinished => Unfinished
  end.

Definition is_Done {A} (o : outcome A) : bool :=
  match o with Done _ => true | _ => false end.

(* ===================================================================== *)
(** ** Strings ([strings], [golang.org/x/text]) *)
(* ===================================================================== *)

(** The Unicode data the text packages consult.  A byte below 128 is a
    character of its own in UTF-8 and never part of a longer sequence, is
    its own NFKD form and stops the reordering of combining marks; so both
    transformations act on every maximal run of bytes >= 128 separately,
    and these two functions give their results on such a run. *)
Class Unicode : Type := {
  nfkd_run : string -> string;
  lower_run : string -> string
}.

Definition byte_val (c : ascii) : N := N_of_ascii c.

Definition is_ascii_byte (c : ascii) : bool := (byte_val c <? 128)%N.

Definition flush (frun : string -> string) (run : string) : string :=
  match run with
  | EmptyString => EmptyString
  | _ => frun run
  end.

(** Apply [fa] to every byte below 128 and [frun] to every maximal run of
    bytes >= 128; [run] is the run collected so far. *)
Fixpoint map_runs (fa : ascii -> string) (frun : string -> string)
    (run s : string) : string :=
  match s with
  | EmptyString => flush frun run
  | String c t =>
      if is_ascii_byte c
      then flush frun run +:+ fa c +:+ map_runs fa frun EmptyString t
      else map_runs fa frun (run +:+ String c EmptyString) t
  end.

(** [strings.Join] *)
Fixpoint Join (elems : list string) (sep : string) : string :=
  match elems with
  | [] => ""
  | [a] => a
  | a :: rest => a +:+ sep +:+ Join rest sep
  end.

Definition lower_byte (c : ascii) : ascii :=
  let n := byte_val c in
  if ((65 <=? n) && (n <=? 90))%N then ascii_of_N (n + 32) else c.

(** [strings.ToLower] *)
Definition ToLower `{Unicode} (s : string) : string :=
  map_runs (fun c => String (lower_byte c) EmptyString) lower_run EmptyString s.

(** [strings.HasPrefix] and [strings.Contains] *)
Fixpoint HasPrefix (s prefix : string) : bool :=
  match prefix, s with
  | EmptyString, _ => true
  | String p prefix', String c s' => if Ascii.eqb p c then HasPrefix s' prefix' else false
  | String _ _, EmptyString => false
  end.

Fixpoint Contains (s substr : string) : bool :=
  if HasPrefix s substr then true
  else match s with
       | EmptyString => false
       | String _ s' => Contains s' substr
       end.

(** [norm.NFKD] *)
Definition NFKD `{Unicode} (s : string) : string :=
  map_runs (fun c => String c EmptyString) nfkd_run EmptyString s.

(** [transform.RemoveFunc(f)] for an [f] that holds of every rune above
    127 (and so of [utf8.RuneError], which stands for an illegal byte):
    every byte >= 128 goes, a byte below 128 goes when [f] holds of it. *)
Fixpoint RemoveFunc (f : ascii -> bool) (s : string) : string :=
  match s with
  | EmptyString => EmptyString
  | String c t => if f c then RemoveFunc f t else String c (RemoveFunc f t)
  end.

(** The closures of [UUIDNonEmpty] and [UUIDAffs], the same in [ds.go] and
    [uuid.go]:
<<
    isOk := func(r rune) bool { return r < 32 || r >= 127 }
    t := transform.Chain(norm.NFKD, transform.RemoveFunc(isOk))
    str, _, _ = transform.String(t, str)
>> *)
Definition isOk (r : ascii) : bool :=
  ((byte_val r <? 32) || (127 <=? byte_val r))%N.

Definition stripF `{Unicode} (str : string) : string :=
  RemoveFunc isOk (NFKD str).

(** Constants of the package that the comments of [UUIDAffs] and of
    [GetItemIdentities] spell out. *)
Definition Nil : string := "<nil>".
Definition None_ : string := "None".

(* ===================================================================== *)
(** ** [ds.go]: identifiers *)
(* ===================================================================== *)

Module DsGo.
Section Identifiers.
Context `{Unicode}.

(** The loop of [UUIDNonEmpty]; [arg] is the accumulator. *)
Fixpoint UUIDNonEmpty_args (arg : string) (args : list string) : outcome string :=
  match args with
  | [] => Done arg
  | a :: rest =>
  if String.eqb a "" then
    Fatal "UUIDNonEmpty(%v) - empty argument(s) not allowed"
  else
    let arg := if negb (String.eqb arg "") then arg +:+ ":" else arg in
    UUIDNonEmpty_args (arg +:+ stripF a) rest
  end.

(** [UUIDNonEmpty] ([ds.go]); the tracing under [ctx.Debug > 1] only
  prints. [hash.Write] of SHA-1 has no error. *)
Definition UUIDNonEmpty (args : list string) : outcome string :=
  outcome_map Sha1.hex (UUIDNonEmpty_args "" args).

(** The loop of [UUIDAffs]; [i] is the index of the head of [args]. *)
Fixpoint UUIDAffs_args (i : nat) (arg : string) (args : list string) : outcome string :=
  match args with
  | [] => Done arg
  | a :: rest =>
  if Nat.eqb i 0 && String.eqb a "" then
    Fatal "UUIDAffs(%v) - empty first argument not allowed"
  else
    let a := if String.eqb a Nil then None_ else a in
    let arg := if negb (String.eqb arg "") then arg +:+ ":" else arg in
    UUIDAffs_args (S i) (arg +:+ stripF a) rest
  end.

(** [UUIDAffs] ([ds.go]) *)
Definition UUIDAffs (args : list string) : outcome string :=
  outcome_map (fun arg => Sha1.hex (ToLower arg)) (UUIDAffs_args 0 "" args).
End Identifiers.
End DsGo.

(* ===================================================================== *)
(** ** [uuid.go]: identifiers with a process-wide cache *)
(* ===================================================================== *)

Module UuidGo.
Section Identifiers.
Context `{Unicode}.

(** [uuidsCacheNonEmpty] and [uuidsCacheAffs] are [map[string]string];
  the calls below take the cache and give it back. The read and write
  locks order the accesses and have no other effect in a sequential
  run. *)

(** [UUIDNonEmpty] ([uuid.go]) *)
Definition UUIDNonEmpty (uuidsCacheNonEmpty : gmap string string)
  (args : list string) : outcome string * gmap string string :=
  let k := Join args ":" in
  match uuidsCacheNonEmpty !! k with
  | Some h => (Done h, uuidsCacheNonEmpty)
  | None =>
  match DsGo.UUIDNonEmpty_args "" args with
  | Done arg =>
      let h := Sha1.hex arg in
      (Done h, <[k := h]> uuidsCacheNonEmpty)
  | o => (outcome_map (fun _ => "") o, uuidsCacheNonEmpty)
  end
  end.

(** [UUIDAffs] ([uuid.go]) *)
Definition UUIDAffs (uuidsCacheAffs : gmap string string)
  (args : list string) : outcome string * gmap string string :=
  let k := Join args ":" in
  match uuidsCacheAffs !! k with
  | Some h => (Done h, uuidsCacheAffs)
  | None =>
  match DsGo.UUIDAffs_args 0 "" args with
  | Done arg =>
      let h := Sha1.hex (ToLower arg) in
      (Done h, <[k := h]> uuidsCacheAffs)
  | o => (outcome_map (fun _ => "") o, uuidsCacheAffs)
  end
  end.
End Identifiers.
End UuidGo.

(* ===================================================================== *)
(** ** Dynamic values, errors, the remote world *)
(* ===================================================================== *)

(** [time.Time] as an instant: nanoseconds since the epoch. [After]
    compares instants. *)
Definition Time : Type := Z.
Definition After (t u : Time) : bool := (u <? t)%Z.

(** What an [interface{}] holds in this package. *)
Inductive value : Type :=
| VNil
| VBool (b : bool)
| VInt (n : Z)
| VFloat (f : float)
| VString (s : string)
| VBytes (b : string)
| VStrings (l : list string)
| VSlice (l : list value)
| VMap (m : gmap string value)
| VTime (t : option Time).

(** The [error] values built in [ds.go]; [prev] is the error that
    [fmt.Errorf] prints with [%+v]. *)
Inductive error : Type :=
| NewRequestError (cause : string)
| DoRequestError (cause : string)
| ReadBodyError (cause : string)
| UnmarshalError (cause : string) (status : Z)
| StatusError (prev : option error) (status : Z)
| StatusNotSuccess (prev : option error) (status : Z)
| MarshalError (cause : string)
| MissingProperty (key : string)
| MissingScrollID
| MissingHits
| OtherError (msg : string).

(** [jsoniter.Marshal] and [jsoniter.Unmarshal]; [inr] carries the cause
    of a failure. *)
Class Json : Type := {
  Marshal : value -> string + string;
  Unmarshal : string -> value + string
}.

Record HttpRequest : Type := {
  http_method : string;
  http_url : string;
  http_headers : gmap string string;
  http_payload : string
}.

(** What [http.NewRequest], [http.DefaultClient.Do] and [ioutil.ReadAll]
    give for one request. *)
Inductive HttpResult : Type :=
| NewRequestFails (cause : string)
| DoFails (cause : string)
| ReadAllFails (cause : string)
| Response (status : Z) (body : string).

(** The services outside the process: the HTTP endpoint and the clock. *)
Class Remote : Type := {
  world : Type;
  http_do : HttpRequest -> world -> HttpResult * world;
  time_Now : world -> Time * world;
  time_Sleep : Z -> world -> world
}.

(** Lines written by [Printf]; the numbers and errors a line prints are
    its arguments. *)
Inductive logline : Type :=
| LogSaving (ds : string) (n : nat)
| LogSaved (ds : string) (n : nat)
| LogBulkFailed (ds : string) (n : nat)
| LogError (e : error)
| LogSavedNonBulk (ds : string) (n : nat)
| LogProcessingQuery (payload : string)
| LogProcessingItems (n : nat)
| LogRetryingScroll (n : nat) (attemptAt : Time) (elapsed : Z)
| LogReleaseScrollError (scroll : string) (e : error)
| LogTotal (n : nat)
| LogLine (msg : string).

(** One call of [Request] with its arguments. *)
Record Call : Type := {
  call_url : string;
  call_method : string;
  call_headers : gmap string string;
  call_payload : string;
  call_jsonStatuses : gset (Z * Z);
  call_errorStatuses : gset (Z * Z);
  call_okStatuses : gset (Z * Z)
}.

Definition Post : string := "POST".
Definition Put : string := "PUT".
Definition Delete : string := "DELETE".

(** The fields of [Ctx] that the modelled functions read or write. *)
Record Ctx : Type := {
  Debug : Z;
  ESURL : string;
  RawIndex : string;
  RichIndex : string;
  ESScrollWait : string;
  ESScrollSize : Z;
  ESScrollWaitSecs : float;
  DateFrom : option Time;
  DateFromDetected : bool;
  OffsetFrom : float;
  OffsetFromDetected : bool;
  DateTo : option Time;
  OffsetTo : float
}.

(** The methods of the [DS] interface that the modelled functions call. *)
Record DS : Type := {
  Name : string;
  DateField : Ctx -> string;
  OffsetField : Ctx -> string;
  OriginField : Ctx -> string;
  ResumeNeedsOrigin : Ctx -> bool;
  Origin : Ctx -> string;
  SupportDateFrom : bool;
  SupportOffsetFrom : bool
}.

(* ===================================================================== *)
(** ** A state monad over outcomes *)
(* ===================================================================== *)

Definition M (S A : Type) : Type := S -> outcome A * S.

Definition ret {S A} (a : A) : M S A := fun s => (Done a, s).

Definition bind {S A B} (c : M S A) (k : A -> M S B) : M S B :=
  fun s =>
    match c s with
    | (Done a, s') => k a s'
    | (Fatal m, s') => (Fatal m, s')
    | (Panic m, s') => (Panic m, s')
    | (Unfinished, s') => (Unfinished, s')
    end.

Definition fatal {S A} (msg : string) : M S A := fun s => (Fatal msg, s).
Definition panic {S A} (msg : string) : M S A := fun s => (Panic msg, s).

Notation "x <- c ; k" := (bind c (fun x => k))
  (at level 20, c at level 100, k at level 200, only parsing).
Notation "' pat <- c ; k" := (bind c (fun x => match x with pat => k end))
  (at level 20, pat pattern, c at level 100, k at level 200, only parsing).


(** [if cond { c }] *)
Definition when {S} (cond : bool) (c : M S unit) : M S unit :=
  if cond then c else ret tt.

(** [FatalOnError(err)]: stops the run when [err] is not nil. *)
Definition FatalOnError {S} (err : option error) : M S unit :=
  match err with
  | Some _ => fatal "FatalOnError"
  | None => ret tt
  end.

(** The state of a run: the world, the calls of [Request] so far and the
    lines printed so far, oldest first. *)
Record St `{Remote} : Type := {
  st_world : world;
  st_calls : list Call;
  st_log : list logline
}.

Definition Printf `{Remote} (l : logline) : M St unit :=
  fun st => (Done tt, {| st_world := st_world st; st_calls := st_calls st;
                         st_log := st_log st ++ [l] |}).

Definition interface_conversion : string := "interface conversion".

(** The double quote, a string between double quotes, the line feed. *)
Definition dq : string := String (ascii_of_N 34) EmptyString.
Definition q (s : string) : string := dq +:+ s +:+ dq.
Definition newLine : string := String (ascii_of_N 10) EmptyString.

(* ===================================================================== *)
(** ** [ds.go]: [Request] and [SendToElastic] *)
(* ===================================================================== *)

Section Transport.
Context `{Remote} `{Json}.

(** [for r := range statuses { if status >= r[0] && status <= r[1] {
    hit = true; break } }] *)
Definition in_ranges (status : Z) (statuses : gset (Z * Z)) : bool :=
  existsb (fun r => (r.1 <=? status)%Z && (status <=? r.2)%Z) (elements statuses).

(** The status checks at the end of [Request]. *)
Definition status_checks (status : Z) (errorStatuses okStatuses : gset (Z * Z))
    (err : option error) : option error :=
  let err :=
    if in_ranges status errorStatuses then Some (StatusError err status) else err in
  if (0 <? size okStatuses)%nat then
    if negb (in_ranges status okStatuses) then Some (StatusNotSuccess err status)
    else err
  else err.

(** What [Request] returns for what the endpoint gave: the part of the
    body of [Request] after the request is sent. *)
Definition received (r : HttpResult) (jsonStatuses errorStatuses okStatuses : gset (Z * Z))
    : value * Z * option error :=
  match r with
  | NewRequestFails c => (VNil, 0%Z, Some (NewRequestError c))
  | DoFails c => (VNil, 0%Z, Some (DoRequestError c))
  | ReadAllFails c => (VNil, 0%Z, Some (ReadBodyError c))
  | Response status body =>
      if in_ranges status jsonStatuses then
        match Unmarshal body with
        | inr c => (VNil, status, Some (UnmarshalError c status))
        | inl result =>
            (result, status, status_checks status errorStatuses okStatuses None)
        end
      else (VBytes body, status, status_checks status errorStatuses okStatuses None)
  end.

(** [Request]; the result is [(result, status, err)]. The [ctx]
    argument is not used by the body. *)
Definition Request (url method : string) (headers : gmap string string)
    (payload : string) (jsonStatuses errorStatuses okStatuses : gset (Z * Z))
    : M St (value * Z * option error) :=
  fun st =>
    let call := {| call_url := url; call_method := method;
                   call_headers := headers; call_payload := payload;
                   call_jsonStatuses := jsonStatuses;
                   call_errorStatuses := errorStatuses;
                   call_okStatuses := okStatuses |} in
    let rw := http_do {| http_method := method; http_url := url;
                         http_headers := headers;
                         http_payload := payload |} (st_world st) in
    (Done (received rw.1 jsonStatuses errorStatuses okStatuses),
     {| st_world := rw.2; st_calls := st_calls st ++ [call]; st_log := st_log st |}).

Definition BulkRefreshMode : string := "true".

(** [item.(map[string]interface{})[key].(string)]: the first assertion
    panics on a value that is not a map, the second one reports
    failure. *)
Definition item_key (item : value) (key : string) : outcome (string * bool) :=
  match item with
  | VMap m =>
      match m !! key with
      | Some (VString uuid) => Done (uuid, true)
      | _ => Done ("", false)
      end
  | _ => Panic interface_conversion
  end.

(** The first loop of [SendToElastic]: the bulk payload, or the error
    that the function returns. *)
Fixpoint bulk_payloads (key : string) (items : list value) (payloads : string)
    : outcome (string + error) :=
  match items with
  | [] => Done (inl payloads)
  | item :: rest =>
      match Marshal item with
      | inr c => Done (inr (MarshalError c))
      | inl doc =>
          match item_key item key with
          | Done (uuid, true) =>
              let hdr := "{" +:+ q "index" +:+ ":{" +:+ q "_id" +:+ ":" +:+ q uuid
                         +:+ "}}" +:+ newLine in
              bulk_payloads key rest (payloads +:+ hdr +:+ doc +:+ newLine)
          | Done (_, false) => Done (inr (MissingProperty key))
          | Fatal m => Fatal m
          | Panic m => Panic m
          | Unfinished => Unfinished
          end
      end
  end.

(** The fallback loop of [SendToElastic]: one [PUT] for each item; [err]
    is overwritten by each call. *)
Fixpoint one_by_one (url key : string) (items : list value) (err : option error)
    : M St (option error) :=
  match items with
  | [] => ret err
  | item :: rest =>
      let doc := match Marshal item with inl doc => doc | inr _ => "" end in
      '(uuid, _) <- (fun st => (item_key item key, st)) ;
      '(_, _, err) <-
        Request (url +:+ uuid) Put {[ "Content-Type" := "application/json" ]} doc
          ∅ {[ (400, 599)%Z ]} {[ (200, 201)%Z ]} ;
      one_by_one url key rest err
  end.

(** [SendToElastic] *)
Definition SendToElastic (ctx : Ctx) (ds : DS) (raw : bool) (key : string)
    (items : list value) : M St (option error) :=
  _ <- when (0 <? Debug ctx)%Z (Printf (LogSaving (Name ds) (length items))) ;
  let url :=
    if raw then ESURL ctx +:+ "/" +:+ RawIndex ctx +:+ "/_bulk?refresh=" +:+ BulkRefreshMode
    else ESURL ctx +:+ "/" +:+ RichIndex ctx +:+ "/_bulk?refresh=" +:+ BulkRefreshMode in
  built <- (fun st => (bulk_payloads key items "", st)) ;
  match built with
  | inr err => ret (Some err)
  | inl payloads =>
      '(_, _, err) <-
        Request url Post {[ "Content-Type" := "application/x-ndjson" ]} payloads
          ∅ {[ (400, 599)%Z ]} ∅ ;
      match err with
      | None =>
          _ <- when (0 <? Debug ctx)%Z (Printf (LogSaved (Name ds) (length items))) ;
          ret None
      | Some e =>
          _ <- Printf (LogBulkFailed (Name ds) (length items)) ;
          _ <- when (1 <? Debug ctx)%Z (Printf (LogError e)) ;
          let url :=
            if raw then ESURL ctx +:+ "/" +:+ RawIndex ctx +:+ "/_doc/"
            else ESURL ctx +:+ "/" +:+ RichIndex ctx +:+ "/_doc/" in
          err <- one_by_one url key items None ;
          _ <- when (0 <? Debug ctx)%Z (Printf (LogSavedNonBulk (Name ds) (length items))) ;
          ret err
      end
  end.
End Transport.

(* ===================================================================== *)
(** ** [ds.go]: [ForEachRawItem] *)
(* ===================================================================== *)

(** Functions and constants of the package that the modelled code uses and
    that are defined in files of the package not at hand. *)
Class Helpers : Type := {
  JSONEscape : string -> string;
  ToESDate : Time -> string;
  TimeParseAny : string -> Time + string;
  TimeParseES : string -> Time + string;
  ToYMDDate : Time -> string;
  TooManyScrolls : string;
  (** [jsoniter.Unmarshal] into the result structs of [GetLastUpdate]
      ([aggregations.m.value_as_string]) and of [GetLastOffset]
      ([aggregations.m.value], nil when absent). *)
  Unmarshal_value_as_string : string -> string + string;
  Unmarshal_value : string -> option float + string;
  (** Modelled from the spec: [Fatalf] and [FatalOnError] are not among the
      sources; the spec says they terminate the process. False when they do
      so at once ([os.Exit]: no deferred call runs), true when they do so by
      panicking (deferred calls run first). *)
  fatal_runs_deferred : bool
}.

(** [float64(n)] for an [int64], and [time.Duration.Seconds]. *)
Definition float_of_int64 (n : Z) : float :=
  if (n <? 0)%Z then PrimFloat.opp (PrimFloat.of_uint63 (Uint63.of_Z (- n)))
  else PrimFloat.of_uint63 (Uint63.of_Z n).

Definition Seconds (d : Z) : float :=
  (float_of_int64 (Z.quot d 1000000000)
   + float_of_int64 (Z.rem d 1000000000) / 1000000000)%float.

(** [o] when it is a failure, [dflt] when [o] is [Done]. *)
Definition fail_as {A B} (o : outcome A) (dflt : outcome B) : outcome B :=
  match o with
  | Done _ => dflt
  | Fatal m => Fatal m
  | Panic m => Panic m
  | Unfinished => Unfinished
  end.

(** [defer d] around [body]: [d] runs when [body] returns and when it
    panics; [on_fatal] says whether it runs when the run is stopped. *)
Definition defer {S A} (on_fatal : bool) (d : M S unit) (body : M S A) : M S A :=
  fun s =>
    match body s with
    | (Done a, s') => (fail_as (d s').1 (Done a), (d s').2)
    | (Panic m, s') => (fail_as (d s').1 (Panic m), (d s').2)
    | (Fatal m, s') =>
        if on_fatal then (fail_as (d s').1 (Fatal m), (d s').2) else (Fatal m, s')
    | (Unfinished, s') => (Unfinished, s')
    end.

(** How an iteration of the paging loop ends. *)
Inductive loop_exit : Type :=
| Continue
| Break
| Return (err : option error).

Section Paging.
Context `{Remote} `{Json} `{Helpers}.

(** The variables of [ForEachRawItem] that outlive an iteration. *)
Record Frame : Type := {
  scroll : option string;
  docs : list value;
  outDocs : list value;
  total : nat
  }.

Definition liftSt {A} (c : M St A) : M (Frame * St) A :=
  fun fs => ((c fs.2).1, (fs.1, (c fs.2).2)).

Definition liftWorld {A} (c : world -> A * world) : M (Frame * St) A :=
  fun fs =>
    (Done (c (st_world fs.2)).1,
     (fs.1, {| st_world := (c (st_world fs.2)).2; st_calls := st_calls fs.2;
               st_log := st_log fs.2 |})).

Definition get_frame : M (Frame * St) Frame := fun fs => (Done fs.1, fs).
Definition set_frame (f : Frame) : M (Frame * St) unit := fun fs => (Done tt, (f, fs.2)).

(** The connector's callbacks: they act on the buffers they are handed
    and on the world, and may stop the run or panic. *)
Definition ufunct_t : Type :=
  list value -> list value -> world ->
  outcome (option error * list value * list value) * world.
Definition uitems_t : Type :=
  list value -> list value -> world -> outcome (option error * list value) * world.

Definition call_world {A} (c : world -> outcome A * world) : M (Frame * St) A :=
  fun fs =>
    ((c (st_world fs.2)).1,
     (fs.1, {| st_world := (c (st_world fs.2)).2; st_calls := st_calls fs.2;
               st_log := st_log fs.2 |})).

Definition headers_json : gmap string string :=
  {[ "Content-Type" := "application/json" ]}.

Definition sort_asc (dateField : string) : string :=
  q "sort" +:+ ":{" +:+ q dateField +:+ ":{" +:+ q "order" +:+ ":" +:+ q "asc" +:+ "}}".
Definition term_filter (originField origin : string) : string :=
  "{" +:+ q "term" +:+ ":{" +:+ q originField +:+ ":" +:+ q origin +:+ "}}".
Definition range_filter (dateField dateFrom : string) : string :=
  "{" +:+ q "range" +:+ ":{" +:+ q dateField +:+ ":{" +:+ q "gte" +:+ ":"
      +:+ q dateFrom +:+ "}}}".
Definition query_filter (filter : string) (dateField : string) : string :=
  "{" +:+ q "query" +:+ ":{" +:+ q "bool" +:+ ":{" +:+ q "filter" +:+ ":" +:+ filter
      +:+ "}}," +:+ sort_asc dateField +:+ "}".

(** The payload of the search that opens the scroll. *)
Definition search_payload (ctx : Ctx) (ds : DS) : string :=
  let dateField := JSONEscape (DateField ds ctx) in
  let originField := JSONEscape (OriginField ds ctx) in
  let origin := JSONEscape (Origin ds ctx) in
  if ResumeNeedsOrigin ds ctx then
    match DateFrom ctx with
    | None => query_filter (term_filter originField origin) dateField
    | Some d =>
        query_filter ("[" +:+ term_filter originField origin +:+ ","
                          +:+ range_filter dateField (ToESDate d) +:+ "]") dateField
    end
  else
    match DateFrom ctx with
    | None => "{" +:+ sort_asc dateField +:+ "}"
    | Some d => query_filter (range_filter dateField (ToESDate d)) dateField
    end.

(** The deferred function: frees the scroll when there is one. *)
Definition free_scroll (ctx : Ctx) : M (Frame * St) unit :=
  f <- get_frame ;
  match scroll f with
  | None => ret tt
  | Some s =>
      let url := ESURL ctx +:+ "/_search/scroll" in
      let payload := "{" +:+ q "scroll_id" +:+ ":" +:+ q s +:+ "}" in
      '(_, _, err) <- liftSt (Request url Delete headers_json payload
                                ∅ ∅ {[ (200, 200)%Z ]}) ;
      match err with
      | Some e => liftSt (Printf (LogReleaseScrollError s e))
      | None => ret tt
      end
  end.

(** [funct(nil)]: with one thread, [ufunct(&docs, &outDocs)] on the
    calling thread. *)
Definition funct (ufunct : ufunct_t) : M (Frame * St) (option error) :=
  f <- get_frame ;
  '(e, docs', outDocs') <- call_world (ufunct (docs f) (outDocs f)) ;
  _ <- set_frame {| scroll := scroll f; docs := docs'; outDocs := outDocs';
                    total := total f |} ;
  ret e.

(** One iteration of [for { ... }]. *)
Definition iteration (ctx : Ctx) (ds : DS) (packSize : Z)
    (ufunct : ufunct_t) (uitems : uitems_t) (attemptAt : Time)
    : M (Frame * St) loop_exit :=
  f <- get_frame ;
  let url :=
    match scroll f with
    | None => ESURL ctx +:+ "/" +:+ RawIndex ctx +:+ "/_search?scroll="
                +:+ ESScrollWait ctx +:+ "&size=" +:+ pretty (ESScrollSize ctx)
    | Some _ => ESURL ctx +:+ "/_search/scroll"
    end in
  let payload :=
    match scroll f with
    | None => search_payload ctx ds
    | Some s => "{" +:+ q "scroll" +:+ ":" +:+ q (ESScrollWait ctx) +:+ ","
                    +:+ q "scroll_id" +:+ ":" +:+ q s +:+ "}"
    end in
  _ <- when (bool_decide (scroll f = None) && (0 <? Debug ctx)%Z)
         (liftSt (Printf (LogProcessingQuery payload))) ;
  '(res, status, err) <-
    liftSt (Request url Post headers_json payload
              {[ (200, 200)%Z ]} ∅ {[ (200, 200)%Z; (500, 500)%Z ]}) ;
  _ <- FatalOnError err ;
  tooMany <-
    (if bool_decide (scroll f = None) && (status =? 500)%Z then
       match res with
       | VBytes b => ret (Contains b TooManyScrolls)
       | _ => panic interface_conversion
       end
     else ret false) ;
  if (tooMany : bool) then
    _ <- liftWorld (fun w => (tt, time_Sleep 5 w)) ;
    now <- liftWorld time_Now ;
    let elapsed := (now - attemptAt)%Z in
    n <- match res with
         | VMap m => ret (size m)
         | _ => panic interface_conversion
         end ;
    _ <- liftSt (Printf (LogRetryingScroll n attemptAt elapsed)) ;
    if PrimFloat.ltb (ESScrollWaitSecs ctx) (Seconds elapsed) then
      fatal "Tried to acquire scroll too many times, first attempt at %v, elapsed %v/%.0fs"
    else ret Continue
  else
    match res with
    | VMap m =>
        match m !! "_scroll_id" with
        | Some (VString sScroll) =>
            _ <- set_frame {| scroll := Some sScroll; docs := docs f;
                              outDocs := outDocs f; total := total f |} ;
            match m !! "hits" with
            | Some (VMap hits) =>
                match hits !! "hits" with
                | Some (VSlice items) =>
                    let nItems := length items in
                    if Nat.eqb nItems 0 then ret Break
                    else
                      _ <- when (0 <? Debug ctx)%Z
                             (liftSt (Printf (LogProcessingItems nItems))) ;
                      '(err, docs') <- call_world (uitems items (docs f)) ;
                      _ <- set_frame {| scroll := Some sScroll; docs := docs';
                                        outDocs := outDocs f; total := total f |} ;
                      match err with
                      | Some e => ret (Return (Some e))
                      | None =>
                          err <- (if (packSize <=? Z.of_nat (length docs'))%Z
                                  then funct ufunct else ret None) ;
                          match err with
                          | Some e => ret (Return (Some e))
                          | None =>
                              f' <- get_frame ;
                              _ <- set_frame {| scroll := scroll f'; docs := docs f';
                                                outDocs := outDocs f';
                                                total := total f' + nItems |} ;
                              ret Continue
                          end
                      end
                | _ => ret (Return (Some MissingHits))
                end
            | _ => panic interface_conversion
            end
        | _ => ret (Return (Some MissingScrollID))
        end
    | _ => panic interface_conversion
    end.

(** The paging loop, for at most [pages] iterations. *)
Fixpoint paging (pages : nat) (ctx : Ctx) (ds : DS) (packSize : Z)
    (ufunct : ufunct_t) (uitems : uitems_t) (attemptAt : Time)
    : M (Frame * St) loop_exit :=
  match pages with
  | O => fun fs => (Unfinished, fs)
  | S pages' =>
      e <- iteration ctx ds packSize ufunct uitems attemptAt ;
      match e with
      | Continue => paging pages' ctx ds packSize ufunct uitems attemptAt
      | e => ret e
      end
  end.

(** The body of [ForEachRawItem] below the [defer]. *)
Definition body (pages : nat) (ctx : Ctx) (ds : DS) (packSize : Z)
    (ufunct : ufunct_t) (uitems : uitems_t) (attemptAt : Time)
    : M (Frame * St) (option error) :=
  e <- paging pages ctx ds packSize ufunct uitems attemptAt ;
  match e with
  | Return err => ret err
  | _ =>
      f <- get_frame ;
      err <- (if (0 <? length (docs f))%nat then funct ufunct else ret None) ;
      match err with
      | Some e => ret (Some e)
      | None =>
          f' <- get_frame ;
          _ <- when (0 <? Debug ctx)%Z (liftSt (Printf (LogTotal (total f')))) ;
          ret None
      end
  end.

(** [ForEachRawItem] with one thread ([GetThreadsNum(ctx) <= 1]: no
    mutex, no channel, [funct] runs on the calling thread), for at most
    [pages] pages, together with the variables of the function when it
    ends. *)
Definition ForEachRawItem_run (pages : nat) (ctx : Ctx) (ds : DS) (packSize : Z)
    (ufunct : ufunct_t) (uitems : uitems_t) (st : St)
    : outcome (option error) * (Frame * St) :=
  let f0 := {| scroll := None; docs := []; outDocs := []; total := 0 |} in
  defer fatal_runs_deferred (free_scroll ctx)
    (attemptAt <- liftWorld time_Now ;
     body pages ctx ds packSize ufunct uitems attemptAt) (f0, st).

(** [ForEachRawItem] *)
Definition ForEachRawItem (pages : nat) (ctx : Ctx) (ds : DS) (packSize : Z)
    (ufunct : ufunct_t) (uitems : uitems_t) : M St (option error) :=
  fun st =>
    let r := ForEachRawItem_run pages ctx ds packSize ufunct uitems st in
    (r.1, r.2.2).
End Paging.

(* ===================================================================== *)
(** ** [ds.go]: checkpoints ([GetLastUpdate], [GetLastOffset], [FetchRaw],
       [Enrich]) *)
(* ===================================================================== *)

Definition set_DateFrom (ctx : Ctx) (d : option Time) : Ctx :=
  {| Debug := Debug ctx; ESURL := ESURL ctx; RawIndex := RawIndex ctx;
     RichIndex := RichIndex ctx; ESScrollWait := ESScrollWait ctx;
     ESScrollSize := ESScrollSize ctx; ESScrollWaitSecs := ESScrollWaitSecs ctx;
     DateFrom := d; DateFromDetected := DateFromDetected ctx;
     OffsetFrom := OffsetFrom ctx; OffsetFromDetected := OffsetFromDetected ctx;
     DateTo := DateTo ctx; OffsetTo := OffsetTo ctx |}.

Definition set_DateFromDetected (ctx : Ctx) (b : bool) : Ctx :=
  {| Debug := Debug ctx; ESURL := ESURL ctx; RawIndex := RawIndex ctx;
     RichIndex := RichIndex ctx; ESScrollWait := ESScrollWait ctx;
     ESScrollSize := ESScrollSize ctx; ESScrollWaitSecs := ESScrollWaitSecs ctx;
     DateFrom := DateFrom ctx; DateFromDetected := b;
     OffsetFrom := OffsetFrom ctx; OffsetFromDetected := OffsetFromDetected ctx;
     DateTo := DateTo ctx; OffsetTo := OffsetTo ctx |}.

Definition set_OffsetFrom (ctx : Ctx) (o : float) : Ctx :=
  {| Debug := Debug ctx; ESURL := ESURL ctx; RawIndex := RawIndex ctx;
     RichIndex := RichIndex ctx; ESScrollWait := ESScrollWait ctx;
     ESScrollSize := ESScrollSize ctx; ESScrollWaitSecs := ESScrollWaitSecs ctx;
     DateFrom := DateFrom ctx; DateFromDetected := DateFromDetected ctx;
     OffsetFrom := o; OffsetFromDetected := OffsetFromDetected ctx;
     DateTo := DateTo ctx; OffsetTo := OffsetTo ctx |}.

Definition set_OffsetFromDetected (ctx : Ctx) (b : bool) : Ctx :=
  {| Debug := Debug ctx; ESURL := ESURL ctx; RawIndex := RawIndex ctx;
     RichIndex := RichIndex ctx; ESScrollWait := ESScrollWait ctx;
     ESScrollSize := ESScrollSize ctx; ESScrollWaitSecs := ESScrollWaitSecs ctx;
     DateFrom := DateFrom ctx; DateFromDetected := DateFromDetected ctx;
     OffsetFrom := OffsetFrom ctx; OffsetFromDetected := b;
     DateTo := DateTo ctx; OffsetTo := OffsetTo ctx |}.

(** [x >= 0.0] on [float64]. *)
Definition ge0 (x : float) : bool := PrimFloat.leb 0 x.

Section Checkpoints.
Context `{Remote} `{Json} `{Helpers}.

Definition max_agg (field : string) : string :=
  q "aggs" +:+ ":{" +:+ q "m" +:+ ":{" +:+ q "max" +:+ ":{" +:+ q "field" +:+ ":"
    +:+ q field +:+ "}}}".

(** The query of [GetLastUpdate] and [GetLastOffset]. *)
Definition max_query (needsOrigin : bool) (originField origin field : string) : string :=
  if needsOrigin then
    "{" +:+ q "query" +:+ ":{" +:+ q "bool" +:+ ":{" +:+ q "filter" +:+ ":{"
        +:+ q "term" +:+ ":{" +:+ q originField +:+ ":" +:+ q origin +:+ "}}}},"
        +:+ max_agg field +:+ "}"
  else "{" +:+ max_agg field +:+ "}".

Definition search_url (ctx : Ctx) (raw : bool) : string :=
  if raw then ESURL ctx +:+ "/" +:+ RawIndex ctx +:+ "/_search?size=0"
  else ESURL ctx +:+ "/" +:+ RichIndex ctx +:+ "/_search?size=0".

(** [GetLastUpdate]: the last update date in the raw or rich index. *)
Definition GetLastUpdate (ctx : Ctx) (ds : DS) (raw : bool) : M St (option Time) :=
  let dateField := JSONEscape (DateField ds ctx) in
  let originField := JSONEscape (OriginField ds ctx) in
  let origin := JSONEscape (Origin ds ctx) in
  let payloadBytes := max_query (ResumeNeedsOrigin ds ctx) originField origin dateField in
  let url := search_url ctx raw in
  _ <- when (0 <? Debug ctx)%Z (Printf (LogLine "resume from date query")) ;
  '(resp, _, err) <-
    Request url Post {[ "Content-Type" := "application/json" ]} payloadBytes
      ∅ ∅ {[ (200, 200)%Z ]} ;
  _ <- FatalOnError err ;
  match resp with
  | VBytes b =>
      match Unmarshal_value_as_string b with
      | inr _ => _ <- Printf (LogLine "JSON decode error") ; ret None
      | inl str =>
          if negb (String.eqb str "") then
            match TimeParseAny str with
            | inr _ => _ <- Printf (LogLine "Decode aggregations error") ; ret None
            | inl tm => ret (Some tm)
            end
          else ret None
      end
  | _ => panic interface_conversion
  end.

(** [GetLastOffset]: the last offset in the raw or rich index, [-1.0]
    when there is none. The origin field is read from [OffsetField], as
    in the source. *)
Definition GetLastOffset (ctx : Ctx) (ds : DS) (raw : bool) : M St float :=
  let offset := (-1)%float in
  let offsetField := JSONEscape (OffsetField ds ctx) in
  let originField := JSONEscape (OffsetField ds ctx) in
  let origin := JSONEscape (Origin ds ctx) in
  let payloadBytes := max_query (ResumeNeedsOrigin ds ctx) originField origin offsetField in
  let url := search_url ctx raw in
  _ <- when (0 <? Debug ctx)%Z (Printf (LogLine "resume from offset query")) ;
  '(resp, _, err) <-
    Request url Post {[ "Content-Type" := "application/json" ]} payloadBytes
      ∅ ∅ {[ (200, 200)%Z ]} ;
  _ <- FatalOnError err ;
  match resp with
  | VBytes b =>
      match Unmarshal_value b with
      | inr _ => _ <- Printf (LogLine "JSON decode error") ; ret offset
      | inl (Some v) => ret v
      | inl None => ret offset
      end
  | _ => panic interface_conversion
  end.

(** [FetchRaw], from the check of the two start flags to the check of
    the two resolved starts: the start of the raw pass. *)
Definition FetchRaw_start (ctx : Ctx) (ds : DS) : M St Ctx :=
  _ <- when (bool_decide (DateFrom ctx <> None) && ge0 (OffsetFrom ctx))
         (fatal "you cannot use both date from and offset from") ;
  _ <- when (bool_decide (DateTo ctx <> None) && ge0 (OffsetTo ctx))
         (fatal "you cannot use both date to and offset to") ;
  '(ctx, lastUpdate) <-
    (if SupportDateFrom ds then
       lastUpdate <- match DateFrom ctx with
                     | Some d => ret (Some d)
                     | None => GetLastUpdate ctx ds true
                     end ;
       match lastUpdate with
       | Some d =>
           let ctx := if bool_decide (DateFrom ctx = None)
                      then set_DateFromDetected ctx true else ctx in
           _ <- Printf (LogLine "raw: starting from date") ;
           ret (set_DateFrom ctx (Some d), Some d)
       | None =>
           _ <- Printf (LogLine "raw: no start date detected") ;
           ret (ctx, None)
       end
     else ret (ctx, None)) ;
  '(ctx, offset) <-
    (if SupportOffsetFrom ds then
       offset <- (if ge0 (OffsetFrom ctx) then ret (Some (OffsetFrom ctx))
                  else
                    lastOffset <- GetLastOffset ctx ds true ;
                    ret (if ge0 lastOffset then Some lastOffset else None)) ;
       match offset with
       | Some o =>
           let ctx := if PrimFloat.ltb (OffsetFrom ctx) 0
                      then set_OffsetFromDetected ctx true else ctx in
           _ <- Printf (LogLine "raw: starting from offset") ;
           ret (set_OffsetFrom ctx o, Some o)
       | None =>
           _ <- Printf (LogLine "raw: no start offset detected") ;
           ret (ctx, None)
       end
     else ret (ctx, None)) ;
  _ <- when (bool_decide (lastUpdate <> None) && bool_decide (offset <> None))
         (fatal "you cannot use both date from and offset from") ;
  ret ctx.

(** The date part of the start of [Enrich] ([if ds.SupportDateFrom()]).
    The call of [After] dereferences [ctx.DateFrom]. *)
Definition Enrich_date (ctx : Ctx) (ds : DS) : M St Ctx :=
  if SupportDateFrom ds then
    lastUpdate <-
      (if DateFromDetected ctx then
         lastUpdate <- GetLastUpdate ctx ds false ;
         match lastUpdate with
         | Some d2 =>
             match DateFrom ctx with
             | Some d1 => ret (if After d2 d1 then Some d1 else Some d2)
             | None => panic "nil pointer dereference"
             end
         | None => ret None
         end
       else ret (DateFrom ctx)) ;
    _ <- Printf (LogLine (match lastUpdate with
                          | Some _ => "rich: starting from date"
                          | None => "rich: no start date detected"
                          end)) ;
    ret (set_DateFrom ctx lastUpdate)
  else ret ctx.

(** The offset part of the start of [Enrich]
    ([if ds.SupportOffsetFrom()]). *)
Definition Enrich_offset (ctx : Ctx) (ds : DS) : M St Ctx :=
  if SupportOffsetFrom ds then
    offset <-
      (if OffsetFromDetected ctx then
         lastOffset <- GetLastOffset ctx ds false ;
         ret (if ge0 lastOffset then
                if PrimFloat.ltb (OffsetFrom ctx) lastOffset
                then Some (OffsetFrom ctx) else Some lastOffset
              else None)
       else ret (if ge0 (OffsetFrom ctx) then Some (OffsetFrom ctx) else None)) ;
    match offset with
    | Some o =>
        _ <- Printf (LogLine "rich: starting from offset") ;
        ret (set_OffsetFrom ctx o)
    | None =>
        _ <- Printf (LogLine "rich: no start offset detected") ;
        ret (set_OffsetFrom ctx (-1)%float)
    end
  else ret ctx.

(** The start of the enrichment pass: the two blocks of [Enrich] between
    the connection to the affiliations database and the upload of the
    identities. *)
Definition Enrich_start (ctx : Ctx) (ds : DS) : M St Ctx :=
  ctx <- Enrich_date ctx ds ;
  Enrich_offset ctx ds.
End Checkpoints.

(* ===================================================================== *)
(** ** Affiliations *)
(* ===================================================================== *)

Definition MultiOrgNames : string := "_multi_org_names".

(** The sentinel of the package for an unknown organization or gender; the
    constant is declared in a file not at hand, the spec and the tests give
    its value. *)
Definition Unknown : string := "Unknown".

(** [m[k]] read as an [interface{}]: nil when the key is missing. *)
Definition at_key (m : gmap string value) (k : string) : value :=
  default VNil (m !! k).

(** [strings.Split(s, sep)] for a separator of one byte; [cur] is the
    piece being read. *)
Fixpoint Split (s : string) (sep : ascii) (cur : string) : list string :=
  match s with
  | EmptyString => [cur]
  | String c t =>
      if Ascii.eqb c sep then cur :: Split t sep EmptyString
      else Split t sep (cur +:+ String c EmptyString)
  end.

(** [Dig] ([ds.go]) without its printing: the value under the path [keys],
    and whether every key was there; with [fatal] a miss stops the run. *)
Fixpoint Dig_keys (item : gmap string value) (keys : list string) : value * bool :=
  match keys with
  | [] => (VNil, true)
  | [key] =>
      match item !! key with
      | Some v => (v, true)
      | None => (VNil, false)
      end
  | key :: rest =>
      match item !! key with
      | Some (VMap item') => Dig_keys item' rest
      | _ => (VNil, false)
      end
  end.

Definition Dig (iface : value) (keys : list string) (fatal silent : bool)
    : outcome (value * bool) :=
  let r := match iface with
           | VMap item => Dig_keys item keys
           | _ => (VNil, false)
           end in
  if negb r.2 && fatal then Fatal "cannot dig %+v in %s" else Done r.

(** The first version of the affiliation items, in [ds.go]. *)
Module DsGoAffs.
(** [EmptyAffsItem(role)] *)
Definition EmptyAffsItem (role : string) : gmap string value :=
  <[ role +:+ "_id" := VString "" ]> (
  <[ role +:+ "_uuid" := VString "" ]> (
  <[ role +:+ "_name" := VString "" ]> (
  <[ role +:+ "_user_name" := VString "" ]> (
  <[ role +:+ "_domain" := VString "" ]> (
  <[ role +:+ "_gender" := VString "" ]> (
  <[ role +:+ "_gender_acc" := VNil ]> (
  <[ role +:+ "_org_name" := VString "" ]> (
  <[ role +:+ "_bot" := VBool false ]> (
  <[ role +:+ MultiOrgNames := VSlice [] ]> ∅))))))))).

(** [IdenityAffsData(identity, dt, role)] *)
Definition IdenityAffsData (identity : gmap string value) (dt : Time)
    (role : string) : gmap string value :=
  EmptyAffsItem role.
End DsGoAffs.

(** The identity database behind [FindObject]: the row of [object] whose
    column [key] is [id], restricted to [fields], [None] when there is no
    such row, [inr] when the query fails. *)
Class IdentityDB : Type := {
  FindObject : string -> string -> string -> list string ->
               option (gmap string value) + string
}.

(** The second version, with the identity database and the two caches. *)
Module Affs.
(** [EmptyAffsItem(role, undef)] *)
Definition EmptyAffsItem (role : string) (undef : bool) : gmap string value :=
  let emp := if undef then "-- UNDEFINED --" else "" in
  <[ role +:+ "_id" := VString emp ]> (
  <[ role +:+ "_uuid" := VString emp ]> (
  <[ role +:+ "_name" := VString emp ]> (
  <[ role +:+ "_user_name" := VString emp ]> (
  <[ role +:+ "_domain" := VString emp ]> (
  <[ role +:+ "_gender" := VString emp ]> (
  <[ role +:+ "_gender_acc" := VNil ]> (
  <[ role +:+ "_org_name" := VString emp ]> (
  <[ role +:+ "_bot" := VBool false ]> (
  <[ role +:+ MultiOrgNames := VSlice [] ]> ∅))))))))).

(** [IdentityAffsDomain] *)
Definition IdentityAffsDomain (identity : gmap string value) : value :=
  match at_key identity "email" with
  | VString email =>
      match Split email "@" EmptyString with
      | _ :: domain :: _ => VString domain
      | _ => VNil
      end
  | _ => VNil
  end.

(** The package variables [identityCache] and [rollsCache], and the
    cache of [UUIDAffs]. *)
Record Caches : Type := {
  identityCache : gmap string (value * value);
  rollsCache : gmap string (list string);
  uuidsCacheAffs : gmap string string
}.

Section WithDB.
Context `{Unicode} `{Helpers} `{IdentityDB}.

(** [v.(string)] with the comma-ok form. *)
Definition as_string (v : value) : string * bool :=
  match v with
  | VString s => (s, true)
  | _ => ("", false)
  end.

Definition is_nil (v : value) : bool :=
  match v with
  | VNil => true
  | _ => false
  end.

(** [AffsIdentityIDs]: the id and uuid of an identity, nil when it is
    not in the database. *)
Definition AffsIdentityIDs (ds : DS) (identity : gmap string value)
    : M Caches (value * value) :=
  fun c =>
    let email := at_key identity "email" in
    let name := at_key identity "name" in
    let username := at_key identity "username" in
    if is_nil email && is_nil name && is_nil username then (Done (VNil, VNil), c)
    else
      let '(sEmail, okE) := as_string email in
      let '(sName, okN) := as_string name in
      let '(sUsername, okU) := as_string username in
      let k := sEmail +:+ ":" +:+ sName +:+ ":" +:+ sUsername in
      match identityCache c !! k with
      | Some ids => (Done ids, c)
      | None =>
          let sEmail := if okE then sEmail else Nil in
          let sName := if okN then sName else Nil in
          let sUsername := if okU then sUsername else Nil in
          let source := Name ds in
          match UuidGo.UUIDAffs (uuidsCacheAffs c) [source; sEmail; sName; sUsername] with
          | (Done id, uc) =>
              let ids :=
                match FindObject "identities" "id" id ["id"; "uuid"] with
                | inl (Some identityFound) =>
                    (at_key identityFound "id", at_key identityFound "uuid")
                | _ => (VNil, VNil)
                end in
              (Done ids, {| identityCache := <[ k := ids ]> (identityCache c);
                            rollsCache := rollsCache c; uuidsCacheAffs := uc |})
          | (o, uc) =>
              (outcome_map (fun _ => (VNil, VNil)) o,
               {| identityCache := identityCache c; rollsCache := rollsCache c;
                  uuidsCacheAffs := uc |})
          end
      end.

(** [GetEnrollments]: the organizations of [uuid] at [dt]; this version
    reads the cache and stores the empty result on a miss. *)
Definition GetEnrollments (ds : DS) (uuid : string) (dt : Time) (single : bool)
    : M Caches (list string) :=
  fun c =>
    let sSep := if single then "s" else "m" in
    let k := uuid +:+ sSep +:+ ToYMDDate dt in
    match rollsCache c !! k with
    | Some orgs => (Done orgs, c)
    | None =>
        (Done [], {| identityCache := identityCache c;
                     rollsCache := <[ k := [] ]> (rollsCache c);
                     uuidsCacheAffs := uuidsCacheAffs c |})
    end.

(** [GetEnrollmentsSingle] *)
Definition GetEnrollmentsSingle (ds : DS) (uuid : string) (dt : Time)
    : M Caches string :=
  orgs <- GetEnrollments ds uuid dt true ;
  match orgs with
  | [] => ret Unknown
  | org :: _ => ret org
  end.

(** [GetEnrollmentsMulti] *)
Definition GetEnrollmentsMulti (ds : DS) (uuid : string) (dt : Time)
    : M Caches (list string) :=
  orgs <- GetEnrollments ds uuid dt false ;
  match orgs with
  | [] => ret [Unknown]
  | _ => ret orgs
  end.

(** The part of [IdenityAffsData] that reads the profile: the item and
    [isBot]. [email.(string)] panics on an email that is not a
    string. *)
Definition with_profile (role : string) (profile : gmap string value)
    (outItem : gmap string value) : outcome (gmap string value * Z) :=
  let pName := at_key profile "name" in
  let outItem := if is_nil pName then outItem
                 else <[ role +:+ "_name" := pName ]> outItem in
  let email := at_key profile "email" in
  let withDomain : outcome (gmap string value) :=
    if is_nil email then Done outItem
    else match email with
         | VString e =>
             match Split e "@" EmptyString with
             | _ :: domain :: _ =>
                 Done (<[ role +:+ "_domain" := VString domain ]> outItem)
             | _ => Done outItem
             end
         | _ => Panic interface_conversion
         end in
  match withDomain with
  | Done outItem =>
      let gender := at_key profile "gender" in
      let outItem :=
        <[ role +:+ "_gender" := if is_nil gender then VString Unknown else gender ]>
          outItem in
      let isBot := match at_key profile "is_bot" with
                   | VInt bot => if (0 <? bot)%Z then 1%Z else 0%Z
                   | _ => 0%Z
                   end in
      Done (outItem, isBot)
  | o => outcome_map (fun m => (m, 0%Z)) o
  end.

(** [IdenityAffsData]: the affiliation fields of [role]. The line that
    it prints before it returns is left out. *)
Definition IdenityAffsData (ds : DS) (identity : gmap string value) (dt : Time)
    (role : string) : M Caches (gmap string value) :=
  ids <- AffsIdentityIDs ds identity ;
  let outItem := EmptyAffsItem role false in
  let outItem := <[ role +:+ "_id" := ids.1 ]> outItem in
  let outItem := <[ role +:+ "_uuid" := ids.2 ]> outItem in
  let name := at_key identity "name" in
  let outItem := <[ role +:+ "_name" := if is_nil name then VString "" else name ]>
                   outItem in
  let username := at_key identity "username" in
  let outItem :=
    <[ role +:+ "_user_name" := if is_nil username then VString "" else username ]>
      outItem in
  let outItem := <[ role +:+ "_domain" := IdentityAffsDomain identity ]> outItem in
  let uuid := ids.2 in
  if is_nil uuid then ret (EmptyAffsItem role true)
  else
    let suuid := (as_string uuid).1 in
    '(outItem, isBot) <-
      (match FindObject "profiles" "uuid" suuid
               ["name"; "email"; "gender"; "gender_acc"; "is_bot"] with
       | inl (Some profile) => fun c => (with_profile role profile outItem, c)
       | _ => ret (outItem, 0%Z)
       end) ;
    let outItem :=
      match outItem !! (role +:+ "_gender") with
      | Some VNil | None =>
          <[ role +:+ "_gender_acc" := VInt 0 ]>
            (<[ role +:+ "_gender" := VString Unknown ]> outItem)
      | Some _ => outItem
      end in
    let outItem := <[ role +:+ "_bot" := VInt isBot ]> outItem in
    org <- GetEnrollmentsSingle ds suuid dt ;
    let outItem := <[ role +:+ "_org_name" := VString org ]> outItem in
    orgs <- GetEnrollmentsMulti ds suuid dt ;
    let outItem := <[ role +:+ MultiOrgNames := VStrings orgs ]> outItem in
    ret outItem.

(** [DSJira.GetRoleIdentity] *)
Definition GetRoleIdentity (item : gmap string value) (role : string)
    : outcome (gmap string value) :=
  match Dig (VMap item) ["data"; "fields"] true false with
  | Done (fields, _) =>
      match Dig fields [role] false true with
      | Done (user, true) =>
          let get k := match Dig user [k] false true with
                       | Done (v, _) => v
                       | _ => VNil
                       end in
          Done (<[ "email" := get "emailAddress" ]> (
                <[ "username" := get "name" ]> (
                <[ "name" := get "displayName" ]> ∅)))
      | Done (_, false) => Done ∅
      | o => outcome_map (fun _ => ∅) o
      end
  | o => outcome_map (fun _ => ∅) o
  end.

(** The loop of [DSJira.AffsItems] over the roles. The inner loop over
    [_org_name], [_name] and [_user_name] writes to [affsIdentity]
    after it has been copied and leaves [affsItems] as it is. *)
Fixpoint AffsItems_roles (ds : DS) (item : gmap string value) (dt : Time)
    (roles : list string) (affsItems : gmap string value)
    : M Caches (gmap string value) :=
  match roles with
  | [] => ret affsItems
  | role :: rest =>
      identity <- (fun c => (GetRoleIdentity item role, c)) ;
      if (size identity =? 0)%nat then AffsItems_roles ds item dt rest affsItems
      else
        affsIdentity <- IdenityAffsData ds identity dt role ;
        AffsItems_roles ds item dt rest (affsIdentity ∪ affsItems)
  end.

(** [DSJira.AffsItems] *)
Definition AffsItems (ds : DS) (item : gmap string value) (roles : list string)
    (date : value) : M Caches (gmap string value * option error) :=
  match date with
  | VString sDate =>
      match TimeParseES sDate with
      | inr c => ret (∅, Some (OtherError c))
      | inl dt =>
          affsItems <- AffsItems_roles ds item dt roles ∅ ;
          ret (affsItems, None)
      end
  | _ => ret (∅, Some (OtherError "%+v %T is not a string"))
  end.

(** The block [if affs { ... }] of [DSJira.EnrichItem]: the fields of
    [affsItems] go into [rich], those of [author] are copied to
    [author_...]. *)
Definition EnrichItem_affs (rich affsItems : gmap string value) (author : string)
    : gmap string value :=
  let rich := affsItems ∪ rich in
  let suffs := ["_id"; "_uuid"; "_name"; "_user_name"; "_domain"; "_gender";
                "_gender_acc"; "_org_name"; "_bot"] in
  let rich := foldl (fun rich suff =>
                       <[ "author" +:+ suff := at_key rich (author +:+ suff) ]> rich)
                    rich suffs in
  let orgsKey := author +:+ MultiOrgNames in
  match rich !! orgsKey with
  | Some _ => rich
  | None => <[ orgsKey := VSlice [] ]> rich
  end.
End WithDB.
End Affs.

(* ===================================================================== *)
(** ** Instances for the examples *)
(* ===================================================================== *)

(** A finite excerpt of the Unicode data, enough for the examples: the
    NFKD form of U+00E9 is [e] followed by U+0301, other runs are their own
    NFKD form; lower case of U+00C9 is U+00E9. *)
Definition nfkd_excerpt (run : string) : string :=
  if String.eqb run (String (ascii_of_N 195) (String (ascii_of_N 169) ""))
  then String "e" (String (ascii_of_N 204) (String (ascii_of_N 129) ""))
  else run.

Definition lower_excerpt (run : string) : string :=
  if String.eqb run (String (ascii_of_N 195) (String (ascii_of_N 137) ""))
  then String (ascii_of_N 195) (String (ascii_of_N 169) "")
  else run.

Definition Unicode_excerpt : Unicode :=
  {| nfkd_run := nfkd_excerpt; lower_run := lower_excerpt |}.

(** A scripted endpoint: the world is the list of the results still to be
    given, and a clock that does not move. *)
Definition scripted : Remote :=
  {| world := list HttpResult;
     http_do := fun _ w =>
       match w with
       | r :: rest => (r, rest)
       | [] => (DoFails "connection refused", [])
       end;
     time_Now := fun w => (0%Z, w);
     time_Sleep := fun _ w => w |}.

(** A JSON codec for the examples: it writes a document as its [uuid], and
    reads the two bodies [{}] and [page] (a scroll page with no hit). *)
Definition json_sample : Json :=
  {| Marshal := fun v =>
       match v with
       | VMap m =>
           match m !! "uuid" with
           | Some (VString u) => inl ("{" +:+ q "uuid" +:+ ":" +:+ q u +:+ "}")
           | _ => inl "{}"
           end
       | _ => inr "unsupported value"
       end;
     Unmarshal := fun body =>
       if String.eqb body "{}" then inl (VMap ∅)
       else if String.eqb body "page" then
         inl (VMap (<[ "_scroll_id" := VString "c1" ]>
                   (<[ "hits" := VMap (<[ "hits" := VSlice [] ]> ∅) ]> ∅)))
       else inr "invalid character" |}.

Definition st0 (w : @world scripted) : @St scripted :=
  {| st_world := w; st_calls := []; st_log := [] |}.

Definition ctx_sample : Ctx :=
  {| Debug := 0; ESURL := "http://es:9200"; RawIndex := "proj-raw"; RichIndex := "proj";
     ESScrollWait := "10m"; ESScrollSize := 1000; ESScrollWaitSecs := 900;
     DateFrom := None; DateFromDetected := false;
     OffsetFrom := (-1)%float; OffsetFromDetected := false;
     DateTo := None; OffsetTo := (-1)%float |}.

Definition ds_sample : DS :=
  {| Name := "jira";
     DateField := fun _ => "metadata__updated_on";
     OffsetField := fun _ => "offset";
     OriginField := fun _ => "origin";
     ResumeNeedsOrigin := fun _ => false;
     Origin := fun _ => "https://jira.example.org";
     SupportDateFrom := true;
     SupportOffsetFrom := false |}.

(** A document whose [uuid] is [u]. *)
Definition doc (u : string) : value := VMap (<[ "uuid" := VString u ]> ∅).

(** Helpers for the examples: the texts [D1] and [D2] are the dates of
    the instants 100 and 200; the body of the answer to an aggregation is
    the value itself. *)
Definition helpers_sample (runs_deferred : bool) : Helpers :=
  {| JSONEscape := fun s => s;
     ToESDate := fun t => if (t =? 100)%Z then "D1" else "D2";
     TimeParseAny := fun s =>
       if String.eqb s "D1" then inl 100%Z
       else if String.eqb s "D2" then inl 200%Z
       else inr "cannot parse";
     TimeParseES := fun s =>
       if String.eqb s "D1" then inl 100%Z
       else if String.eqb s "D2" then inl 200%Z
       else inr "cannot parse";
     ToYMDDate := fun t => if (t =? 100)%Z then "D1" else "D2";
     TooManyScrolls := "Trying to create too many scroll contexts";
     Unmarshal_value_as_string := fun body => inl body;
     Unmarshal_value := fun body =>
       if String.eqb body "7" then inl (Some 7%float)
       else if String.eqb body "3" then inl (Some 3%float)
       else inl None;
     fatal_runs_deferred := runs_deferred |}.

(** The context after a raw pass that detected the start date 100. *)
Definition ctx_detected_date : Ctx :=
  set_DateFromDetected (set_DateFrom ctx_sample (Some 100%Z)) true.

(** Callbacks for the examples: [uitems] buffers the hits, [ufunct] moves
    the buffer to the output. *)
Definition uitems_sample : @uitems_t scripted :=
  fun items docs w => (Done (None, docs ++ items), w).
Definition ufunct_sample : @ufunct_t scripted :=
  fun docs outDocs w => (Done (None, [], outDocs ++ docs), w).

(** An identity database without rows. *)
Definition empty_db : IdentityDB :=
  {| FindObject := fun _ _ _ _ => inl None |}.

Definition no_caches : Affs.Caches :=
  {| Affs.identityCache := ∅; Affs.rollsCache := ∅; Affs.uuidsCacheAffs := ∅ |}.

(** The identity of the scenario: a name, a user name and the empty
    email. *)
Definition identity_sample : gmap string value :=
  <[ "name" := VString "Vasyl" ]> (
  <[ "username" := VString "vvavrychuk" ]> (
  <[ "email" := VString "" ]> ∅)).

(** A raw Jira item whose reporter is that identity. *)
Definition raw_sample : gmap string value :=
  <[ "data" := VMap (<[ "fields" := VMap (<[ "reporter" :=
       VMap (<[ "displayName" := VString "Vasyl" ]> (
             <[ "name" := VString "vvavrychuk" ]> (
             <[ "emailAddress" := VString "" ]> ∅))) ]> ∅) ]> ∅) ]> ∅.

(* ===================================================================== *)
(** ** Vocabulary of the properties *)
(* ===================================================================== *)

(** [status] falls in one of the ranges of [statuses]. *)
Definition in_some_range (status : Z) (statuses : gset (Z * Z)) : Prop :=
  exists r : Z * Z, r ∈ statuses /\ (r.1 <= status <= r.2)%Z.


(** The calls of [SendToElastic]: the bulk call, and the call that writes
    one item in the fallback. *)
Definition bulk_url (ctx : Ctx) (raw : bool) : string :=
  if raw then ESURL ctx +:+ "/" +:+ RawIndex ctx +:+ "/_bulk?refresh=" +:+ BulkRefreshMode
  else ESURL ctx +:+ "/" +:+ RichIndex ctx +:+ "/_bulk?refresh=" +:+ BulkRefreshMode.

Definition doc_url (ctx : Ctx) (raw : bool) : string :=
  if raw then ESURL ctx +:+ "/" +:+ RawIndex ctx +:+ "/_doc/"
  else ESURL ctx +:+ "/" +:+ RichIndex ctx +:+ "/_doc/".

Definition bulk_call (ctx : Ctx) (raw : bool) (payloads : string) : Call :=
  {| call_url := bulk_url ctx raw;
     call_method := Post;
     call_headers := {[ "Content-Type" := "application/x-ndjson" ]};
     call_payload := payloads;
     call_jsonStatuses := ∅;
     call_errorStatuses := {[ (400, 599)%Z ]};
     call_okStatuses := ∅ |}.

Definition uuid_of (item : value) (key : string) : string :=
  match item with
  | VMap m => match m !! key with Some (VString uuid) => uuid | _ => "" end
  | _ => ""
  end.

Definition put_call `{Json} (ctx : Ctx) (raw : bool) (key : string) (item : value) : Call :=
  {| call_url := doc_url ctx raw +:+ uuid_of item key;
     call_method := Put;
     call_headers := {[ "Content-Type" := "application/json" ]};
     call_payload := match Marshal item with inl doc => doc | inr _ => "" end;
     call_jsonStatuses := ∅;
     call_errorStatuses := {[ (400, 599)%Z ]};
     call_okStatuses := {[ (200, 201)%Z ]} |}.

(** The request that [Request] sends for a call. *)
Definition request_of (c : Call) : HttpRequest :=
  {| http_method := call_method c; http_url := call_url c;
     http_headers := call_headers c; http_payload := call_payload c |}.

(** What [Request] returns for a call in a world. *)
Definition answer `{Remote} `{Json} (c : Call) (w : world) : value * Z * option error :=
  received (http_do (request_of c) w).1
    (call_jsonStatuses c) (call_errorStatuses c) (call_okStatuses c).

(** The lines that [SendToElastic] prints when it falls back; [e] is the
    error of the bulk call. *)
Definition fallback_lines (ctx : Ctx) (ds : DS) (n : nat) (e : error) : list logline :=
  (if (0 <? Debug ctx)%Z then [LogSaving (Name ds) n] else [])
  ++ [LogBulkFailed (Name ds) n]
  ++ (if (1 <? Debug ctx)%Z then [LogError e] else [])
  ++ (if (0 <? Debug ctx)%Z then [LogSavedNonBulk (Name ds) n] else []).

(** The world after the calls [cs], made in this order. *)
Fixpoint world_after `{Remote} (cs : list Call) (w : world) : world :=
  match cs with
  | [] => w
  | c :: rest => world_after rest (http_do (request_of c) w).2
  end.

(** The error of the last of the calls [cs], [err] when there is no
    call. *)
Fixpoint last_error `{Remote} `{Json} (cs : list Call) (err : option error) (w : world)
    : option error :=
  match cs with
  | [] => err
  | c :: rest => last_error rest (answer c w).2 (http_do (request_of c) w).2
  end.


(** [a] and [a'] differ in the case of ASCII letters only. *)
Fixpoint fold_case (s : string) : string :=
  match s with
  | EmptyString => EmptyString
  | String c t => String (lower_byte c) (fold_case t)
  end.

Definition case_variant (a a' : string) : Prop := fold_case a = fold_case a'.

(** The cache of [UUIDAffs] after the calls [calls], made in this order. *)
Fixpoint cache_after `{Unicode} (calls : list (list string)) (cache : gmap string string)
    : gmap string string :=
  match calls with
  | [] => cache
  | args :: rest => cache_after rest (UuidGo.UUIDAffs cache args).2
  end.


(** Every byte of [s] is below 128. *)
Fixpoint all_ascii (s : string) : bool :=
  match s with
  | EmptyString => true
  | String c t => is_ascii_byte c && all_ascii t
  end.

(** Two tuples with the same arguments up to the case of ASCII letters. *)
Definition case_variants (args args' : list string) : Prop :=
  Forall2 case_variant args args'.

(** The same, with the null sentinel at the same places. *)
Definition case_variants_nil (args args' : list string) : Prop :=
  Forall2 (fun a a' => case_variant a a' /\ (a = Nil <-> a' = Nil)) args args'.


(** The call that opens the scroll, the call that reads the next page and
    the call that frees the scroll. *)
Definition open_scroll_call `{Helpers} (ctx : Ctx) (ds : DS) : Call :=
  {| call_url := ESURL ctx +:+ "/" +:+ RawIndex ctx +:+ "/_search?scroll="
                   +:+ ESScrollWait ctx +:+ "&size=" +:+ pretty (ESScrollSize ctx);
     call_method := Post;
     call_headers := headers_json;
     call_payload := search_payload ctx ds;
     call_jsonStatuses := {[ (200, 200)%Z ]};
     call_errorStatuses := ∅;
     call_okStatuses := {[ (200, 200)%Z; (500, 500)%Z ]} |}.

Definition release_call (ctx : Ctx) (s : string) : Call :=
  {| call_url := ESURL ctx +:+ "/_search/scroll";
     call_method := Delete;
     call_headers := headers_json;
     call_payload := "{" +:+ q "scroll_id" +:+ ":" +:+ q s +:+ "}";
     call_jsonStatuses := ∅;
     call_errorStatuses := ∅;
     call_okStatuses := {[ (200, 200)%Z ]} |}.



(** The suffixes of the affiliation fields of a role. *)
Definition affs_suffixes : list string :=
  ["_id"; "_uuid"; "_name"; "_user_name"; "_domain"; "_gender"; "_gender_acc";
   "_org_name"; "_bot"; MultiOrgNames].

(* ===================================================================== *)
(** ** More of [ds.go] and of the Jira connector *)
(* ===================================================================== *)

(** [s[n:]] and [s[:n]] on bytes, for [n <= len(s)]. *)
Fixpoint bytes_from (n : nat) (s : string) : string :=
  match n, s with
  | S n', String _ t => bytes_from n' t
  | _, _ => s
  end.

Fixpoint bytes_to (n : nat) (s : string) : string :=
  match n, s with
  | S n', String c t => String c (bytes_to n' t)
  | _, _ => EmptyString
  end.

(** [strings.HasSuffix] *)
Definition HasSuffix (s suffix : string) : bool :=
  (String.length suffix <=? String.length s)%nat
  && String.eqb (bytes_from (String.length s - String.length suffix) s) suffix.

Module Jira.
(** The struct [DSJira]; [DS_] is its field [DS]. *)
Record DSJira : Type := {
  DS_ : string;
  URL : string;
  NoSSLVerify : bool;
  Token : string;
  PageSize : Z;
  MultiOrigin : bool
}.

Definition JiraDefaultSearchField : string := "item_id".

Definition JiraSearchFields : gmap string (list string) :=
  <[ "project_id" := ["fields"; "project"; "id"] ]> (
  <[ "project_key" := ["fields"; "project"; "key"] ]> (
  <[ "project_name" := ["fields"; "project"; "name"] ]> (
  <[ "issue_key" := ["key"] ]> ∅))).

(** [DSJira.Validate]: the connector after the call, and the error. *)
Definition Validate (j : DSJira) : DSJira * option error :=
  let url := if HasSuffix (URL j) "/"
             then bytes_to (String.length (URL j) - 1) (URL j) else URL j in
  ({| DS_ := DS_ j; URL := url; NoSSLVerify := NoSSLVerify j; Token := Token j;
      PageSize := PageSize j; MultiOrigin := MultiOrigin j |},
   if String.eqb url "" then Some (OtherError "Jira URL must be set") else None).

(** [DSJira.SearchFields] *)
Definition SearchFields : gmap string (list string) := JiraSearchFields.

(** The body of the loop of [GenSearchFields] for one search field: the
    walk along [keyAry] is the one of [Dig]. *)
Definition search_field (item : gmap string value) (field : string)
    (keyAry : list string) (fields : gmap string value) : gmap string value :=
  let r := Dig_keys item keyAry in
  if r.2 then <[ field := r.1 ]> fields else fields.

(** [DSJira.GenSearchFields] without its printing; [item, _ :=
    issue.(map[string]interface{})] gives the nil map for an issue that is
    not a map. *)
Definition GenSearchFields (issue : value) (uuid : string) : gmap string value :=
  let item := match issue with VMap m => m | _ => ∅ end in
  map_fold (search_field item) (<[ JiraDefaultSearchField := VString uuid ]> ∅)
           SearchFields.
End Jira.

(** [sep] is none of the bytes of [s]. *)
Fixpoint lacks (sep : ascii) (s : string) : bool :=
  match s with
  | EmptyString => true
  | String c t => negb (Ascii.eqb c sep) && lacks sep t
  end.

(** [strings.explode], which [strings.SplitN] calls for an empty separator:
    it cuts the text after each of its first UTF-8 sequences. *)
Class Runes : Type := {
  explode : string -> Z -> list string
}.

(** The text before the first occurrence of [sep] in [s] and the text after
    it ([strings.Index] and the two slices of [genSplit]); [pre] is the text
    already passed. *)
Fixpoint cut (s sep pre : string) : option (string * string) :=
  if HasPrefix s sep then Some (pre, bytes_from (String.length sep) s)
  else match s with
       | EmptyString => None
       | String c t => cut t sep (pre +:+ String c EmptyString)
       end.

(** [strings.SplitN(s, sep, 2)] *)
Definition SplitN2 `{Runes} (s sep : string) : list string :=
  if String.eqb sep "" then explode s 2
  else match cut s sep "" with
       | None => [s]
       | Some (a, b) => [a; b]
       end.

(** [PartitionString]; [parts[0]] panics when there is no part. *)
Definition PartitionString `{Runes} (s sep : string) : outcome (string * string * string) :=
  match SplitN2 s sep with
  | [] => Panic "index out of range"
  | [p] => Done (p, "", "")
  | p0 :: p1 :: _ => Done (p0, sep, p1)
  end.

(** [strings.Split(PartitionString(s, sep)[2], ",")[0]] *)
Definition sprint_attr `{Runes} (s sep : string) : outcome string :=
  outcome_map (fun parts : string * string * string =>
                 hd "" (Split parts.2 "," "")) (PartitionString s sep).

(** The four fields that [DSJira.EnrichItem] reads from the text [s] of a
    sprint. *)
Definition EnrichItem_sprint `{Runes} (s : string) (rich : gmap string value)
    : outcome (gmap string value) :=
  match sprint_attr s ",name=", sprint_attr s ",startDate=",
        sprint_attr s ",endDate=", sprint_attr s ",completeDate=" with
  | Done name, Done startDate, Done endDate, Done completeDate =>
      Done (<[ "sprint_complete" := VString completeDate ]> (
            <[ "sprint_end" := VString endDate ]> (
            <[ "sprint_start" := VString startDate ]> (
            <[ "sprint" := VString name ]> rich))))
  | Done _, Done _, Done _, o => outcome_map (fun _ => rich) o
  | Done _, Done _, o, _ => outcome_map (fun _ => rich) o
  | Done _, o, _, _ => outcome_map (fun _ => rich) o
  | o, _, _, _ => outcome_map (fun _ => rich) o
  end.

(** For the examples: the separators are not empty, [explode] is not
    called. *)
Definition runes_sample : Runes := {| explode := fun s _ => [s] |}.

(** [MappingNotAnalyzeString] *)
Definition MappingNotAnalyzeString : string :=
  "{" +:+ q "dynamic_templates" +:+ ":[{" +:+ q "notanalyzed" +:+ ":{"
    +:+ q "match" +:+ ":" +:+ q "*" +:+ "," +:+ q "match_mapping_type" +:+ ":"
    +:+ q "string" +:+ "," +:+ q "mapping" +:+ ":{" +:+ q "type" +:+ ":"
    +:+ q "keyword" +:+ "}}},{" +:+ q "formatdate" +:+ ":{" +:+ q "match"
    +:+ ":" +:+ q "*" +:+ "," +:+ q "match_mapping_type" +:+ ":" +:+ q "date"
    +:+ "," +:+ q "mapping" +:+ ":{" +:+ q "type" +:+ ":" +:+ q "date" +:+ ","
    +:+ q "format" +:+ ":" +:+ q "strict_date_optional_time||epoch_millis"
    +:+ "}}}]}".

(** The two methods of the [DS] interface that [HandleMapping] calls. *)
Record DSMappings : Type := {
  ElasticRawMapping : string;
  ElasticRichMapping : string
}.

Section Mapping.
Context `{Remote} `{Json} `{Helpers}.

(** [HandleMapping] *)
Definition HandleMapping (ctx : Ctx) (dx : DSMappings) (raw : bool) : M St (option error) :=
  let url := if raw then ESURL ctx +:+ "/" +:+ RawIndex ctx
             else ESURL ctx +:+ "/" +:+ RichIndex ctx in
  '(_, _, err) <- Request url Put ∅ "" ∅ {[ (401, 599)%Z ]} ∅ ;
  _ <- FatalOnError err ;
  let mapping := if raw then ElasticRawMapping dx else ElasticRichMapping dx in
  let url := url +:+ "/_mapping" in
  '(_, _, err) <-
    Request url Put {[ "Content-Type" := "application/json" ]} mapping
      ∅ ∅ {[ (200, 200)%Z ]} ;
  _ <- FatalOnError err ;
  '(_, _, err) <-
    Request url Put {[ "Content-Type" := "application/json" ]} MappingNotAnalyzeString
      ∅ ∅ {[ (200, 200)%Z ]} ;
  _ <- FatalOnError err ;
  ret err.

End Mapping.

(** The three calls of [HandleMapping]. *)
Definition index_url (ctx : Ctx) (raw : bool) : string :=
  if raw then ESURL ctx +:+ "/" +:+ RawIndex ctx else ESURL ctx +:+ "/" +:+ RichIndex ctx.

Definition create_index_call (ctx : Ctx) (raw : bool) : Call :=
  {| call_url := index_url ctx raw;
     call_method := Put;
     call_headers := ∅;
     call_payload := "";
     call_jsonStatuses := ∅;
     call_errorStatuses := {[ (401, 599)%Z ]};
     call_okStatuses := ∅ |}.

Definition mapping_call (ctx : Ctx) (raw : bool) (mapping : string) : Call :=
  {| call_url := index_url ctx raw +:+ "/_mapping";
     call_method := Put;
     call_headers := {[ "Content-Type" := "application/json" ]};
     call_payload := mapping;
     call_jsonStatuses := ∅;
     call_errorStatuses := ∅;
     call_okStatuses := {[ (200, 200)%Z ]} |}.

Definition ds_mapping (dx : DSMappings) (raw : bool) : string :=
  if raw then ElasticRawMapping dx else ElasticRichMapping dx.

Definition mapping_calls (ctx : Ctx) (dx : DSMappings) (raw : bool) : list Call :=
  [create_index_call ctx raw; mapping_call ctx raw (ds_mapping dx raw);
   mapping_call ctx raw MappingNotAnalyzeString].

(** The answers to the calls [cs], made in this order from the world [w]. *)
Fixpoint answers `{Remote} (cs : list Call) (w : world) : list HttpResult :=
  match cs with
  | [] => []
  | c :: rest => (http_do (request_of c) w).1 :: answers rest (http_do (request_of c) w).2
  end.

(** The query of [GetLastUpdate]. *)
Definition last_update_call `{Helpers} (ctx : Ctx) (ds : DS) (raw : bool) : Call :=
  {| call_url := search_url ctx raw;
     call_method := Post;
     call_headers := {[ "Content-Type" := "application/json" ]};
     call_payload := max_query (ResumeNeedsOrigin ds ctx) (JSONEscape (OriginField ds ctx))
                       (JSONEscape (Origin ds ctx)) (JSONEscape (DateField ds ctx));
     call_jsonStatuses := ∅;
     call_errorStatuses := ∅;
     call_okStatuses := {[ (200, 200)%Z ]} |}.

(** The query of [GetLastOffset]: the filter names the offset field. *)
Definition last_offset_call `{Helpers} (ctx : Ctx) (ds : DS) (raw : bool) : Call :=
  {| call_url := search_url ctx raw;
     call_method := Post;
     call_headers := {[ "Content-Type" := "application/json" ]};
     call_payload := max_query (ResumeNeedsOrigin ds ctx) (JSONEscape (OffsetField ds ctx))
                       (JSONEscape (Origin ds ctx)) (JSONEscape (OffsetField ds ctx));
     call_jsonStatuses := ∅;
     call_errorStatuses := ∅;
     call_okStatuses := {[ (200, 200)%Z ]} |}.

(** An item of a batch that [SendToElastic] cannot send: a map without a
    string under [key]. *)
Definition lacks_key (key : string) (item : value) : Prop :=
  exists m : gmap string value,
    item = VMap m /\ forall uuid : string, m !! key <> Some (VString uuid).

Definition is_map (item : value) : Prop :=
  exists m : gmap string value, item = VMap m.

(** A connector that resumes by date and by offset. *)
Definition ds_both : DS :=
  {| Name := "stub";
     DateField := fun _ => "metadata__updated_on";
     OffsetField := fun _ => "offset";
     OriginField := fun _ => "origin";
     ResumeNeedsOrigin := fun _ => false;
     Origin := fun _ => "https://stub.example.org";
     SupportDateFrom := true;
     SupportOffsetFrom := true |}.

(** Every list of organizations in the cache of enrollments is empty. *)
Definition rolls_empty (c : Affs.Caches) : Prop :=
  map_Forall (fun _ orgs => orgs = @nil string) (Affs.rollsCache c).

(** The item [m] has the ten affiliation fields of [role]. *)
Definition has_affs_fields (role : string) (m : gmap string value) : Prop :=
  Forall (fun suffix => is_Some (m !! (role +:+ suffix))) affs_suffixes.

(** A database that knows every identity as [i1], of the unified identity
    [u1], and holds no profile. *)
Definition one_identity_db : IdentityDB :=
  {| FindObject := fun object _ _ _ =>
       if String.eqb object "identities"
       then inl (Some (<[ "id" := VString "i1" ]> (<[ "uuid" := VString "u1" ]> ∅)))
       else inl None |}.

(** The identity that [GetRoleIdentity] makes of the user [user] of a
    role. *)
Definition role_identity (user : value) : gmap string value :=
  let get k := match user with
               | VMap u => at_key u k
               | _ => VNil
               end in
  <[ "email" := get "emailAddress" ]> (
  <[ "username" := get "name" ]> (
  <[ "name" := get "displayName" ]> ∅)).

(** The roles of an issue for which [EnrichItem] asks for affiliations. *)
Definition jira_roles : list string := ["assignee"; "reporter"; "creator"].

(** The suffixes of the fields that [EnrichItem] copies to the fields of
    the author. *)
Definition author_suffixes : list string :=
  ["_id"; "_uuid"; "_name"; "_user_name"; "_domain"; "_gender"; "_gender_acc";
   "_org_name"; "_bot"].

(** No field [author_...] that is written is a field of the role [author]
    that is read. *)
Definition disjoint_keys (author : string) (suffs : list string) : bool :=
  forallb (fun s =>
             forallb (fun s' => negb (String.eqb ("author" +:+ s) (author +:+ s'))) suffs)
          suffs.

(** A raw Jira item without assignee: the field is there and holds null. *)
Definition raw_unassigned : gmap string value :=
  <[ "data" := VMap (<[ "fields" := VMap (<[ "assignee" := VNil ]> ∅) ]> ∅) ]> ∅.

(* ===================================================================== *)
(** ** [ds.go]: the callbacks of [EnrichItems] and [UploadIdentities] *)
(* ===================================================================== *)

Section Callbacks.
Context `{Remote}.

(** The method [EnrichItem] of a connector: the rich document of an item
    for an author, or an error; it may read the clock and the database. *)
Definition EnrichItem_t : Type :=
  gmap string value -> string -> bool -> M world (gmap string value * option error).

(** The loop of [itemsFunc] in [EnrichItems]: [docs] with the [_source]
    of every item, up to the first item without one. [item.(map[string]
    interface{})] panics on an item that is not a map. *)
Fixpoint EnrichItems_itemsFunc (items docs : list value)
    : outcome (option error * list value) :=
  match items with
  | [] => Done (None, docs)
  | item :: rest =>
      match item with
      | VMap m =>
          match m !! "_source" with
          | Some doc => EnrichItems_itemsFunc rest (docs ++ [doc])
          | None => Done (Some (OtherError "Missing _source in item %+v"), docs)
          end
      | _ => Panic interface_conversion
      end
  end.

(** The inner loop of [enrichFunc], over the three authors. *)
Fixpoint enrich_authors (EnrichItem : EnrichItem_t) (dbConfigured : bool)
    (item : gmap string value) (authors : list string) (outDocs : list value)
    : M world (option error * list value) :=
  match authors with
  | [] => ret (None, outDocs)
  | author :: rest =>
      '(rich, e) <- EnrichItem item author dbConfigured ;
      match e with
      | Some e => ret (Some e, outDocs)
      | None => enrich_authors EnrichItem dbConfigured item rest (outDocs ++ [VMap rich])
      end
  end.

(** The outer loop of [enrichFunc], over the documents. *)
Fixpoint enrich_docs (EnrichItem : EnrichItem_t) (dbConfigured : bool)
    (docs outDocs : list value) : M world (option error * list value) :=
  match docs with
  | [] => ret (None, outDocs)
  | doc :: rest =>
      match doc with
      | VMap item =>
          '(e, outDocs) <- enrich_authors EnrichItem dbConfigured item
                             ["creator"; "assignee"; "reporter"] outDocs ;
          match e with
          | Some e => ret (Some e, outDocs)
          | None => enrich_docs EnrichItem dbConfigured rest outDocs
          end
      | _ => ret (Some (OtherError "Failed to parse document %+v"), outDocs)
      end
  end.

(** [enrichFunc] of [EnrichItems] without its two printed lines: the
    result is the error with [*docs] and [*outDocs] as the call leaves
    them. *)
Definition EnrichItems_enrichFunc (EnrichItem : EnrichItem_t) (dbConfigured : bool)
    (docs outDocs : list value) : M world (option error * list value * list value) :=
  '(e, outDocs') <- enrich_docs EnrichItem dbConfigured docs outDocs ;
  match e with
  | Some e => ret (Some e, docs, outDocs')
  | None => ret (None, [], outDocs')
  end.

(** [EnrichItems]: [ForEachRawItem] with the two callbacks, for at most
    [pages] pages; [ESBulkSize] is [ctx.ESBulkSize]. *)
Definition EnrichItems `{Json} `{Helpers} (pages : nat) (ctx : Ctx) (ESBulkSize : Z)
    (ds : DS) (EnrichItem : EnrichItem_t) (dbConfigured : bool)
    : M St (option error) :=
  ForEachRawItem pages ctx ds ESBulkSize
    (EnrichItems_enrichFunc EnrichItem dbConfigured)
    (fun items docs w => (EnrichItems_itemsFunc items docs, w)).
End Callbacks.

(** The [_source] of the items that have one and come before the first
    item that has none. *)
Fixpoint sources (items : list value) : list value :=
  match items with
  | VMap m :: rest =>
      match m !! "_source" with
      | Some doc => doc :: sources rest
      | None => []
      end
  | _ => []
  end.

Definition has_source (item : value) : Prop :=
  exists (m : gmap string value) (doc : value), item = VMap m /\ m !! "_source" = Some doc.

(** A method [EnrichItem] for the examples: the rich document holds the
    type of the author. *)
Definition EnrichItem_sample : @EnrichItem_t scripted :=
  fun item author affs => ret (<[ "author_type" := VString author ]> ∅, None).

(* ===================================================================== *)
(** ** [jira.go] and [ds.go]: the identities of an item and their upload *)
(* ===================================================================== *)

(** A [[3]string]: the name, the user name and the email of an identity;
    [Nil] stands for null. *)
Definition identity3 : Type := string * string * string.

(** [v, ok := f[k].(string)] and the choice between [v] and [Nil]. *)
Definition field_or_Nil (f : gmap string value) (k : string) : string * bool :=
  match f !! k with
  | Some (VString v) => (v, true)
  | _ => (Nil, false)
  end.

(** The loop over [displayName], [name] and [emailAddress]: the identity
    of the user [f], and [any]. *)
Definition user_identity (f : gmap string value) : identity3 * bool :=
  let '(name, any0) := field_or_Nil f "displayName" in
  let '(username, any1) := field_or_Nil f "name" in
  let '(email, any2) := field_or_Nil f "emailAddress" in
  ((name, username, email), any0 || any1 || any2).

(** The loop over the fields that hold a user; [identities] is a
    [map[[3]string]struct{}], [None] while it is nil. *)
Fixpoint users_identities (m : gmap string value) (fields : list string)
    (identities : option (gset identity3)) : option (gset identity3) :=
  match fields with
  | [] => identities
  | field :: rest =>
      match m !! field with
      | Some (VMap f) =>
          let '(ident, any) := user_identity f in
          users_identities m rest
            (if any then Some (default ∅ identities ∪ {[ ident ]}) else identities)
      | _ => users_identities m rest identities
      end
  end.

(** The loop over the comments. *)
Fixpoint comments_identities (comments : list value)
    (identities : option (gset identity3)) : option (gset identity3) * option error :=
  match comments with
  | [] => (identities, None)
  | VMap comment :: rest =>
      comments_identities rest
        (users_identities comment ["author"; "updateAuthor"] identities)
  | _ :: _ => (identities, Some (OtherError "Cannot parse %+v"))
  end.

(** [DSJira.GetItemIdentities]: the identities of the users of an issue
    and of its comments. The assertions on [doc] and on [doc["data"]] have
    one result and panic; the ones on [fields] and [comments_data] have two
    and give an error. *)
Definition GetItemIdentities (doc : value)
    : outcome (option (gset identity3) * option error) :=
  match doc with
  | VMap d =>
      match at_key d "data" with
      | VMap data =>
          match at_key data "fields" with
          | VMap fields =>
              let identities :=
                users_identities fields ["assignee"; "reporter"; "creator"] None in
              match at_key data "comments_data" with
              | VSlice comments => Done (comments_identities comments identities)
              | _ => Done (identities,
                           Some (OtherError "cannot read data.comments_data from doc %+v"))
              end
          | _ => Done (None, Some (OtherError "cannot read data.fields from doc %+v"))
          end
      | _ => Panic interface_conversion
      end
  | _ => Panic interface_conversion
  end.

(** [uploadFunc] of [UploadIdentities]: the uuid of an identity,
    [UUIDAffs(ctx, source, email, name, username)]. *)
Definition identity_uuid `{Unicode} (uuidsCacheAffs : gmap string string)
    (source : string) (ident : identity3) : outcome string * gmap string string :=
  let '(name, username, email) := ident in
  UuidGo.UUIDAffs uuidsCacheAffs [source; email; name; username].

Section UploadItems.
(** The method [GetItemIdentities] of the connector. *)
Variable GetItemIdentities_ds : value -> outcome (option (gset identity3) * option error).

(** The loop of [itemsFunc] in [UploadIdentities] over the items of a
    page: the identities gathered, or the error the loop stops with. The
    error is assigned to [err] of [UploadIdentities]. *)
Fixpoint upload_items (items : list value) (idents : gset identity3)
    : outcome (gset identity3 + error) :=
  match items with
  | [] => Done (inl idents)
  | item :: rest =>
      match item with
      | VMap m =>
          match m !! "_source" with
          | None => Done (inr (OtherError "Missing _source in item %+v"))
          | Some doc =>
              match GetItemIdentities_ds doc with
              | Done (_, Some _) =>
                  Done (inr (OtherError "Cannot get identities from doc %+v"))
              | Done (None, None) => upload_items rest idents
              | Done (Some identities, None) => upload_items rest (idents ∪ identities)
              | Fatal msg => Fatal msg
              | Panic msg => Panic msg
              | Unfinished => Unfinished
              end
          end
      | _ => Panic interface_conversion
      end
  end.

(** [itemsFunc] of [UploadIdentities]: its result [e], the variable [err]
    of [UploadIdentities] when it has assigned it, and [*docs]. The buffer
    holds [[3]string] values only (it starts empty and [itemsFunc] and
    [uploadFunc] alone write it). The order in which Go ranges over
    [idents] is not specified; [elements] is one such order. *)
Definition UploadIdentities_itemsFunc (items : list value) (docs : list identity3)
    : outcome (option error * option error * list identity3) :=
  match upload_items items (list_to_set docs) with
  | Done (inl idents) => Done (None, None, elements idents)
  | Done (inr err) => Done (None, Some err, docs)
  | Fatal msg => Fatal msg
  | Panic msg => Panic msg
  | Unfinished => Unfinished
  end.
End UploadItems.

(** The identities of the items of a page, as [itemsFunc] gathers them. *)
Fixpoint page_identities
    (GetItemIdentities_ds : value -> outcome (option (gset identity3) * option error))
    (items : list value) : gset identity3 :=
  match items with
  | [] => ∅
  | item :: rest =>
      match item with
      | VMap m =>
          match m !! "_source" with
          | Some doc =>
              match GetItemIdentities_ds doc with
              | Done (Some identities, _) =>
                  identities ∪ page_identities GetItemIdentities_ds rest
              | _ => page_identities GetItemIdentities_ds rest
              end
          | None => page_identities GetItemIdentities_ds rest
          end
      | _ => page_identities GetItemIdentities_ds rest
      end
  end.

(** The text under which [AffsIdentityIDs] caches the ids of an
    identity. *)
Definition identity_key (identity : gmap string value) : string :=
  (Affs.as_string (at_key identity "email")).1 +:+ ":"
    +:+ (Affs.as_string (at_key identity "name")).1 +:+ ":"
    +:+ (Affs.as_string (at_key identity "username")).1.

(** The three fields of an identity are nil. *)
Definition all_nil (identity : gmap string value) : bool :=
  Affs.is_nil (at_key identity "email") && Affs.is_nil (at_key identity "name")
  && Affs.is_nil (at_key identity "username").

(** What [AffsIdentityIDs] makes of the row found in the database. *)
Definition found_ids `{IdentityDB} (id : string) : value * value :=
  match FindObject "identities" "id" id ["id"; "uuid"] with
  | inl (Some identityFound) => (at_key identityFound "id", at_key identityFound "uuid")
  | _ => (VNil, VNil)
  end.

(** The identity of the scenario without its email. *)
Definition identity_no_email : gmap string value :=
  <[ "name" := VString "Vasyl" ]> (<[ "username" := VString "vvavrychuk" ]> ∅).

(** A page of one item: an issue without [comments_data]. *)
Definition page_no_comments : list value := [VMap (<[ "_source" := VMap raw_sample ]> ∅)].

(** The call of [ForEachRawItem] for the next page of the scroll [s]. *)
Definition next_page_call (ctx : Ctx) (s : string) : Call :=
  {| call_url := ESURL ctx +:+ "/_search/scroll";
     call_method := Post;
     call_headers := headers_json;
     call_payload := "{" +:+ q "scroll" +:+ ":" +:+ q (ESScrollWait ctx) +:+ ","
                         +:+ q "scroll_id" +:+ ":" +:+ q s +:+ "}";
     call_jsonStatuses := {[ (200, 200)%Z ]};
     call_errorStatuses := ∅;
     call_okStatuses := {[ (200, 200)%Z; (500, 500)%Z ]} |}.

(** The call of an iteration of [ForEachRawItem]. *)
Definition page_call `{Helpers} (ctx : Ctx) (ds : DS) (scroll : option string) : Call :=
  match scroll with
  | None => open_scroll_call ctx ds
  | Some s => next_page_call ctx s
  end.

(** [text] is a page of a scroll: the scroll id [s] and the hits
    [items]. *)
Definition is_page `{Json} (text s : string) (items : list value) : Prop :=
  exists m hits : gmap string value,
    Unmarshal text = inl (VMap m)
    /\ m !! "_scroll_id" = Some (VString s)
    /\ m !! "hits" = Some (VMap hits)
    /\ hits !! "hits" = Some (VSlice items).

(** A JSON codec for the examples that reads two pages: [page1] holds one
    hit, [page2] none. *)
Definition json_pages : Json :=
  {| Marshal := fun _ => inr "unsupported value";
     Unmarshal := fun body =>
       if String.eqb body "page1" then
         inl (VMap (<[ "_scroll_id" := VString "c1" ]>
                   (<[ "hits" := VMap (<[ "hits" :=
                         VSlice [VMap (<[ "_source" := doc "a" ]> ∅)] ]> ∅) ]> ∅)))
       else if String.eqb body "page2" then
         inl (VMap (<[ "_scroll_id" := VString "c2" ]>
                   (<[ "hits" := VMap (<[ "hits" := VSlice [] ]> ∅) ]> ∅)))
       else inr "invalid character" |}.

(* ===================================================================== *)
(** ** [ds.go]: [uploadFunc] of [UploadIdentities] *)
(* ===================================================================== *)

(** An argument of a statement: a string, or a nil [*string]. *)
Inductive sql_arg : Type :=
| ArgString (s : string)
| ArgNull.

(** What [uploadFunc] asks of the database: [SetDBSessionOrigin],
    [ctx.DB.Begin], [ExecSQL] in the transaction, [tx.Commit] and
    [tx.Rollback]. *)
Inductive sql_op : Type :=
| OpSessionOrigin
| OpBegin
| OpExec (query : string) (args : list sql_arg)
| OpCommit
| OpRollback.

(** The database: the error of an operation and the database after it. *)
Class SQL : Type := {
  sql_world : Type;
  sql_do : sql_op -> sql_world -> option error * sql_world
}.

(** The state of [uploadFunc]: the database, the operations so far, oldest
    first, whether [tx] is not nil, and the cache of [UUIDAffs]. *)
Record Db `{SQL} : Type := {
  db_world : sql_world;
  db_ops : list sql_op;
  db_tx : bool;
  db_uuids : gmap string string
}.

(** The statements of a pack and their arguments. *)
Record Pack : Type := {
  queryU : string; queryP : string; queryI : string;
  argsU : list sql_arg; argsP : list sql_arg; argsI : list sql_arg
}.

Section Upload.
Context `{SQL} `{Unicode} `{Helpers}.

Definition sql (op : sql_op) : M Db (option error) :=
  fun s =>
    (Done (sql_do op (db_world s)).1,
     {| db_world := (sql_do op (db_world s)).2; db_ops := db_ops s ++ [op];
        db_tx := db_tx s; db_uuids := db_uuids s |}).

Definition set_tx (b : bool) : M Db unit :=
  fun s =>
    (Done tt, {| db_world := db_world s; db_ops := db_ops s; db_tx := b;
                 db_uuids := db_uuids s |}).

(** [UUIDAffs] of [uuid.go] on the cache of the state. *)
Definition uuid_affs (args : list string) : M Db string :=
  fun s =>
    ((UuidGo.UUIDAffs (db_uuids s) args).1,
     {| db_world := db_world s; db_ops := db_ops s; db_tx := db_tx s;
        db_uuids := (UuidGo.UUIDAffs (db_uuids s) args).2 |}).

(** [&s] when [s != Nil], the nil pointer otherwise. *)
Definition pointer_unless_Nil (s : string) : sql_arg :=
  if String.eqb s Nil then ArgNull else ArgString s.

(** [query[:len(query)-1]] *)
Definition drop_last (query : string) : string :=
  bytes_to (String.length query - 1) query.

(** The loop [for j := from; j < to; j++], with [n] iterations left. *)
Fixpoint rows (source : string) (docs : list identity3) (j : Z) (n : nat) (p : Pack)
    : M Db Pack :=
  match n with
  | O => ret p
  | S n' =>
      match (if (j <? 0)%Z then None else docs !! Z.to_nat j) with
      | None => panic "index out of range"
      | Some (name, username, email) =>
          uuid <- uuid_affs [source; email; name; username] ;
          rows source docs (j + 1) n'
            {| queryU := queryU p +:+ "(?,now()),";
               argsU := argsU p ++ [ArgString uuid];
               queryP := queryP p +:+ "(?),";
               argsP := argsP p ++ [ArgString uuid];
               queryI := queryI p +:+ "(?,?,?,?,?,?,now()),";
               argsI := argsI p ++ [ArgString uuid; ArgString source;
                                    pointer_unless_Nil name; pointer_unless_Nil email;
                                    pointer_unless_Nil username; ArgString uuid] |}
      end
  end.

Definition empty_pack : Pack :=
  {| queryU := "insert ignore into uidentities(uuid, last_modified) values";
     queryP := "insert ignore into profiles(uuid) values";
     queryI := "insert ignore into identities(id, source, name, email, username, uuid, "
               +:+ "last_modified) values";
     argsU := []; argsP := []; argsI := [] |}.

(** The loop [for i := 0; i < nPacks; i++], with [n] iterations left. *)
Fixpoint packs (bulkSize nIdents : Z) (source : string) (docs : list identity3)
    (i : Z) (n : nat) : M Db (option error) :=
  match n with
  | O => ret None
  | S n' =>
      let from := (i * bulkSize)%Z in
      let to := (from + bulkSize)%Z in
      let to := if (nIdents <? to)%Z then nIdents else to in
      p <- rows source docs from (Z.to_nat (to - from)) empty_pack ;
      e <- sql (OpExec (drop_last (queryU p)) (argsU p)) ;
      match e with
      | Some e => ret (Some e)
      | None =>
          e <- sql (OpExec (drop_last (queryP p)) (argsP p)) ;
          match e with
          | Some e => ret (Some e)
          | None =>
              e <- sql (OpExec (drop_last (queryI p)) (argsI p)) ;
              match e with
              | Some e => ret (Some e)
              | None => packs bulkSize nIdents source docs (i + 1) n'
              end
          end
      end
  end.

(** The deferred function of [uploadFunc]. *)
Definition rollback_unless_nil : M Db unit :=
  fun s =>
    if db_tx s then (_ <- sql OpRollback ; ret tt) s else (Done tt, s).

(** [uploadFunc] of [UploadIdentities] without its printed lines: the
    result [e] and [*docs] when it returns; [DBBulkSize] is
    [ctx.DBBulkSize] and [source] is [ds.Name()]. The numbers are the ones
    of [int] as long as the buffer holds fewer than [2^62] identities. *)
Definition uploadFunc (DBBulkSize : Z) (source : string) (docs : list identity3)
    : M Db (option error * list identity3) :=
  e <- sql OpSessionOrigin ;
  match e with
  | Some e => ret (Some e, docs)
  | None =>
      e <- sql OpBegin ;
      match e with
      | Some e => ret (Some e, docs)
      | None =>
          _ <- set_tx true ;
          let nIdents := Z.of_nat (length docs) in
          defer fatal_runs_deferred rollback_unless_nil
            (let bulkSize := Z.quot DBBulkSize 6 in
             if (bulkSize =? 0)%Z then panic "integer divide by zero"
             else
               let nPacks := Z.quot nIdents bulkSize in
               let nPacks := if (Z.rem nIdents bulkSize =? 0)%Z then nPacks
                             else (nPacks + 1)%Z in
               e <- packs bulkSize nIdents source docs 0 (Z.to_nat nPacks) ;
               match e with
               | Some e => ret (Some e, docs)
               | None =>
                   e <- sql OpCommit ;
                   match e with
                   | Some e => ret (Some e, docs)
                   | None =>
                       _ <- set_tx false ;
                       ret (None, [])
                   end
               end)
      end
  end.
End Upload.

Definition is_exec (op : sql_op) : Prop :=
  match op with
  | OpExec _ _ => True
  | _ => False
  end.

(** [c] adds statements only to the operations, and leaves [tx] as it
    is. *)
Definition only_execs `{SQL} {A} (c : M Db A) : Prop :=
  forall s : Db,
    exists ops : list sql_op,
      db_ops (c s).2 = db_ops s ++ ops /\ Forall is_exec ops /\ db_tx (c s).2 = db_tx s.

(** A database that accepts every operation. *)
Definition sql_ok : SQL :=
  {| sql_world := unit; sql_do := fun _ w => (None, w) |}.

Definition db0 : @Db sql_ok :=
  @Build_Db sql_ok tt [] false ∅.

(* ===================================================================== *)
(** ** [ds.go]: [ForEachRawItem] with its workers *)
(* ===================================================================== *)

(** What a run of [ForEachRawItem] has beside the variables of the
    coordinating thread. [nThreads] is the counter of the code. [waiting]
    counts the workers ([go func() { _ = funct(ch) }()]) that wait in
    [mtx.Lock()]; [locked] says that the coordinating thread holds [mtx].
    [sending] holds, oldest first, the workers that are
    through [ufunct] and [mtx.Unlock()] and wait in [c <- e]: the value they
    send and, for a worker whose [ufunct] panicked (its [e] is nil), the
    message of the panic. [dying] is set when the value of such a worker is
    received: its panic then ends the process, at a moment that the model
    does not fix; the run is followed for as long as the coordinating thread
    is alive. [schedule] holds the decisions of the scheduler that are
    still to come. [seen] is no variable of the code: it records the result
    of every search, oldest first. *)
Record Threads : Type := {
  nThreads : Z;
  waiting : nat;
  locked : bool;
  sending : list (option error * option string);
  dying : option string;
  schedule : list nat;
  seen : list value
}.





Section Workers.
Context `{Remote} `{Json} `{Helpers}.

(** The state of a run with workers. *)
Definition Co : Type := (Frame * St) * Threads.

(** A step of the coordinating thread on its own variables. *)
Definition coord {A} (c : M (Frame * St) A) : M Co A :=
  fun s => ((c s.1).1, ((c s.1).2, s.2)).




(** Assignments to the variables of the coordinating thread. *)
Definition set_scroll (s : string) : M (Frame * St) unit :=
  fun fs => (Done tt, ({| scroll := Some s; docs := docs fs.1; outDocs := outDocs fs.1;
                          total := total fs.1 |}, fs.2)).










(** The lines of an iteration after the search, for its result: the
    retry when there are too many scrolls, the scroll id and the hits.
    [first] says that [scroll == nil]. The result is the way the iteration
    ends, or the hits of a page that has some. *)
Definition read_page (ctx : Ctx) (attemptAt : Time) (first : bool)
    (res : value) (status : Z) (err : option error) : M Co (loop_exit + list value) :=
  _ <- FatalOnError err ;
  tooMany <-
    (if first && (status =? 500)%Z then
       match res with
       | VBytes b => ret (Contains b TooManyScrolls)
       | _ => panic interface_conversion
       end
     else ret false) ;
  if (tooMany : bool) then
    _ <- coord (liftWorld (fun w => (tt, time_Sleep 5 w))) ;
    now <- coord (liftWorld time_Now) ;
    let elapsed := (now - attemptAt)%Z in
    n <- match res with
         | VMap m => ret (size m)
         | _ => panic interface_conversion
         end ;
    _ <- coord (liftSt (Printf (LogRetryingScroll n attemptAt elapsed))) ;
    if PrimFloat.ltb (ESScrollWaitSecs ctx) (Seconds elapsed) then
      fatal "Tried to acquire scroll too many times, first attempt at %v, elapsed %v/%.0fs"
    else ret (inl Continue)
  else
    match res with
    | VMap m =>
        match m !! "_scroll_id" with
        | Some (VString sScroll) =>
            _ <- coord (set_scroll sScroll) ;
            match m !! "hits" with
            | Some (VMap hits) =>
                match hits !! "hits" with
                | Some (VSlice items) =>
                    if Nat.eqb (length items) 0 then ret (inl Break) else ret (inr items)
                | _ => ret (inl (Return (Some MissingHits)))
                end
            | _ => panic interface_conversion
            end
        | _ => ret (inl (Return (Some MissingScrollID)))
        end
    | _ => panic interface_conversion
    end.






End Workers.



(** [c] makes no call and leaves the scroll and the record of the
    searches as they are, however it ends. *)
Definition quiet `{Remote} {A} (c : M Co A) : Prop :=
  forall s : Co,
    st_calls (c s).2.1.2 = st_calls s.1.2
    /\ scroll (c s).2.1.1 = scroll s.1.1
    /\ seen (c s).2.2 = seen s.2.



(* ===================================================================== *)
(** * Properties *)
(* ===================================================================== *)

Example sha1_empty : Sha1.hex "" = "da39a3ee5e6b4b0d3255bfef95601890afd80709".
Proof. vm_compute. reflexivity. Qed.

Example sha1_abc : Sha1.hex "abc" = "a9993e364706816aba3e25717850c26c9cd0d89d".
Proof. vm_compute. reflexivity. Qed.

Example sha1_two_blocks :
  Sha1.hex "abcdbcdecdefdefgefghfghighijhijkijkljklmklmnlmnomnopnopq"
  = "84983e441c3bd26ebaae4aa1f95129e5e54670f1".
Proof. vm_compute. reflexivity. Qed.

(** [UUIDNonEmpty] and [UUIDAffs] on small inputs; the third argument of
    the third example is U+00E9 in UTF-8. *)
Example UUIDNonEmpty_example :
  @DsGo.UUIDNonEmpty Unicode_excerpt ["https://jira.example.org"; "10001"]
  = Done (Sha1.hex "https://jira.example.org:10001").
Proof. vm_compute. reflexivity. Qed.

Example UUIDNonEmpty_strips_control_bytes :
  @DsGo.UUIDNonEmpty Unicode_excerpt ["a" +:+ newLine; "b"] = Done (Sha1.hex "a:b").
Proof. vm_compute. reflexivity. Qed.

Example UUIDAffs_example :
  @DsGo.UUIDAffs Unicode_excerpt
    ["Jira"; "<nil>"; "Ren" +:+ String (ascii_of_N 195) (String (ascii_of_N 169) "")]
  = Done (Sha1.hex "jira:none:rene").
Proof. vm_compute. reflexivity. Qed.

(* ===================================================================== *)
(** ** [Request] *)
(* ===================================================================== *)

Section RequestProperties.
Context `{Remote} `{Json}.

Lemma in_ranges_spec (status : Z) (statuses : gset (Z * Z)) :
  in_ranges status statuses = true <-> in_some_range status statuses.
Proof.
  unfold in_ranges, in_some_range. rewrite existsb_exists. split.
  - intros [r [Hin Hr]]. exists r. split.
    + apply elem_of_elements, list_elem_of_In, Hin.
    + apply andb_true_iff in Hr. lia.
  - intros [r [Hin Hr]]. exists r. split.
    + apply list_elem_of_In, elem_of_elements, Hin.
    + apply andb_true_iff. lia.
Qed.

Lemma in_ranges_empty (status : Z) : in_ranges status ∅ = false.
Proof. unfold in_ranges. rewrite elements_empty. reflexivity. Qed.

Lemma status_checks_error (status : Z) (es oks : gset (Z * Z)) (err : option error) :
  in_ranges status es = true -> status_checks status es oks err <> None.
Proof.
  intros He. unfold status_checks. rewrite He.
  destruct (0 <? size oks)%nat; [destruct (negb _)|]; discriminate.
Qed.

Lemma status_checks_not_ok (status : Z) (es oks : gset (Z * Z)) (err : option error) :
  oks <> ∅ -> in_ranges status oks = false -> status_checks status es oks err <> None.
Proof.
  intros Hne Hok. unfold status_checks. rewrite Hok. simpl.
  destruct (0 <? size oks)%nat eqn:Hs; [discriminate|].
  exfalso. apply Hne. apply Nat.ltb_ge in Hs.
  apply leibniz_equiv, size_empty_iff. lia.
Qed.

Lemma status_checks_pass (status : Z) (es oks : gset (Z * Z)) :
  in_ranges status es = false -> (oks = ∅ \/ in_ranges status oks = true) ->
  status_checks status es oks None = None.
Proof.
  intros He Hok. unfold status_checks. rewrite He.
  destruct Hok as [-> | ->]; [rewrite size_empty|]; simpl;
    [|destruct (0 <? size oks)%nat]; reflexivity.
Qed.

(** C5. For a response with status [status]: the body is decoded as JSON
    exactly when [status] falls in a range of [jsonStatuses] (otherwise
    the raw bytes are the result); the error is not nil when [status]
    falls in a range of [errorStatuses], and when [okStatuses] is not
    empty and [status] falls in none of its ranges; when [status] is in a
    JSON range, in no error range and passes the check of [okStatuses],
    the error is nil unless the decoding fails. *)
Theorem Request_status_ranges
    (url method : string) (headers : gmap string string) (payload : string)
    (jsonStatuses errorStatuses okStatuses : gset (Z * Z))
    (st : St) (status : Z) (body : string) (w : world) :
  http_do {| http_method := method; http_url := url; http_headers := headers;
             http_payload := payload |} (st_world st) = (Response status body, w) ->
  exists (result : value) (err : option error),
    (Request url method headers payload jsonStatuses errorStatuses okStatuses st).1
      = Done (result, status, err)
    /\ (in_some_range status jsonStatuses ->
        match Unmarshal body with
        | inl v => result = v
        | inr c => err = Some (UnmarshalError c status)
        end)
    /\ (~ in_some_range status jsonStatuses -> result = VBytes body)
    /\ (in_some_range status errorStatuses -> err <> None)
    /\ (okStatuses <> ∅ -> ~ in_some_range status okStatuses -> err <> None)
    /\ (in_some_range status jsonStatuses ->
        ~ in_some_range status errorStatuses ->
        okStatuses = ∅ \/ in_some_range status okStatuses ->
        (err = None <-> exists v, Unmarshal body = inl v)).
Proof.
  intros Hdo. unfold Request, received. rewrite Hdo. simpl.
  assert (Herr : forall err0,
             in_some_range status errorStatuses ->
             status_checks status errorStatuses okStatuses err0 <> None).
  { intros err0 He. apply status_checks_error, in_ranges_spec, He. }
  assert (Hnok : forall err0,
             okStatuses <> ∅ -> ~ in_some_range status okStatuses ->
             status_checks status errorStatuses okStatuses err0 <> None).
  { intros err0 Hne Hok. apply status_checks_not_ok; [exact Hne|].
    destruct (in_ranges status okStatuses) eqn:Ho; [|reflexivity].
    exfalso. apply Hok, in_ranges_spec, Ho. }
  assert (Hpass : ~ in_some_range status errorStatuses ->
             okStatuses = ∅ \/ in_some_range status okStatuses ->
             status_checks status errorStatuses okStatuses None = None).
  { intros He Hok. apply status_checks_pass.
    - destruct (in_ranges status errorStatuses) eqn:Hr; [|reflexivity].
      exfalso. apply He, in_ranges_spec, Hr.
    - destruct Hok as [-> | Ho]; [left; reflexivity|].
      right. apply in_ranges_spec, Ho. }
  destruct (in_ranges status jsonStatuses) eqn:Hj.
  - assert (Hin : in_some_range status jsonStatuses) by (apply in_ranges_spec, Hj).
    destruct (Unmarshal body) as [v | c] eqn:Hu.
    + eexists _, _. split; [reflexivity|].
      split; [intros _; reflexivity|].
      split; [intros Hout; contradiction|].
      split; [apply Herr|].
      split; [apply Hnok|].
      intros _ He Hok. split; [intros _; exists v; reflexivity|].
      intros _. apply Hpass; assumption.
    + eexists _, _. split; [reflexivity|].
      split; [intros _; reflexivity|].
      split; [intros Hout; contradiction|].
      split; [intros _; discriminate|].
      split; [intros _ _; discriminate|].
      intros _ _ _. split; [discriminate|]. intros [v Hv]. discriminate.
  - assert (Hout : ~ in_some_range status jsonStatuses).
    { intros Hin. apply in_ranges_spec in Hin. congruence. }
    eexists _, _. split; [reflexivity|].
    split; [intros Hin; contradiction|].
    split; [intros _; reflexivity|].
    split; [apply Herr|].
    split; [apply Hnok|].
    intros Hin. contradiction.
Qed.
End RequestProperties.

Lemma in_some_range_singleton (status lo hi : Z) :
  in_some_range status {[ (lo, hi) ]} <-> (lo <= status <= hi)%Z.
Proof.
  unfold in_some_range. split.
  - intros (r & Hin & Hr). apply elem_of_singleton in Hin. subst r. exact Hr.
  - intros Hr. exists (lo, hi). split; [apply elem_of_singleton; reflexivity|exact Hr].
Qed.

(** A [PUT] answered with status 200 and the body [{}], read as JSON on
    200, with the error range 400-599 and the success range 200-201. *)
Lemma Request_status_ranges_witness :
  exists (result : value) (err : option error),
    (@Request scripted json_sample "http://es:9200/proj/_doc/a" Put ∅ "{}"
       {[ (200, 200)%Z ]} {[ (400, 599)%Z ]} {[ (200, 201)%Z ]}
       (st0 [Response 200 "{}"])).1 = Done (result, 200%Z, err)
    /\ result = VMap ∅ /\ err = None.
Proof.
  destruct (@Request_status_ranges scripted json_sample
              "http://es:9200/proj/_doc/a" Put ∅ "{}"
              {[ (200, 200)%Z ]} {[ (400, 599)%Z ]} {[ (200, 201)%Z ]}
              (st0 [Response 200 "{}"]) 200%Z "{}" [] eq_refl)
    as (result & err & Hrun & Hjson & _ & _ & _ & Hnil).
  exists result, err. split; [exact Hrun|]. split.
  - apply Hjson, in_some_range_singleton. lia.
  - apply Hnil.
    + apply in_some_range_singleton. lia.
    + rewrite in_some_range_singleton. lia.
    + right. apply in_some_range_singleton. lia.
    + exists (VMap ∅). reflexivity.
Defined.

(* ===================================================================== *)
(** ** [SendToElastic] *)
(* ===================================================================== *)

Section SendToElasticProperties.
Context `{Remote} `{Json}.

Lemma Request_run (c : Call) (st : St) :
  Request (call_url c) (call_method c) (call_headers c) (call_payload c)
    (call_jsonStatuses c) (call_errorStatuses c) (call_okStatuses c) st
  = (Done (answer c (st_world st)),
     {| st_world := (http_do (request_of c) (st_world st)).2;
        st_calls := st_calls st ++ [c]; st_log := st_log st |}).
Proof. destruct c. reflexivity. Qed.

(** The items that pass the first loop are maps with a string under
    [key]. *)
Lemma bulk_payloads_items (key : string) (items : list value) :
  forall acc payloads,
    bulk_payloads key items acc = Done (inl payloads) ->
    Forall (fun item => item_key item key = Done (uuid_of item key, true)) items.
Proof.
  induction items as [|item rest IH]; intros acc payloads Hb; [constructor|].
  simpl in Hb. destruct (Marshal item) as [doc|c]; [|discriminate].
  destruct (item_key item key) as [[uuid [|]]| | |] eqn:Hk; try discriminate.
  constructor; [|eapply IH, Hb].
  destruct item; try discriminate. simpl in *.
  destruct (m !! key) as [[]|]; congruence.
Qed.

Lemma last_error_last (cs : list Call) (c : Call) :
  forall (err : option error) (w : world),
    last_error (cs ++ [c]) err w = (answer c (world_after cs w)).2.
Proof.
  induction cs as [|c0 cs IH]; intros err w; simpl; [reflexivity|apply IH].
Qed.

(** The fallback makes one call for each item, whatever the calls
    return, prints nothing and returns the error of its last call. *)
Lemma one_by_one_run (ctx : Ctx) (raw : bool) (key : string) (items : list value) :
  Forall (fun item => item_key item key = Done (uuid_of item key, true)) items ->
  forall (err : option error) (st : St),
    one_by_one (doc_url ctx raw) key items err st
    = (Done (last_error (map (put_call ctx raw key) items) err (st_world st)),
       {| st_world := world_after (map (put_call ctx raw key) items) (st_world st);
          st_calls := st_calls st ++ map (put_call ctx raw key) items;
          st_log := st_log st |}).
Proof.
  induction 1 as [|item rest Hk _ IH]; intros err st.
  - simpl. unfold ret. rewrite app_nil_r. destruct st; reflexivity.
  - simpl. unfold bind at 1. rewrite Hk.
    pose proof (Request_run (put_call ctx raw key item) st) as Hr.
    simpl in Hr. unfold bind. rewrite Hr.
    destruct (answer (put_call ctx raw key item) (st_world st)) as [[res status] err'].
    rewrite IH. simpl. rewrite <- app_assoc. reflexivity.
Qed.

(** The whole run of [SendToElastic] when the bulk call fails. *)
Lemma SendToElastic_fallback_run (ctx : Ctx) (ds : DS) (raw : bool) (key : string)
    (items : list value) (st : St) (payloads : string) (e : error) :
  bulk_payloads key items "" = Done (inl payloads) ->
  (answer (bulk_call ctx raw payloads) (st_world st)).2 = Some e ->
  let w1 := (http_do (request_of (bulk_call ctx raw payloads)) (st_world st)).2 in
  SendToElastic ctx ds raw key items st
  = (Done (last_error (map (put_call ctx raw key) items) None w1),
     {| st_world := world_after (map (put_call ctx raw key) items) w1;
        st_calls := st_calls st ++ bulk_call ctx raw payloads
                      :: map (put_call ctx raw key) items;
        st_log := st_log st ++ fallback_lines ctx ds (length items) e |}).
Proof.
  intros Hb He w1. unfold SendToElastic.
  pose proof (bulk_payloads_items _ _ _ _ Hb) as Hitems.
  pose proof (fun st1 => Request_run (bulk_call ctx raw payloads) st1) as Hr.
  simpl in Hr. unfold bulk_url in Hr.
  pose proof (one_by_one_run ctx raw key items Hitems None) as Ho.
  unfold doc_url in Ho. unfold fallback_lines.
  destruct (0 <? Debug ctx)%Z, (1 <? Debug ctx)%Z;
    unfold bind, when, Printf, ret; rewrite Hb, Hr; simpl;
    destruct (answer (bulk_call ctx raw payloads) (st_world st))
      as [[res status] err]; simpl in He; subst err;
    rewrite Ho; simpl; subst w1;
    rewrite <- ?app_assoc; simpl; rewrite ?app_nil_r; reflexivity.
Qed.

(** A fallback call succeeds on the statuses 200 and 201 only. *)
Lemma put_call_success (ctx : Ctx) (raw : bool) (key : string) (item : value)
    (w : world) :
  (answer (put_call ctx raw key item) w).2 = None
  <-> exists status body,
        (http_do (request_of (put_call ctx raw key item)) w).1 = Response status body
        /\ (200 <= status <= 201)%Z.
Proof.
  unfold answer, received.
  destruct (http_do (request_of (put_call ctx raw key item)) w).1
    as [c|c|c|status body]; simpl;
    try (split; [discriminate | intros (s & b & Hr & _); discriminate]).
  rewrite in_ranges_empty. unfold status_checks, in_ranges.
  rewrite !elements_singleton, size_singleton. simpl.
  split.
  - intros Hn. exists status, body. split; [reflexivity|].
    destruct (400 <=? status)%Z eqn:H4, (status <=? 599)%Z eqn:H5,
             (200 <=? status)%Z eqn:H2, (status <=? 201)%Z eqn:H1;
      simpl in Hn; try discriminate; lia.
  - intros (s & b & Hr & Hs). injection Hr as <- <-.
    destruct (400 <=? status)%Z eqn:H4, (status <=? 599)%Z eqn:H5,
             (200 <=? status)%Z eqn:H2, (status <=? 201)%Z eqn:H1;
      simpl; try reflexivity; lia.
Qed.

(** C4. When the bulk call fails, [SendToElastic] returns after one
    [PUT] call for every item of the batch, in the order of the batch and
    whatever these calls return; such a call counts the statuses 200 and
    201 only as a success. *)
Theorem SendToElastic_fallback_each_once (ctx : Ctx) (ds : DS) (raw : bool)
    (key : string) (items : list value) (st : St) (payloads : string) (e : error) :
  bulk_payloads key items "" = Done (inl payloads) ->
  (answer (bulk_call ctx raw payloads) (st_world st)).2 = Some e ->
  exists (err : option error) (st' : St),
    SendToElastic ctx ds raw key items st = (Done err, st')
    /\ st_calls st' = st_calls st ++ bulk_call ctx raw payloads
                        :: map (put_call ctx raw key) items
    /\ Forall (fun c => call_method c = Put /\ call_okStatuses c = {[ (200, 201)%Z ]})
              (map (put_call ctx raw key) items)
    /\ (forall item w,
          (answer (put_call ctx raw key item) w).2 = None
          <-> exists status body,
                (http_do (request_of (put_call ctx raw key item)) w).1
                  = Response status body
                /\ (200 <= status <= 201)%Z).
Proof.
  intros Hb He. eexists _, _. split; [|split; [|split]].
  - apply (SendToElastic_fallback_run ctx ds raw key items st payloads e Hb He).
  - reflexivity.
  - apply Forall_map, Forall_forall. intros item _. split; reflexivity.
  - apply put_call_success.
Qed.

(** C10. In the fallback the error that [SendToElastic] returns is the
    error of the call for the last item: nil when that call succeeds,
    whatever the calls for the items before it returned; and the lines
    printed are those of the bulk failure only. *)
Theorem SendToElastic_fallback_last_error (ctx : Ctx) (ds : DS) (raw : bool)
    (key : string) (front : list value) (lastItem : value) (st : St)
    (payloads : string) (e : error) :
  bulk_payloads key (front ++ [lastItem]) "" = Done (inl payloads) ->
  (answer (bulk_call ctx raw payloads) (st_world st)).2 = Some e ->
  let w1 := (http_do (request_of (bulk_call ctx raw payloads)) (st_world st)).2 in
  let lastErr := (answer (put_call ctx raw key lastItem)
                    (world_after (map (put_call ctx raw key) front) w1)).2 in
  let run := SendToElastic ctx ds raw key (front ++ [lastItem]) st in
  run.1 = Done lastErr
  /\ (lastErr = None -> run.1 = Done None)
  /\ st_log run.2 = st_log st ++ fallback_lines ctx ds (length (front ++ [lastItem])) e.
Proof.
  intros Hb He w1 lastErr run. subst run.
  rewrite (SendToElastic_fallback_run ctx ds raw key _ st payloads e Hb He).
  simpl. rewrite map_app. simpl. rewrite last_error_last. fold w1. fold lastErr.
  split; [reflexivity|]. split; [|reflexivity].
  intros ->. reflexivity.
Qed.
End SendToElasticProperties.

(** A batch of two documents: the bulk call and the call for the first
    document fail, the call for the second one succeeds. *)
Lemma SendToElastic_fallback_each_once_witness :
  let st := st0 [Response 500 "bulk failed"; Response 500 "shard failed";
                 Response 201 "created"] in
  exists (err : option error) (st' : @St scripted),
    @SendToElastic scripted json_sample ctx_sample ds_sample false "uuid"
      [doc "a"; doc "b"] st = (Done err, st')
    /\ length (st_calls st') = 3.
Proof.
  intros st.
  destruct (@SendToElastic_fallback_each_once scripted json_sample ctx_sample ds_sample
              false "uuid" [doc "a"; doc "b"] st
              _ (StatusError None 500) eq_refl eq_refl)
    as (err & st' & Hrun & Hcalls & _).
  exists err, st'. split; [exact Hrun|]. rewrite Hcalls. reflexivity.
Defined.

Lemma SendToElastic_fallback_last_error_witness :
  let st := st0 [Response 500 "bulk failed"; Response 500 "shard failed";
                 Response 201 "created"] in
  let run := @SendToElastic scripted json_sample ctx_sample ds_sample false "uuid"
               [doc "a"; doc "b"] st in
  (@answer scripted json_sample
     (@put_call json_sample ctx_sample false "uuid" (doc "a")) [Response 500 "shard failed"]).2
    = Some (StatusNotSuccess (Some (StatusError None 500)) 500)
  /\ run.1 = Done None
  /\ st_log run.2 = [LogBulkFailed "jira" 2].
Proof.
  intros st run. split; [vm_compute; reflexivity|].
  destruct (@SendToElastic_fallback_last_error scripted json_sample ctx_sample ds_sample
              false "uuid" [doc "a"] (doc "b") st
              _ (StatusError None 500) eq_refl eq_refl)
    as (_ & Hnil & Hlog).
  split; [apply Hnil; vm_compute; reflexivity|exact Hlog].
Defined.

(* ===================================================================== *)
(** ** Identifiers *)
(* ===================================================================== *)

Section IdentifierProperties.
Context `{Unicode}.

(** [UUIDNonEmpty] of [ds.go] stops the run on an empty argument. *)
Lemma UUIDNonEmpty_args_empty (args : list string) :
  In "" args ->
  forall arg, DsGo.UUIDNonEmpty_args arg args
              = Fatal "UUIDNonEmpty(%v) - empty argument(s) not allowed".
Proof.
  induction args as [|a rest IH]; intros Hin arg; [destruct Hin|].
  simpl. destruct (String.eqb a "") eqn:Ha; [reflexivity|].
  apply IH. destruct Hin as [Heq | Hin]; [|exact Hin].
  subst a. simpl in Ha. discriminate.
Qed.

Lemma DsGo_UUIDNonEmpty_empty_fatal (args : list string) :
  In "" args ->
  DsGo.UUIDNonEmpty args = Fatal "UUIDNonEmpty(%v) - empty argument(s) not allowed".
Proof.
  intros Hin. unfold DsGo.UUIDNonEmpty. rewrite UUIDNonEmpty_args_empty by exact Hin.
  reflexivity.
Qed.

(** So does [UUIDNonEmpty] of [uuid.go] when the key is not in the
    cache. *)
Lemma UuidGo_UUIDNonEmpty_miss_empty_fatal (cache : gmap string string)
    (args : list string) :
  cache !! Join args ":" = None -> In "" args ->
  UuidGo.UUIDNonEmpty cache args
  = (Fatal "UUIDNonEmpty(%v) - empty argument(s) not allowed", cache).
Proof.
  intros Hmiss Hin. unfold UuidGo.UUIDNonEmpty. rewrite Hmiss.
  rewrite UUIDNonEmpty_args_empty by exact Hin. reflexivity.
Qed.

(** A key that is in the cache is answered from the cache. *)
Lemma UuidGo_UUIDNonEmpty_hit (cache : gmap string string) (args : list string)
    (h : string) :
  cache !! Join args ":" = Some h ->
  UuidGo.UUIDNonEmpty cache args = (Done h, cache).
Proof. intros Hhit. unfold UuidGo.UUIDNonEmpty. rewrite Hhit. reflexivity. Qed.

(** After a call that returned [h], the key of its arguments is in the
    cache with [h]. *)
Lemma UuidGo_UUIDNonEmpty_cached (cache cache' : gmap string string)
    (args : list string) (h : string) :
  UuidGo.UUIDNonEmpty cache args = (Done h, cache') ->
  cache' !! Join args ":" = Some h.
Proof.
  unfold UuidGo.UUIDNonEmpty.
  destruct (cache !! Join args ":") as [h0|] eqn:Hk.
  - intros [= <- <-]. exact Hk.
  - destruct (DsGo.UUIDNonEmpty_args "" args); simpl; intros [= <- <-].
    apply lookup_insert_eq.
Qed.

Lemma string_app_assoc (a b c : string) : (a +:+ b) +:+ c = a +:+ (b +:+ c).
Proof.
  induction a as [|x a IH]; [reflexivity|].
  change (String x ((a +:+ b) +:+ c) = String x (a +:+ (b +:+ c))).
  f_equal. exact IH.
Qed.

Lemma string_app_nil_r (a : string) : a +:+ "" = a.
Proof.
  induction a as [|x a IH]; [reflexivity|].
  change (String x (a +:+ "") = String x a). f_equal. exact IH.
Qed.

Lemma string_app_nonempty (a b : string) : a <> "" -> a +:+ b <> "".
Proof. destruct a; [congruence|discriminate]. Qed.

Lemma eqb_empty (a : string) : String.eqb a "" = false <-> a <> "".
Proof. destruct a; simpl; split; congruence. Qed.

Lemma Join_merge (x s : string) (l : list string) :
  Join (((x +:+ ":") +:+ s) :: l) ":" = Join (x :: s :: l) ":".
Proof.
  destruct l as [|y l]; cbn [Join]; rewrite !string_app_assoc; reflexivity.
Qed.

Lemma UUIDNonEmpty_args_join (args : list string) :
  Forall (fun a => a <> "") args ->
  forall arg, arg <> "" ->
    DsGo.UUIDNonEmpty_args arg args = Done (Join (arg :: map stripF args) ":").
Proof.
  induction 1 as [|a rest Ha _ IH]; intros arg Harg; [reflexivity|].
  cbn [DsGo.UUIDNonEmpty_args map].
  apply eqb_empty in Ha, Harg. rewrite Ha, Harg. cbn [negb].
  rewrite IH.
  - rewrite Join_merge. reflexivity.
  - apply string_app_nonempty, string_app_nonempty, eqb_empty, Harg.
Qed.

(** When no argument is empty and the first one is not empty after
    [stripF] either, [UUIDNonEmpty] of [ds.go] is the SHA-1 of the
    stripped arguments joined with [:]. *)
Lemma DsGo_UUIDNonEmpty_hash (a : string) (rest : list string) :
  Forall (fun a => a <> "") (a :: rest) -> stripF a <> "" ->
  DsGo.UUIDNonEmpty (a :: rest) = Done (Sha1.hex (Join (map stripF (a :: rest)) ":")).
Proof.
  intros Hne Hs. inversion Hne as [|? ? Ha Hrest]; subst.
  unfold DsGo.UUIDNonEmpty. cbn [DsGo.UUIDNonEmpty_args].
  apply eqb_empty in Ha. rewrite Ha. cbn [String.eqb negb].
  rewrite UUIDNonEmpty_args_join; [reflexivity|exact Hrest|exact Hs].
Qed.


(** C2, at the failing input: after [UUIDNonEmpty] was called with
    [a:, b], the call with [a, (empty), b] returns a hash instead of
    stopping the run. *)
Theorem UUIDNonEmpty_cached_accepts_empty_argument :
  let cache1 := (UuidGo.UUIDNonEmpty ∅ ["a:"; "b"]).2 in
  In "" ["a"; ""; "b"]
  /\ UuidGo.UUIDNonEmpty cache1 ["a"; ""; "b"] = (Done (Sha1.hex "a::b"), cache1).
Proof.
  intros cache1. split; [right; left; reflexivity|].
  apply UuidGo_UUIDNonEmpty_hit. subst cache1.
  apply (UuidGo_UUIDNonEmpty_cached ∅ _ ["a:"; "b"]).
  unfold UuidGo.UUIDNonEmpty. rewrite lookup_empty. reflexivity.
Qed.

(** The separator is written only when the text built so far is not
    empty: a first argument that [stripF] empties leaves no [:] before
    the second one. *)
Lemma UUIDNonEmpty_separator_example :
  let args := [String (ascii_of_N 1) ""; "b"] in
  Join (map stripF args) ":" = ":b"
  /\ DsGo.UUIDNonEmpty args = Done (Sha1.hex "b")
  /\ Sha1.hex "b" <> Sha1.hex ":b".
Proof.
  split; [reflexivity|]. split; [reflexivity|].
  vm_compute. discriminate.
Qed.
End IdentifierProperties.

Section CaseProperties.
Context `{Unicode}.

Lemma app_cons (x : ascii) (a b : string) : String x a +:+ b = String x (a +:+ b).
Proof. reflexivity. Qed.

Lemma app_nil_l (b : string) : "" +:+ b = b.
Proof. reflexivity. Qed.

Lemma byte_val_bounded (c : ascii) : (byte_val c < 256)%N.
Proof. apply N_ascii_bounded. Qed.

Lemma byte_val_inj (c c' : ascii) : byte_val c = byte_val c' -> c = c'.
Proof.
  intros Hv. rewrite <- (ascii_N_embedding c), <- (ascii_N_embedding c').
  unfold byte_val in Hv. rewrite Hv. reflexivity.
Qed.

Lemma byte_val_lower (c : ascii) :
  byte_val (lower_byte c)
  = if ((65 <=? byte_val c) && (byte_val c <=? 90))%N then (byte_val c + 32)%N
    else byte_val c.
Proof.
  unfold lower_byte.
  destruct ((65 <=? byte_val c) && (byte_val c <=? 90))%N eqn:Hc; [|reflexivity].
  unfold byte_val at 1. apply N_ascii_embedding.
  apply andb_true_iff in Hc. destruct Hc as [_ Hc]. apply N.leb_le in Hc. lia.
Qed.

Lemma lower_byte_cases (c : ascii) :
  (byte_val (lower_byte c) = byte_val c /\ ~ (65 <= byte_val c <= 90)%N)
  \/ (byte_val (lower_byte c) = (byte_val c + 32)%N /\ (65 <= byte_val c <= 90)%N).
Proof.
  rewrite byte_val_lower.
  destruct (65 <=? byte_val c)%N eqn:H1, (byte_val c <=? 90)%N eqn:H2; simpl;
    try apply N.leb_le in H1; try apply N.leb_le in H2;
    try apply N.leb_gt in H1; try apply N.leb_gt in H2;
    [right|left|left|left]; split; try reflexivity; lia.
Qed.

Lemma lower_byte_is_ascii (c c' : ascii) :
  lower_byte c = lower_byte c' -> is_ascii_byte c = is_ascii_byte c'.
Proof.
  intros Hl. apply (f_equal byte_val) in Hl. unfold is_ascii_byte.
  destruct (lower_byte_cases c) as [[Hc Hr]|[Hc Hr]],
           (lower_byte_cases c') as [[Hc' Hr']|[Hc' Hr']];
    rewrite Hc, Hc' in Hl;
    destruct (byte_val c <? 128)%N eqn:Ha, (byte_val c' <? 128)%N eqn:Ha';
    try reflexivity;
    try apply N.ltb_lt in Ha; try apply N.ltb_lt in Ha';
    try apply N.ltb_ge in Ha; try apply N.ltb_ge in Ha'; lia.
Qed.

Lemma lower_byte_not_ascii (c c' : ascii) :
  is_ascii_byte c = false -> lower_byte c = lower_byte c' -> c = c'.
Proof.
  unfold is_ascii_byte. intros Ha Hl. apply N.ltb_ge in Ha.
  apply (f_equal byte_val) in Hl. apply byte_val_inj.
  destruct (lower_byte_cases c) as [[Hc Hr]|[Hc Hr]],
           (lower_byte_cases c') as [[Hc' Hr']|[Hc' Hr']];
    rewrite Hc, Hc' in Hl; lia.
Qed.

Lemma lower_byte_isOk (c c' : ascii) :
  lower_byte c = lower_byte c' -> isOk c = isOk c'.
Proof.
  intros Hl. apply (f_equal byte_val) in Hl. unfold isOk.
  destruct (lower_byte_cases c) as [[Hc Hr]|[Hc Hr]],
           (lower_byte_cases c') as [[Hc' Hr']|[Hc' Hr']];
    rewrite Hc, Hc' in Hl;
    destruct (byte_val c <? 32)%N eqn:H1, (127 <=? byte_val c)%N eqn:H2,
             (byte_val c' <? 32)%N eqn:H3, (127 <=? byte_val c')%N eqn:H4;
    try reflexivity;
    try apply N.ltb_lt in H1; try apply N.ltb_ge in H1;
    try apply N.leb_le in H2; try apply N.leb_gt in H2;
    try apply N.ltb_lt in H3; try apply N.ltb_ge in H3;
    try apply N.leb_le in H4; try apply N.leb_gt in H4; lia.
Qed.

Lemma fold_case_app (a b : string) : fold_case (a +:+ b) = fold_case a +:+ fold_case b.
Proof.
  induction a as [|x a IH]; [reflexivity|].
  rewrite app_cons. simpl fold_case. rewrite app_cons. f_equal. exact IH.
Qed.

Lemma case_variant_app (a a' b b' : string) :
  case_variant a a' -> case_variant b b' -> case_variant (a +:+ b) (a' +:+ b').
Proof.
  unfold case_variant. intros Ha Hb. rewrite !fold_case_app, Ha, Hb. reflexivity.
Qed.

Lemma case_variant_refl (a : string) : case_variant a a.
Proof. reflexivity. Qed.

Lemma case_variant_empty (a a' : string) :
  case_variant a a' -> String.eqb a "" = String.eqb a' "".
Proof. destruct a, a'; unfold case_variant; simpl; congruence. Qed.

(** [map_runs] sends case variants to case variants when [fa] does. *)
Lemma map_runs_case (fa : ascii -> string) (frun : string -> string) :
  (forall c c', lower_byte c = lower_byte c' -> case_variant (fa c) (fa c')) ->
  forall a a' run,
    case_variant a a' ->
    case_variant (map_runs fa frun run a) (map_runs fa frun run a').
Proof.
  intros Hfa. induction a as [|c t IH]; intros a' run Hv.
  - destruct a'; [reflexivity|discriminate].
  - destruct a' as [|c' t']; [discriminate|].
    unfold case_variant in Hv. simpl in Hv. injection Hv as Hc Ht.
    simpl. rewrite <- (lower_byte_is_ascii c c' Hc).
    destruct (is_ascii_byte c) eqn:Ha.
    + apply case_variant_app; [reflexivity|].
      apply case_variant_app; [apply Hfa, Hc|apply IH, Ht].
    + rewrite <- (lower_byte_not_ascii c c' Ha Hc). apply IH, Ht.
Qed.

Lemma NFKD_case (a a' : string) :
  case_variant a a' -> case_variant (NFKD a) (NFKD a').
Proof.
  apply map_runs_case. intros c c' Hc. unfold case_variant. simpl. rewrite Hc.
  reflexivity.
Qed.

Lemma RemoveFunc_case (a a' : string) :
  case_variant a a' -> case_variant (RemoveFunc isOk a) (RemoveFunc isOk a').
Proof.
  revert a'. induction a as [|c t IH]; intros a' Hv.
  - destruct a'; [reflexivity|discriminate].
  - destruct a' as [|c' t']; [discriminate|].
    unfold case_variant in Hv. simpl in Hv. injection Hv as Hc Ht.
    simpl. rewrite <- (lower_byte_isOk c c' Hc).
    destruct (isOk c); [apply IH, Ht|].
    unfold case_variant. simpl. rewrite Hc. f_equal. apply IH, Ht.
Qed.

Lemma stripF_case (a a' : string) :
  case_variant a a' -> case_variant (stripF a) (stripF a').
Proof. intros Hv. apply RemoveFunc_case, NFKD_case, Hv. Qed.

Lemma all_ascii_app (a b : string) :
  all_ascii (a +:+ b) = all_ascii a && all_ascii b.
Proof.
  induction a as [|x a IH]; [reflexivity|].
  rewrite app_cons. simpl. rewrite IH. rewrite andb_assoc. reflexivity.
Qed.

Lemma RemoveFunc_isOk_ascii (a : string) : all_ascii (RemoveFunc isOk a) = true.
Proof.
  induction a as [|c t IH]; [reflexivity|].
  simpl. destruct (isOk c) eqn:Hc; [exact IH|].
  simpl. rewrite IH, andb_true_r. unfold isOk in Hc. unfold is_ascii_byte.
  apply orb_false_iff in Hc. destruct Hc as [_ Hc].
  apply N.leb_gt in Hc. apply N.ltb_lt. lia.
Qed.

Lemma stripF_ascii (a : string) : all_ascii (stripF a) = true.
Proof. apply RemoveFunc_isOk_ascii. Qed.

(** On text below 128 [strings.ToLower] folds the case of the letters
    A to Z. *)
Lemma ToLower_ascii (s : string) : all_ascii s = true -> ToLower s = fold_case s.
Proof.
  unfold ToLower. induction s as [|c t IH]; intros Ha; [reflexivity|].
  simpl in Ha. apply andb_true_iff in Ha. destruct Ha as [Hc Ht].
  simpl. rewrite Hc. rewrite IH by exact Ht. reflexivity.
Qed.

(** The loop of [UUIDAffs] on case variants with the null sentinel at the
    same places: the same stop, or case variants below 128. *)
Lemma UUIDAffs_args_case (args args' : list string) :
  case_variants_nil args args' ->
  forall (i : nat) (arg arg' : string),
    case_variant arg arg' -> all_ascii arg = true -> all_ascii arg' = true ->
    match DsGo.UUIDAffs_args i arg args, DsGo.UUIDAffs_args i arg' args' with
    | Done r, Done r' => case_variant r r' /\ all_ascii r = true /\ all_ascii r' = true
    | Fatal m, Fatal m' => m = m'
    | _, _ => False
    end.
Proof.
  induction 1 as [|a a' rest rest' [Hv Hnil] _ IH]; intros i arg arg' Harg Hasc Hasc'.
  - simpl. auto.
  - simpl. rewrite <- (case_variant_empty a a' Hv).
    destruct (Nat.eqb i 0 && String.eqb a "")%bool; [reflexivity|].
    rewrite <- (case_variant_empty arg arg' Harg).
    assert (Hn : String.eqb a Nil = String.eqb a' Nil).
    { destruct (String.eqb a Nil) eqn:E, (String.eqb a' Nil) eqn:E'; try reflexivity.
      - apply String.eqb_eq in E. apply Hnil in E. apply String.eqb_neq in E'.
        contradiction.
      - apply String.eqb_eq in E'. apply Hnil in E'. apply String.eqb_neq in E.
        contradiction. }
    rewrite <- Hn.
    apply IH.
    + apply case_variant_app.
      * destruct (negb (String.eqb arg "")); [|exact Harg].
        apply case_variant_app; [exact Harg|reflexivity].
      * apply stripF_case. destruct (String.eqb a Nil); [reflexivity|exact Hv].
    + rewrite all_ascii_app, stripF_ascii, andb_true_r.
      destruct (negb (String.eqb arg "")); [|exact Hasc].
      rewrite all_ascii_app, Hasc. reflexivity.
    + rewrite all_ascii_app, stripF_ascii, andb_true_r.
      destruct (negb (String.eqb arg "")); [|exact Hasc'].
      rewrite all_ascii_app, Hasc'. reflexivity.
Qed.

(** [UUIDAffs] of [ds.go] does not tell case variants apart when the
    null sentinel stands at the same places. *)
Lemma DsGo_UUIDAffs_case (args args' : list string) :
  case_variants_nil args args' -> DsGo.UUIDAffs args = DsGo.UUIDAffs args'.
Proof.
  intros Hv. unfold DsGo.UUIDAffs.
  pose proof (UUIDAffs_args_case args args' Hv 0 "" "" eq_refl eq_refl eq_refl) as Hl.
  destruct (DsGo.UUIDAffs_args 0 "" args) as [r|m|m|],
           (DsGo.UUIDAffs_args 0 "" args') as [r'|m'|m'|]; try contradiction.
  - destruct Hl as (Hr & Ha & Ha'). simpl.
    rewrite (ToLower_ascii r Ha), (ToLower_ascii r' Ha'), Hr. reflexivity.
  - simpl. rewrite Hl. reflexivity.
Qed.

(** With a first argument that is not empty [UUIDAffs] returns. *)
Lemma UUIDAffs_args_done (args : list string) :
  forall (i : nat) (arg : string),
    (i = 0 -> hd "" args <> "") ->
    exists r, DsGo.UUIDAffs_args i arg args = Done r.
Proof.
  induction args as [|a rest IH]; intros i arg Hi; [eexists; reflexivity|].
  simpl. destruct (Nat.eqb i 0 && String.eqb a "")%bool eqn:Hc.
  - apply andb_true_iff in Hc. destruct Hc as [Hi0 Ha].
    apply Nat.eqb_eq in Hi0. apply String.eqb_eq in Ha.
    exfalso. apply (Hi Hi0). exact Ha.
  - apply IH. intros Hs. discriminate.
Qed.

Lemma UuidGo_UUIDAffs_hit (cache : gmap string string) (args : list string)
    (h : string) :
  cache !! Join args ":" = Some h -> UuidGo.UUIDAffs cache args = (Done h, cache).
Proof. intros Hhit. unfold UuidGo.UUIDAffs. rewrite Hhit. reflexivity. Qed.

Lemma UuidGo_UUIDAffs_miss (cache : gmap string string) (args : list string) :
  cache !! Join args ":" = None -> hd "" args <> "" ->
  exists h, DsGo.UUIDAffs args = Done h
            /\ UuidGo.UUIDAffs cache args = (Done h, <[ Join args ":" := h ]> cache).
Proof.
  intros Hmiss Hhd. unfold UuidGo.UUIDAffs, DsGo.UUIDAffs. rewrite Hmiss.
  destruct (UUIDAffs_args_done args 0 "" (fun _ => Hhd)) as [r ->].
  eexists. split; reflexivity.
Qed.

(** An entry of the cache is never replaced. *)
Lemma UuidGo_UUIDAffs_keeps (cache : gmap string string) (args : list string)
    (k h : string) :
  cache !! k = Some h -> (UuidGo.UUIDAffs cache args).2 !! k = Some h.
Proof.
  intros Hk. unfold UuidGo.UUIDAffs.
  destruct (cache !! Join args ":") as [h0|] eqn:Hj; [exact Hk|].
  destruct (DsGo.UUIDAffs_args 0 "" args); simpl; try exact Hk.
  rewrite lookup_insert_ne; [exact Hk|]. intros Heq. rewrite Heq in Hj. congruence.
Qed.

Lemma cache_after_keeps (calls : list (list string)) :
  forall (cache : gmap string string) (k h : string),
    cache !! k = Some h -> cache_after calls cache !! k = Some h.
Proof.
  induction calls as [|args rest IH]; intros cache k h Hk; [exact Hk|].
  simpl. apply IH, UuidGo_UUIDAffs_keeps, Hk.
Qed.

(** C3, as amended. For a tuple whose first argument is not empty:
    [UUIDAffs] returns a hash, and returns the same hash for the same
    tuple after any further calls; the function of [ds.go] gives the same
    hash for a tuple that differs in the case of ASCII letters only and
    has the null sentinel at the same places, and so does the function of
    [uuid.go] when the key of neither tuple is in the cache. *)
Theorem UUIDAffs_deterministic_case_invariant (args args' : list string) :
  hd "" args <> "" ->
  (forall (cache : gmap string string) (calls : list (list string)),
     exists h : string,
       (UuidGo.UUIDAffs cache args).1 = Done h
       /\ (UuidGo.UUIDAffs
             (cache_after calls (UuidGo.UUIDAffs cache args).2) args).1 = Done h)
  /\ (case_variants_nil args args' ->
      DsGo.UUIDAffs args = DsGo.UUIDAffs args'
      /\ forall cache : gmap string string,
           cache !! Join args ":" = None -> cache !! Join args' ":" = None ->
           (UuidGo.UUIDAffs (UuidGo.UUIDAffs cache args).2 args').1
           = (UuidGo.UUIDAffs cache args).1).
Proof.
  intros Hhd. split.
  - intros cache calls.
    assert (Hc : exists h, (UuidGo.UUIDAffs cache args).1 = Done h
                           /\ (UuidGo.UUIDAffs cache args).2 !! Join args ":" = Some h).
    { destruct (cache !! Join args ":") as [h0|] eqn:Hk.
      - exists h0. rewrite (UuidGo_UUIDAffs_hit _ _ _ Hk). split; [reflexivity|exact Hk].
      - destruct (UuidGo_UUIDAffs_miss cache args Hk Hhd) as (h & _ & ->).
        exists h. split; [reflexivity|apply lookup_insert_eq]. }
    destruct Hc as (h & Hdone & Hin). exists h. split; [exact Hdone|].
    rewrite (UuidGo_UUIDAffs_hit _ _ h); [reflexivity|].
    apply cache_after_keeps, Hin.
  - intros Hv. pose proof (DsGo_UUIDAffs_case args args' Hv) as Heq.
    split; [exact Heq|]. intros cache Hk Hk'.
    destruct (UuidGo_UUIDAffs_miss cache args Hk Hhd) as (h & Hh & ->). simpl.
    destruct (decide (Join args ":" = Join args' ":")) as [Hj|Hj].
    + rewrite (UuidGo_UUIDAffs_hit _ _ h); [reflexivity|].
      rewrite <- Hj. apply lookup_insert_eq.
    + assert (Hhd' : hd "" args' <> "").
      { destruct Hv as [|a a' rest rest' [Ha _] _]; [exact Hhd|]. simpl in *.
        intros ->. apply Hhd. destruct a; [reflexivity|discriminate]. }
      destruct (UuidGo_UUIDAffs_miss (<[ Join args ":" := h ]> cache) args')
        as (h' & Hh' & ->); [rewrite lookup_insert_ne; assumption|exact Hhd'|].
      simpl. rewrite <- Hh', <- Heq. exact Hh.
Qed.
End CaseProperties.

(** C3, as stated, fails on the null sentinel: [<nil>] becomes [None]
    before the case is folded, [<NIL>] does not. *)
Lemma UUIDAffs_case_counterexample :
  let args := ["x"; "<nil>"] in
  let args' := ["x"; "<NIL>"] in
  hd "" args <> ""
  /\ case_variants args args'
  /\ @DsGo.UUIDAffs Unicode_excerpt args = Done (Sha1.hex "x:none")
  /\ @DsGo.UUIDAffs Unicode_excerpt args' = Done (Sha1.hex "x:<nil>")
  /\ @DsGo.UUIDAffs Unicode_excerpt args <> @DsGo.UUIDAffs Unicode_excerpt args'
  /\ (@UuidGo.UUIDAffs Unicode_excerpt
        (@UuidGo.UUIDAffs Unicode_excerpt ∅ args).2 args').1
     <> (@UuidGo.UUIDAffs Unicode_excerpt ∅ args).1.
Proof.
  intros args args'.
  split; [discriminate|].
  split; [repeat constructor|].
  split; [reflexivity|]. split; [reflexivity|].
  split; vm_compute; discriminate.
Qed.

(** A tuple with a first argument in upper case, the null sentinel and a
    run above 127, and the same tuple in lower case. *)
Lemma UUIDAffs_deterministic_case_invariant_witness :
  let e_acute := String (ascii_of_N 195) (String (ascii_of_N 169) "") in
  let args := ["Jira"; "<nil>"; "Ren" +:+ e_acute] in
  let args' := ["jira"; "<nil>"; "ren" +:+ e_acute] in
  hd "" args <> ""
  /\ @DsGo.UUIDAffs Unicode_excerpt args = @DsGo.UUIDAffs Unicode_excerpt args'
  /\ @DsGo.UUIDAffs Unicode_excerpt args = Done (Sha1.hex "jira:none:rene").
Proof.
  intros e_acute args args'.
  assert (Hhd : hd "" args <> "") by discriminate.
  split; [exact Hhd|].
  split; [|reflexivity].
  apply (@UUIDAffs_deterministic_case_invariant Unicode_excerpt args args' Hhd).
  repeat (constructor;
          [split; [reflexivity|split; intros Hn; try discriminate Hn; reflexivity]|]).
  constructor.
Defined.

(* ===================================================================== *)
(** ** Checkpoints *)
(* ===================================================================== *)

Section CheckpointProperties.
Context `{Remote} `{Json} `{Helpers}.

Lemma ltb_irrefl (x : float) : PrimFloat.ltb x x = false.
Proof.
  rewrite FloatAxioms.ltb_spec. unfold SFltb.
  destruct (Prim2SF x) as [s|s| |s m e]; simpl; try reflexivity.
  - destruct s; reflexivity.
  - rewrite Z.compare_refl, Pos.compare_refl. destruct s; reflexivity.
Qed.

Lemma bind_Done {S A B} (c : M S A) (k : A -> M S B) (s s' : S) (a : A) :
  c s = (Done a, s') -> bind c k s = k a s'.
Proof. intros Hc. unfold bind. rewrite Hc. reflexivity. Qed.

Lemma bind_inv {S A B} (c : M S A) (k : A -> M S B) (s s'' : S) (b : B) :
  bind c k s = (Done b, s'') ->
  exists a s', c s = (Done a, s') /\ k a s' = (Done b, s'').
Proof.
  unfold bind. destruct (c s) as [[a|m|m|] s']; try discriminate.
  intros Hk. exists a, s'. split; [reflexivity|exact Hk].
Qed.

Lemma Printf_run (l : logline) (st : St) :
  Printf l st = (Done tt, {| st_world := st_world st; st_calls := st_calls st;
                             st_log := st_log st ++ [l] |}).
Proof. reflexivity. Qed.

(** The date block of [Enrich] after a detected raw start [d1]: it
    returns when [GetLastUpdate] does, with the date of the rich index
    brought down to [d1]. *)
Lemma Enrich_date_detected (ctx : Ctx) (ds : DS) (st st1 : St)
    (d1 : Time) (last : option Time) :
  SupportDateFrom ds = true -> DateFromDetected ctx = true -> DateFrom ctx = Some d1 ->
  GetLastUpdate ctx ds false st = (Done last, st1) ->
  exists st' : St,
    Enrich_date ctx ds st
    = (Done (set_DateFrom ctx (match last with
                               | Some d2 => if After d2 d1 then Some d1 else Some d2
                               | None => None
                               end)), st').
Proof.
  intros Hs Hd Hf Hg. unfold Enrich_date, bind. rewrite Hs, Hd, Hg, Hf.
  destruct last as [d2|]; unfold ret, Printf; simpl; eexists; reflexivity.
Qed.

Lemma Enrich_date_explicit (ctx : Ctx) (ds : DS) (st : St) :
  SupportDateFrom ds = true -> DateFromDetected ctx = false ->
  exists st' : St, Enrich_date ctx ds st = (Done (set_DateFrom ctx (DateFrom ctx)), st').
Proof.
  intros Hs Hd. unfold Enrich_date. rewrite Hs, Hd.
  unfold bind, ret, Printf; simpl. eexists; reflexivity.
Qed.

(** What the date block of [Enrich] leaves in [ctx] when it returns. *)
Lemma Enrich_date_Done (ctx ctx1 : Ctx) (ds : DS) (st st1 : St) :
  Enrich_date ctx ds st = (Done ctx1, st1) ->
  OffsetFrom ctx1 = OffsetFrom ctx
  /\ OffsetFromDetected ctx1 = OffsetFromDetected ctx
  /\ (SupportDateFrom ds = true -> DateFromDetected ctx = false ->
      DateFrom ctx1 = DateFrom ctx)
  /\ (SupportDateFrom ds = true -> DateFromDetected ctx = true ->
      exists (last : option Time) (s : St),
        GetLastUpdate ctx ds false st = (Done last, s)
        /\ match last with
           | None => DateFrom ctx1 = None
           | Some d2 => exists d1, DateFrom ctx = Some d1
                                   /\ DateFrom ctx1 = Some (if After d2 d1 then d1 else d2)
           end).
Proof.
  unfold Enrich_date, bind.
  destruct (SupportDateFrom ds).
  - destruct (DateFromDetected ctx).
    + destruct (GetLastUpdate ctx ds false st) as [[last| | |] s]; try discriminate.
      destruct last as [d2|].
      * destruct (DateFrom ctx) as [d1|] eqn:Hf; [|discriminate].
        unfold ret, Printf. simpl. intros [= <- _].
        repeat split; try discriminate.
        intros _ _. exists (Some d2), s. split; [reflexivity|].
        exists d1. split; [reflexivity|]. simpl. destruct (After d2 d1); reflexivity.
      * unfold ret, Printf. simpl. intros [= <- _].
        repeat split; try discriminate.
        intros _ _. exists None, s. split; reflexivity.
    + unfold ret, Printf. simpl. intros [= <- _].
      repeat split; try discriminate.
  - unfold ret. intros [= <- _]. repeat split; discriminate.
Qed.

(** What the offset block of [Enrich] leaves in [ctx] when it returns. *)
Lemma Enrich_offset_Done (ctx ctx1 : Ctx) (ds : DS) (st st1 : St) :
  Enrich_offset ctx ds st = (Done ctx1, st1) ->
  DateFrom ctx1 = DateFrom ctx
  /\ (SupportOffsetFrom ds = true -> OffsetFromDetected ctx = false ->
      ge0 (OffsetFrom ctx) = true -> OffsetFrom ctx1 = OffsetFrom ctx)
  /\ (SupportOffsetFrom ds = true -> OffsetFromDetected ctx = true ->
      exists (lastOffset : float) (s : St),
        GetLastOffset ctx ds false st = (Done lastOffset, s)
        /\ OffsetFrom ctx1
           = if ge0 lastOffset then
               if PrimFloat.ltb (OffsetFrom ctx) lastOffset then OffsetFrom ctx
               else lastOffset
             else (-1)%float).
Proof.
  unfold Enrich_offset, bind.
  destruct (SupportOffsetFrom ds).
  - destruct (OffsetFromDetected ctx).
    + destruct (GetLastOffset ctx ds false st) as [[lastOffset| | |] s]; try discriminate.
      unfold ret at 1.
      destruct (ge0 lastOffset) eqn:Hge;
        [destruct (PrimFloat.ltb (OffsetFrom ctx) lastOffset) eqn:Hlt|];
        unfold ret, Printf; simpl; intros [= <- _];
        (split; [reflexivity|]); (split; [intros _ Hd; discriminate Hd|]);
        intros _ _; exists lastOffset, s; (split; [reflexivity|]);
        rewrite Hge, ?Hlt; reflexivity.
    + unfold ret at 1. destruct (ge0 (OffsetFrom ctx)) eqn:Hge;
        unfold ret, Printf; simpl; intros [= <- _];
        (split; [reflexivity|]); (split; [|intros _ Hd; discriminate Hd]);
        intros _ _ Hg; try reflexivity; discriminate Hg.
  - unfold ret. intros [= <- _].
    split; [reflexivity|]. split; intros Hs; discriminate Hs.
Qed.

(** The raw pass marks a start date as detected only when it took it from
    the raw index, and then leaves it in [ctx.DateFrom]. *)
Lemma FetchRaw_start_detected_date (ctx ctx' : Ctx) (ds : DS) (st st' : St) :
  FetchRaw_start ctx ds st = (Done ctx', st') ->
  DateFromDetected ctx = false -> DateFromDetected ctx' = true ->
  DateFrom ctx = None
  /\ exists (d1 : Time) (s : St),
       GetLastUpdate ctx ds true st = (Done (Some d1), s) /\ DateFrom ctx' = Some d1.
Proof.
  unfold FetchRaw_start. intros Hrun Hd Hd'.
  apply bind_inv in Hrun. destruct Hrun as ([] & s1 & Hw1 & Hrun).
  apply bind_inv in Hrun. destruct Hrun as ([] & s2 & Hw2 & Hrun).
  apply bind_inv in Hrun. destruct Hrun as ([ctx1 lastUpdate] & s3 & Hdate & Hrun).
  apply bind_inv in Hrun. destruct Hrun as ([ctx2 offset] & s4 & Hoff & Hrun).
  apply bind_inv in Hrun. destruct Hrun as ([] & s5 & _ & Hrun).
  unfold ret in Hrun; cbv beta in Hrun. injection Hrun as <- _.
  assert (Hs1 : s1 = st).
  { unfold when, ret, fatal in Hw1.
    destruct (bool_decide (DateFrom ctx <> None) && ge0 (OffsetFrom ctx))%bool;
      [discriminate|].
    cbv beta in Hw1. congruence. }
  assert (Hs2 : s2 = st).
  { unfold when, ret, fatal in Hw2.
    destruct (bool_decide (DateTo ctx <> None) && ge0 (OffsetTo ctx))%bool;
      [discriminate|].
    cbv beta in Hw2. congruence. }
  subst s1 s2.
  assert (Hkeep : DateFrom ctx2 = DateFrom ctx1
                  /\ DateFromDetected ctx2 = DateFromDetected ctx1).
  { destruct (SupportOffsetFrom ds);
      [|unfold ret in Hoff; cbv beta in Hoff; injection Hoff as <- _; split; reflexivity].
    apply bind_inv in Hoff. destruct Hoff as (o & s & _ & Hoff).
    destruct o as [o|].
    - apply bind_inv in Hoff. destruct Hoff as ([] & s' & _ & Hoff).
      unfold ret in Hoff; cbv beta in Hoff. injection Hoff as <- _ _.
      destruct (PrimFloat.ltb (OffsetFrom ctx1) 0); split; reflexivity.
    - apply bind_inv in Hoff. destruct Hoff as ([] & s' & _ & Hoff).
      unfold ret in Hoff; cbv beta in Hoff. injection Hoff as <- _ _. split; reflexivity. }
  destruct Hkeep as [Hk1 Hk2]. rewrite Hk1. rewrite Hk2 in Hd'. clear Hk1 Hk2 Hoff.
  destruct (SupportDateFrom ds);
    [|unfold ret in Hdate; cbv beta in Hdate; injection Hdate as <- _; rewrite Hd in Hd'; discriminate].
  apply bind_inv in Hdate. destruct Hdate as (last & s & Hlast & Hdate).
  destruct last as [d|].
  - apply bind_inv in Hdate. destruct Hdate as ([] & s' & _ & Hdate).
    unfold ret in Hdate; cbv beta in Hdate. injection Hdate as <- _ _.
    destruct (DateFrom ctx) as [d0|] eqn:Hf.
    + rewrite bool_decide_eq_false_2 in Hd' by discriminate.
      simpl in Hd'. rewrite Hd in Hd'. discriminate.
    + split; [reflexivity|]. exists d, s. split; [exact Hlast|].
      destruct (bool_decide (@None Time = None)); reflexivity.
  - apply bind_inv in Hdate. destruct Hdate as ([] & s' & _ & Hdate).
    unfold ret in Hdate; cbv beta in Hdate. injection Hdate as <- _ _. rewrite Hd in Hd'. discriminate.
Qed.

(** C1. The start that [Enrich] resolves, when the blocks of [Enrich]
    that resolve it return. After a detected raw start it is never later
    than the raw start: a date [d2] of the rich index after the raw date
    [d1] gives [d1], an offset of the rich index above the raw offset gives
    the raw offset. A start given by the operator is kept as it is. *)
Theorem Enrich_start_never_exceeds_raw_start
    (ctx ctx1 ctx2 : Ctx) (ds : DS) (st st1 st2 : St) :
  Enrich_date ctx ds st = (Done ctx1, st1) ->
  Enrich_offset ctx1 ds st1 = (Done ctx2, st2) ->
  Enrich_start ctx ds st = (Done ctx2, st2)
  /\ (SupportDateFrom ds = true -> DateFromDetected ctx = true ->
      forall d1 : Time, DateFrom ctx = Some d1 ->
        (forall d : Time, DateFrom ctx2 = Some d -> (d <= d1)%Z)
        /\ (forall (d2 : Time) (s : St),
              GetLastUpdate ctx ds false st = (Done (Some d2), s) ->
              After d2 d1 = true -> DateFrom ctx2 = Some d1))
  /\ (SupportDateFrom ds = true -> DateFromDetected ctx = false ->
      DateFrom ctx2 = DateFrom ctx)
  /\ (SupportOffsetFrom ds = true -> OffsetFromDetected ctx = true ->
      (ge0 (OffsetFrom ctx2) = true ->
       PrimFloat.ltb (OffsetFrom ctx) (OffsetFrom ctx2) = false)
      /\ (forall (o2 : float) (s : St),
            GetLastOffset ctx1 ds false st1 = (Done o2, s) ->
            ge0 o2 = true -> PrimFloat.ltb (OffsetFrom ctx) o2 = true ->
            OffsetFrom ctx2 = OffsetFrom ctx))
  /\ (SupportOffsetFrom ds = true -> OffsetFromDetected ctx = false ->
      ge0 (OffsetFrom ctx) = true -> OffsetFrom ctx2 = OffsetFrom ctx).
Proof.
  intros Hdate Hoffset.
  destruct (Enrich_date_Done _ _ _ _ _ Hdate) as (Ho1 & Hod1 & Hexp & Hdet).
  destruct (Enrich_offset_Done _ _ _ _ _ Hoffset) as (Hd2 & Hoexp & Hodet).
  rewrite Ho1 in Hoexp, Hodet. rewrite Hod1 in Hoexp, Hodet.
  split; [unfold Enrich_start; rewrite (bind_Done _ _ _ _ _ Hdate); exact Hoffset|].
  split; [|split; [|split]].
  - intros Hs Hd d1 Hf. destruct (Hdet Hs Hd) as (last & s & Hg & Hlast). split.
    + intros d Hd2'. rewrite Hd2 in Hd2'. destruct last as [d2|].
      * destruct Hlast as (d1' & Hf' & Hr). rewrite Hf in Hf'. injection Hf' as <-.
        rewrite Hr in Hd2'. injection Hd2' as <-.
        unfold After. destruct (d1 <? d2)%Z eqn:Hlt; [lia|].
        apply Z.ltb_ge in Hlt. exact Hlt.
      * rewrite Hlast in Hd2'. discriminate.
    + intros d2 s' Hg' Haft. rewrite Hg in Hg'. injection Hg' as -> _.
      destruct Hlast as (d1' & Hf' & Hr). rewrite Hf in Hf'. injection Hf' as <-.
      rewrite Hd2, Hr, Haft. reflexivity.
  - intros Hs Hd. rewrite Hd2. apply Hexp; assumption.
  - intros Hs Hd. destruct (Hodet Hs Hd) as (lastOffset & s & Hg & Hr). split.
    + intros Hge. rewrite Hr in Hge |- *.
      destruct (ge0 lastOffset); [|discriminate Hge].
      destruct (PrimFloat.ltb (OffsetFrom ctx) lastOffset) eqn:Hlt;
        [apply ltb_irrefl|exact Hlt].
    + intros o2 s' Hg' Hge Hlt. rewrite Hg in Hg'. injection Hg' as -> _.
      rewrite Hr, Hge, Hlt. reflexivity.
  - intros Hs Hd Hge. apply Hoexp; assumption.
Qed.
End CheckpointProperties.

(** The raw pass detected the date 100, the rich index holds the later date
    200: the enrichment pass starts at 100. *)
Lemma Enrich_start_never_exceeds_raw_start_witness :
  let st := st0 [Response 200 "D2"] in
  exists (ctx2 : Ctx) (st2 : @St scripted),
    @Enrich_start scripted json_sample (helpers_sample true) ctx_detected_date ds_sample st
    = (Done ctx2, st2)
    /\ DateFrom ctx2 = Some 100%Z.
Proof.
  intros st.
  pose (r1 := @Enrich_date scripted json_sample (helpers_sample true)
                ctx_detected_date ds_sample st).
  pose (ctx1 := set_DateFrom ctx_detected_date (Some 100%Z)).
  assert (H1 : r1 = (Done ctx1, r1.2)) by (vm_compute; reflexivity).
  assert (H2 : @Enrich_offset scripted json_sample (helpers_sample true) ctx1 ds_sample r1.2
               = (Done ctx1, r1.2)) by reflexivity.
  destruct (@Enrich_start_never_exceeds_raw_start scripted json_sample (helpers_sample true)
              ctx_detected_date ctx1 ctx1 ds_sample st r1.2 r1.2 H1 H2)
    as (Hrun & Hdet & _).
  exists ctx1, r1.2. split; [exact Hrun|].
  apply (Hdet eq_refl eq_refl 100%Z eq_refl)
    with (d2 := 200%Z)
         (s := (@GetLastUpdate scripted json_sample (helpers_sample true)
                  ctx_detected_date ds_sample false st).2).
  - vm_compute. reflexivity.
  - reflexivity.
Defined.

(* ===================================================================== *)
(** ** [ForEachRawItem] *)
(* ===================================================================== *)

Section PagingProperties.
Context `{Remote} `{Json} `{Helpers}.

(** The deferred function frees the scroll when there is one, and does
    nothing else to the calls or to the variables. *)
Lemma free_scroll_run (ctx : Ctx) (f : Frame) (st : St) :
  exists st' : St,
    free_scroll ctx (f, st) = (Done tt, (f, st'))
    /\ st_calls st' = st_calls st ++ match scroll f with
                                     | Some s => [release_call ctx s]
                                     | None => []
                                     end.
Proof.
  unfold free_scroll, bind, get_frame. cbn [fst snd].
  destruct (scroll f) as [s|];
    [|exists st; split; [reflexivity|rewrite app_nil_r; reflexivity]].
  pose proof (Request_run (release_call ctx s) st) as Hr.
  cbn [release_call call_url call_method call_headers call_payload call_jsonStatuses
       call_errorStatuses call_okStatuses] in Hr.
  unfold liftSt at 1. cbn [fst snd]. rewrite Hr. cbn [fst snd].
  destruct (answer _ (st_world st)) as [[res status] [e|]];
    eexists; (split; [reflexivity|reflexivity]).
Qed.

Lemma received_500 (body : string) :
  received (Response 500 body) {[ (200, 200)%Z ]} ∅ {[ (200, 200)%Z; (500, 500)%Z ]}
  = (VBytes body, 500%Z, None).
Proof.
  unfold received.
  assert (Hj : in_ranges 500 {[ (200, 200)%Z ]} = false) by (vm_compute; reflexivity).
  assert (Hc : status_checks 500 ∅ {[ (200, 200)%Z; (500, 500)%Z ]} None = None)
    by (vm_compute; reflexivity).
  rewrite Hj, Hc. reflexivity.
Qed.

Lemma bind_Panic {S A B} (c : M S A) (k : A -> M S B) (s s' : S) (m : string) :
  c s = (Panic m, s') -> bind c k s = (Panic m, s').
Proof. intros Hc. unfold bind. rewrite Hc. reflexivity. Qed.

Lemma when_Printf_run (b : bool) (l : logline) (f : Frame) (st : St) :
  exists st1 : St,
    when b (liftSt (Printf l)) (f, st) = (Done tt, (f, st1))
    /\ st_world st1 = st_world st /\ st_calls st1 = st_calls st.
Proof.
  destruct b; simpl.
  - eexists. split; [reflexivity|]. split; reflexivity.
  - exists st. split; [reflexivity|]. split; reflexivity.
Qed.

Lemma liftSt_Request_run (c : Call) (f : Frame) (st : St) :
  liftSt (Request (call_url c) (call_method c) (call_headers c) (call_payload c)
            (call_jsonStatuses c) (call_errorStatuses c) (call_okStatuses c)) (f, st)
  = (Done (answer c (st_world st)),
     (f, {| st_world := (http_do (request_of c) (st_world st)).2;
            st_calls := st_calls st ++ [c]; st_log := st_log st |})).
Proof. unfold liftSt. cbn [fst snd]. rewrite Request_run. reflexivity. Qed.

Ltac open_iteration Hs f st ctx ds st1 Hr :=
  unfold iteration;
  rewrite (bind_Done _ _ _ _ _ (eq_refl : get_frame (f, st) = (Done f, (f, st))));
  cbv zeta; rewrite Hs; cbv beta iota;
  let Hw := fresh "Hw" in
  let Hw1 := fresh "Hw" in
  let Hc1 := fresh "Hw" in
  destruct (when_Printf_run (bool_decide (@None string = None) && (0 <? Debug ctx)%Z)
              (LogProcessingQuery (search_payload ctx ds)) f st)
    as (st1 & Hw & Hw1 & Hc1);
  rewrite (bind_Done _ _ _ _ _ Hw);
  pose proof (liftSt_Request_run (open_scroll_call ctx ds) f st1) as Hr;
  rewrite Hw1, Hc1 in Hr;
  erewrite bind_Done by exact Hr.

(** The first iteration when the search that opens the scroll is answered
    with the status 500 and the marker of too many scrolls: the line that
    reports the retry reads [res] as a map, and [res] holds the bytes of
    the body. *)
Lemma iteration_too_many_scrolls (ctx : Ctx) (ds : DS) (packSize : Z)
    (ufunct : ufunct_t) (uitems : uitems_t) (attemptAt : Time)
    (f : Frame) (st : St) (body : string) :
  scroll f = None ->
  (http_do (request_of (open_scroll_call ctx ds)) (st_world st)).1 = Response 500 body ->
  Contains body TooManyScrolls = true ->
  exists st' : St,
    iteration ctx ds packSize ufunct uitems attemptAt (f, st)
    = (Panic interface_conversion, (f, st'))
    /\ st_calls st' = st_calls st ++ [open_scroll_call ctx ds].
Proof.
  intros Hs Hdo Hmark.
  assert (Hans : answer (open_scroll_call ctx ds) (st_world st)
                 = (VBytes body, 500%Z, None)).
  { unfold answer. rewrite Hdo. apply received_500. }
  open_iteration Hs f st ctx ds st1 Hr. rewrite Hans. cbv beta iota.
  erewrite bind_Done by reflexivity.
  erewrite bind_Done by reflexivity.
  rewrite Hmark.
  erewrite bind_Done by reflexivity.
  erewrite bind_Done by reflexivity.
  erewrite bind_Panic by reflexivity.
  eexists. split; reflexivity.
Qed.

(** C6, at the failing input: when the search that opens the scroll is
    answered with the status 500 and the marker of too many scrolls,
    [ForEachRawItem] makes no second attempt: it panics in the line that
    reports the retry, whatever the time elapsed and the budget are. *)
Theorem ForEachRawItem_too_many_scrolls_panics (pages : nat) (ctx : Ctx) (ds : DS)
    (packSize : Z) (ufunct : ufunct_t) (uitems : uitems_t) (st : St) (text : string) :
  (http_do (request_of (open_scroll_call ctx ds)) (time_Now (st_world st)).2).1
    = Response 500 text ->
  Contains text TooManyScrolls = true ->
  exists st' : St,
    ForEachRawItem (S pages) ctx ds packSize ufunct uitems st
    = (Panic interface_conversion, st')
    /\ st_calls st' = st_calls st ++ [open_scroll_call ctx ds].
Proof.
  intros Hdo Hmark.
  set (f0 := {| scroll := None; docs := []; outDocs := []; total := 0 |}).
  set (stn := {| st_world := (time_Now (st_world st)).2; st_calls := st_calls st;
                 st_log := st_log st |}).
  destruct (iteration_too_many_scrolls ctx ds packSize ufunct uitems
              (time_Now (st_world st)).1 f0 stn text eq_refl Hdo Hmark)
    as (st' & Hit & Hcalls).
  assert (Hbody : (attemptAt <- liftWorld time_Now ;
                   body (S pages) ctx ds packSize ufunct uitems attemptAt) (f0, st)
                  = (Panic interface_conversion, (f0, st'))).
  { erewrite bind_Done by reflexivity. unfold body. cbn [paging].
    erewrite bind_Panic; [reflexivity|].
    erewrite bind_Panic; [reflexivity|]. exact Hit. }
  exists st'. split; [|exact Hcalls].
  unfold ForEachRawItem, ForEachRawItem_run, defer. fold f0. rewrite Hbody.
  reflexivity.
Qed.

Lemma received_200 (text : string) (v : value) :
  Unmarshal text = inl v ->
  received (Response 200 text) {[ (200, 200)%Z ]} ∅ {[ (200, 200)%Z; (500, 500)%Z ]}
  = (v, 200%Z, None).
Proof.
  intros Hu. unfold received.
  assert (Hj : in_ranges 200 {[ (200, 200)%Z ]} = true) by (vm_compute; reflexivity).
  assert (Hc : status_checks 200 ∅ {[ (200, 200)%Z; (500, 500)%Z ]} None = None)
    by (vm_compute; reflexivity).
  rewrite Hj, Hu, Hc. reflexivity.
Qed.

End PagingProperties.

(** The search that opens the scroll is answered with the status 500 and
    the marker: one call, then the panic. *)
Lemma ForEachRawItem_too_many_scrolls_panics_witness :
  let st := st0 [Response 500 "Trying to create too many scroll contexts, limit 500"] in
  exists st' : @St scripted,
    @ForEachRawItem scripted json_sample (helpers_sample true) 3 ctx_sample ds_sample 10
      ufunct_sample uitems_sample st
    = (Panic interface_conversion, st')
    /\ length (st_calls st') = 1.
Proof.
  intros st.
  destruct (@ForEachRawItem_too_many_scrolls_panics scripted json_sample
              (helpers_sample true) 2 ctx_sample ds_sample 10 ufunct_sample uitems_sample
              st "Trying to create too many scroll contexts, limit 500"
              eq_refl eq_refl)
    as (st' & Hrun & Hcalls).
  exists st'. split; [exact Hrun|]. rewrite Hcalls. reflexivity.
Defined.

(* ===================================================================== *)
(** ** The scroll of [ForEachRawItem] is freed, with workers or without *)
(* ===================================================================== *)

Section WorkersProperties.
Context `{Remote} `{Json} `{Helpers}.


Lemma quiet_panic {A} (m : string) : quiet (@panic Co A m).
Proof. intros s. repeat split. Qed.

Lemma quiet_fatal {A} (m : string) : quiet (@fatal Co A m).
Proof. intros s. repeat split. Qed.

Lemma quiet_blocked {A} : quiet (fun s : Co => (@Unfinished A, s)).
Proof. intros s. repeat split. Qed.











































End WorkersProperties.


(* ===================================================================== *)
(** ** Affiliations *)
(* ===================================================================== *)

Section AffiliationProperties.
Context `{Unicode} `{Helpers} `{IdentityDB}.

Lemma role_key_ne (role a b : string) : a <> b -> role +:+ a <> role +:+ b.
Proof. intros Hne Heq. apply Hne. apply (inj (String.app role)) in Heq. exact Heq. Qed.

Ltac role_lookup :=
  repeat (rewrite lookup_insert_ne by (apply role_key_ne; discriminate));
  first [apply lookup_insert_eq | rewrite lookup_insert_eq; reflexivity].

(** The fields of [EmptyAffsItem(role, undef)]. *)
Lemma EmptyAffsItem_fields (role : string) (undef : bool) :
  let emp := VString (if undef then "-- UNDEFINED --" else "") in
  let item := Affs.EmptyAffsItem role undef in
  item !! (role +:+ "_id") = Some emp
  /\ item !! (role +:+ "_uuid") = Some emp
  /\ item !! (role +:+ "_name") = Some emp
  /\ item !! (role +:+ "_user_name") = Some emp
  /\ item !! (role +:+ "_domain") = Some emp
  /\ item !! (role +:+ "_gender") = Some emp
  /\ item !! (role +:+ "_gender_acc") = Some VNil
  /\ item !! (role +:+ "_org_name") = Some emp
  /\ item !! (role +:+ "_bot") = Some (VBool false)
  /\ item !! (role +:+ MultiOrgNames) = Some (VSlice []).
Proof.
  intros emp item. subst emp item. unfold Affs.EmptyAffsItem, MultiOrgNames.
  repeat split; role_lookup.
Qed.

(** The fields of [EmptyAffsItem(role)] of [ds.go]. *)
Lemma DsGo_EmptyAffsItem_fields (role : string) :
  DsGoAffs.EmptyAffsItem role = Affs.EmptyAffsItem role false.
Proof. reflexivity. Qed.

(** An identity that is neither in the cache nor in the database has no
    id and no uuid. *)
Lemma AffsIdentityIDs_not_found (ds : DS) (identity : gmap string value)
    (c : Affs.Caches) :
  Name ds <> "" ->
  Affs.identityCache c = ∅ ->
  (forall id fields, FindObject "identities" "id" id fields = inl None) ->
  exists c1 : Affs.Caches,
    Affs.AffsIdentityIDs ds identity c = (Done (VNil, VNil), c1).
Proof.
  intros Hname Hcache Hdb. unfold Affs.AffsIdentityIDs.
  destruct (Affs.is_nil (at_key identity "email") && Affs.is_nil (at_key identity "name")
            && Affs.is_nil (at_key identity "username"))%bool; [eexists; reflexivity|].
  destruct (Affs.as_string (at_key identity "email")) as [sEmail okE].
  destruct (Affs.as_string (at_key identity "name")) as [sName okN].
  destruct (Affs.as_string (at_key identity "username")) as [sUsername okU].
  rewrite Hcache, lookup_empty.
  set (args := [Name ds; if okE then sEmail else Nil; if okN then sName else Nil;
                if okU then sUsername else Nil]).
  assert (Hdone : exists h uc, UuidGo.UUIDAffs (Affs.uuidsCacheAffs c) args = (Done h, uc)).
  { destruct (Affs.uuidsCacheAffs c !! Join args ":") as [h|] eqn:Hk.
    - exists h, (Affs.uuidsCacheAffs c). apply UuidGo_UUIDAffs_hit, Hk.
    - destruct (UuidGo_UUIDAffs_miss _ args Hk Hname) as (h & _ & Hrun).
      eexists _, _. exact Hrun. }
  destruct Hdone as (h & uc & ->). rewrite Hdb. eexists. reflexivity.
Qed.

(** C7, as amended. When the lookup of the identity of a role gives no
    uuid, [IdenityAffsData] returns [EmptyAffsItem(role, true)]: the ten
    fields of the role are there, the organization and the gender are the
    marker of an undefined value, the list of organizations is empty and
    the role is not a bot. In the version of [ds.go] the item is
    [EmptyAffsItem(role)], with empty strings. *)
Theorem IdenityAffsData_no_match (ds : DS) (identity : gmap string value) (dt : Time)
    (role : string) (c c1 : Affs.Caches) (id : value) :
  Affs.AffsIdentityIDs ds identity c = (Done (id, VNil), c1) ->
  let item := Affs.EmptyAffsItem role true in
  let item0 := DsGoAffs.IdenityAffsData identity dt role in
  Affs.IdenityAffsData ds identity dt role c = (Done item, c1)
  /\ Forall (fun suffix => is_Some (item !! (role +:+ suffix))) affs_suffixes
  /\ item !! (role +:+ "_org_name") = Some (VString "-- UNDEFINED --")
  /\ item !! (role +:+ MultiOrgNames) = Some (VSlice [])
  /\ item !! (role +:+ "_bot") = Some (VBool false)
  /\ item !! (role +:+ "_gender") = Some (VString "-- UNDEFINED --")
  /\ Forall (fun suffix => is_Some (item0 !! (role +:+ suffix))) affs_suffixes
  /\ item0 !! (role +:+ "_org_name") = Some (VString "")
  /\ item0 !! (role +:+ MultiOrgNames) = Some (VSlice [])
  /\ item0 !! (role +:+ "_bot") = Some (VBool false)
  /\ item0 !! (role +:+ "_gender") = Some (VString "").
Proof.
  intros Hids item item0.
  pose proof (EmptyAffsItem_fields role true) as Ht.
  pose proof (EmptyAffsItem_fields role false) as Hf.
  cbv zeta in Ht, Hf. fold item in Ht.
  change (Affs.EmptyAffsItem role false) with item0 in Hf.
  destruct Ht as (T1 & T2 & T3 & T4 & T5 & T6 & T7 & T8 & T9 & T10).
  destruct Hf as (F1 & F2 & F3 & F4 & F5 & F6 & F7 & F8 & F9 & F10).
  split.
  { unfold Affs.IdenityAffsData. rewrite (bind_Done _ _ _ _ _ Hids). reflexivity. }
  split.
  { unfold affs_suffixes. repeat (constructor; [eexists; eassumption|]). constructor. }
  split; [exact T8|]. split; [exact T10|]. split; [exact T9|]. split; [exact T6|].
  split.
  { unfold affs_suffixes. repeat (constructor; [eexists; eassumption|]). constructor. }
  split; [exact F8|]. split; [exact F10|]. split; [exact F9|exact F6].
Qed.
End AffiliationProperties.

(** C7, as stated, fails for the identity of the scenario and a database
    without a match: the organization and the gender of the role are
    [-- UNDEFINED --] and the list of organizations is empty, in the item
    of the role and in the rich document of the Jira connector; not
    [Unknown]. *)
Lemma IdenityAffsData_no_match_counterexample :
  let run := @Affs.IdenityAffsData Unicode_excerpt (helpers_sample true) empty_db
               ds_sample identity_sample 100%Z "reporter" no_caches in
  let items := @Affs.AffsItems Unicode_excerpt (helpers_sample true) empty_db
                 ds_sample raw_sample ["assignee"; "reporter"; "creator"] (VString "D1")
                 no_caches in
  exists (item affsItems : gmap string value),
    run.1 = Done item
    /\ item !! "reporter_org_name" = Some (VString "-- UNDEFINED --")
    /\ item !! "reporter_org_name" <> Some (VString Unknown)
    /\ item !! "reporter_multi_org_names" = Some (VSlice [])
    /\ item !! "reporter_multi_org_names" <> Some (VStrings [Unknown])
    /\ item !! "reporter_gender" = Some (VString "-- UNDEFINED --")
    /\ items.1 = Done (affsItems, None)
    /\ Affs.EnrichItem_affs ∅ affsItems "reporter" !! "reporter_org_name"
       = Some (VString "-- UNDEFINED --")
    /\ DsGoAffs.IdenityAffsData identity_sample 100%Z "reporter" !! "reporter_org_name"
       = Some (VString "").
Proof.
  intros run items. eexists _, _.
  split; [vm_compute; reflexivity|].
  split; [vm_compute; reflexivity|].
  split; [vm_compute; discriminate|].
  split; [vm_compute; reflexivity|].
  split; [vm_compute; discriminate|].
  split; [vm_compute; reflexivity|].
  split; [vm_compute; reflexivity|].
  split; vm_compute; reflexivity.
Qed.

(** The identity of the scenario, looked up in a database without rows. *)
Lemma IdenityAffsData_no_match_witness :
  exists c1 : Affs.Caches,
    @Affs.AffsIdentityIDs Unicode_excerpt empty_db ds_sample identity_sample no_caches
    = (Done (VNil, VNil), c1)
    /\ @Affs.IdenityAffsData Unicode_excerpt (helpers_sample true) empty_db
         ds_sample identity_sample 100%Z "reporter" no_caches
       = (Done (Affs.EmptyAffsItem "reporter" true), c1).
Proof.
  destruct (@AffsIdentityIDs_not_found Unicode_excerpt empty_db ds_sample identity_sample
              no_caches) as (c1 & Hids);
    [discriminate|reflexivity|reflexivity|].
  exists c1. split; [exact Hids|].
  apply (@IdenityAffsData_no_match Unicode_excerpt (helpers_sample true) empty_db
           ds_sample identity_sample 100%Z "reporter" no_caches c1 VNil Hids).
Defined.

(* ===================================================================== *)
(** ** The domain of an identity, paths, search fields *)
(* ===================================================================== *)

Lemma HasPrefix_cons (c p : ascii) (s prefix : string) :
  HasPrefix (String c s) (String p prefix)
  = if Ascii.eqb p c then HasPrefix s prefix else false.
Proof. reflexivity. Qed.

Lemma HasPrefix_empty (s : string) : HasPrefix s "" = true.
Proof. destruct s; reflexivity. Qed.

Lemma Split_lacks (sep : ascii) (s : string) :
  lacks sep s = true -> forall cur, Split s sep cur = [cur +:+ s].
Proof.
  induction s as [|c t IH]; intros Hl cur; simpl.
  - rewrite string_app_nil_r. reflexivity.
  - simpl in Hl. apply andb_true_iff in Hl as [Hc Ht].
    apply negb_true_iff in Hc. rewrite Hc, (IH Ht).
    rewrite string_app_assoc. reflexivity.
Qed.

Lemma Split_at (sep : ascii) (a b : string) :
  lacks sep a = true ->
  forall cur, Split (a +:+ String sep b) sep cur = (cur +:+ a) :: Split b sep "".
Proof.
  induction a as [|c t IH]; intros Hl cur; simpl.
  - rewrite Ascii.eqb_refl, string_app_nil_r. reflexivity.
  - simpl in Hl. apply andb_true_iff in Hl as [Hc Ht].
    apply negb_true_iff in Hc.
    change (String c t +:+ String sep b) with (String c (t +:+ String sep b)).
    simpl. rewrite Hc, (IH Ht). rewrite string_app_assoc. reflexivity.
Qed.

(** The domain of an identity is the text of its email between the first
    [@] and the next one (or the end); an email without [@], and an email
    that is not a string, give nil. *)
Theorem IdentityAffsDomain_email (identity : gmap string value) :
  (forall email, identity !! "email" = Some (VString email) ->
     lacks "@" email = true -> Affs.IdentityAffsDomain identity = VNil)
  /\ (forall loc dom rest,
        identity !! "email" = Some (VString (loc +:+ "@" +:+ dom +:+ rest)) ->
        lacks "@" loc = true -> lacks "@" dom = true ->
        rest = "" \/ HasPrefix rest "@" = true ->
        Affs.IdentityAffsDomain identity = VString dom)
  /\ (forall v, identity !! "email" = Some v -> (forall s, v <> VString s) ->
        Affs.IdentityAffsDomain identity = VNil)
  /\ (identity !! "email" = None -> Affs.IdentityAffsDomain identity = VNil).
Proof.
  unfold Affs.IdentityAffsDomain, at_key. split; [|split; [|split]].
  - intros email -> Hl. simpl. rewrite (Split_lacks _ _ Hl). reflexivity.
  - intros loc dom rest -> Hloc Hdom Hrest. simpl.
    change (loc +:+ "@" +:+ dom +:+ rest) with (loc +:+ String "@" (dom +:+ rest)).
    rewrite (Split_at _ _ _ Hloc).
    destruct Hrest as [-> | Hp].
    + rewrite string_app_nil_r, (Split_lacks _ _ Hdom). reflexivity.
    + destruct rest as [|c rest']; [discriminate Hp|].
      rewrite HasPrefix_cons in Hp.
      destruct (Ascii.eqb "@" c) eqn:Hc; [|discriminate Hp].
      apply Ascii.eqb_eq in Hc. subst c.
      rewrite (Split_at _ _ _ Hdom). reflexivity.
  - intros v -> Hv. simpl. destruct v; try reflexivity. exfalso. eapply Hv. reflexivity.
  - intros ->. reflexivity.
Qed.

Lemma IdentityAffsDomain_email_witness :
  Affs.IdentityAffsDomain (<[ "email" := VString "lg@example.org" ]> ∅)
  = VString "example.org".
Proof.
  apply (proj1 (proj2 (IdentityAffsDomain_email
                         (<[ "email" := VString "lg@example.org" ]> ∅)))
           "lg" "example.org" "");
    [reflexivity|reflexivity|reflexivity|left; reflexivity].
Defined.

Lemma Dig_keys_app (keys1 keys2 : list string) :
  keys1 <> [] -> keys2 <> [] ->
  forall item : gmap string value,
    Dig_keys item (keys1 ++ keys2)
    = match Dig_keys item keys1 with
      | (VMap m, true) => Dig_keys m keys2
      | _ => (VNil, false)
      end.
Proof.
  intros H1 H2. induction keys1 as [|k rest IH]; [congruence|]. intros item.
  destruct rest as [|k' rest'].
  - destruct keys2 as [|k2 rest2]; [congruence|]. simpl.
    destruct (item !! k) as [[]|]; reflexivity.
  - change ((k :: k' :: rest') ++ keys2) with (k :: (k' :: rest') ++ keys2).
    change (Dig_keys item (k :: (k' :: rest') ++ keys2))
      with (match item !! k with
            | Some (VMap item') => Dig_keys item' ((k' :: rest') ++ keys2)
            | _ => (VNil, false)
            end).
    change (Dig_keys item (k :: k' :: rest'))
      with (match item !! k with
            | Some (VMap item') => Dig_keys item' (k' :: rest')
            | _ => (VNil, false)
            end).
    destruct (item !! k) as [[]|]; try reflexivity.
    apply IH. discriminate.
Qed.

(** Digging along a path in two steps gives what digging along the whole
    path gives: [Dig(Dig(i, keys1), keys2)] is [Dig(i, keys1 ++ keys2)] for
    two paths that are not empty, when a miss is not fatal. *)
Theorem Dig_path_composes (iface : value) (keys1 keys2 : list string)
    (silent1 silent2 silent : bool) :
  keys1 <> [] -> keys2 <> [] ->
  Dig iface (keys1 ++ keys2) false silent
  = match Dig iface keys1 false silent1 with
    | Done (v, true) => Dig v keys2 false silent2
    | _ => Done (VNil, false)
    end.
Proof.
  intros H1 H2. unfold Dig. rewrite !andb_false_r.
  destruct iface; try reflexivity.
  rewrite (Dig_keys_app keys1 keys2 H1 H2).
  destruct (Dig_keys m keys1) as [v [|]]; [|destruct v; reflexivity].
  destruct v; try reflexivity.
  destruct (Dig_keys m0 keys2) as [v2 o2]. rewrite andb_false_r. reflexivity.
Qed.

Lemma Dig_path_composes_witness :
  Dig (VMap raw_sample) (["data"; "fields"] ++ ["reporter"]) false true
  = match Dig (VMap raw_sample) ["data"; "fields"] false false with
    | Done (v, true) => Dig v ["reporter"] false true
    | _ => Done (VNil, false)
    end.
Proof.
  apply (Dig_path_composes (VMap raw_sample) ["data"; "fields"] ["reporter"]
           false true true); discriminate.
Defined.

Lemma HasSuffix_slash (s : string) :
  HasSuffix s "/" = true -> s = bytes_to (String.length s - 1) s +:+ "/".
Proof.
  induction s as [|c t IH]; [discriminate|].
  destruct t as [|c' t'].
  - unfold HasSuffix. simpl. destruct (Ascii.eqb c "/") eqn:Hc; [|discriminate].
    apply Ascii.eqb_eq in Hc. subst c. reflexivity.
  - intros Hs.
    assert (Ht : HasSuffix (String c' t') "/" = true).
    { unfold HasSuffix in *. simpl in *. rewrite Nat.sub_0_r in *. exact Hs. }
    specialize (IH Ht). simpl in IH. rewrite Nat.sub_0_r in IH.
    simpl. rewrite IH at 1. reflexivity.
Qed.

(** [Validate] takes one [/] from the end of the URL of the connector, and
    accepts every URL but the empty one and the one that is just [/]. *)
Theorem Validate_url (j : Jira.DSJira) :
  Jira.URL j = Jira.URL (Jira.Validate j).1
                 +:+ (if HasSuffix (Jira.URL j) "/" then "/" else "")
  /\ ((Jira.Validate j).2 = None <-> Jira.URL j <> "" /\ Jira.URL j <> "/").
Proof.
  unfold Jira.Validate. cbn [fst snd Jira.URL].
  destruct (HasSuffix (Jira.URL j) "/") eqn:Hs.
  - pose proof (HasSuffix_slash _ Hs) as Heq. split; [exact Heq|].
    destruct (bytes_to (String.length (Jira.URL j) - 1) (Jira.URL j)) as [|c p] eqn:Hp.
    + simpl. rewrite Heq. split; [discriminate|]. intros [_ Hn]. contradiction Hn.
      reflexivity.
    + simpl. rewrite Heq. split; [|reflexivity]. intros _. split; [discriminate|].
      intros Hn. injection Hn as -> Hn. destruct p; discriminate.
  - split; [rewrite string_app_nil_r; reflexivity|].
    destruct (Jira.URL j) as [|c u] eqn:Hu.
    + simpl. split; [discriminate|]. intros [Hn _]. congruence.
    + simpl. split; [|reflexivity]. intros _. split; [discriminate|].
      intros Hn. rewrite Hn in Hs. discriminate.
Qed.

Lemma search_fields_fold (item : gmap string value) (uuid : string)
    (searchFields : gmap string (list string)) :
  let fields := map_fold (Jira.search_field item)
                  (<[ Jira.JiraDefaultSearchField := VString uuid ]> ∅) searchFields in
  searchFields !! Jira.JiraDefaultSearchField = None ->
  fields !! Jira.JiraDefaultSearchField = Some (VString uuid)
  /\ forall field, field <> Jira.JiraDefaultSearchField ->
       fields !! field
       = match searchFields !! field with
         | Some keyAry =>
             if (Dig_keys item keyAry).2 then Some (Dig_keys item keyAry).1 else None
         | None => None
         end.
Proof.
  cbv zeta.
  apply (map_fold_weak_ind
           (fun (fields : gmap string value) (m : gmap string (list string)) =>
              m !! Jira.JiraDefaultSearchField = None ->
              fields !! Jira.JiraDefaultSearchField = Some (VString uuid)
              /\ forall field, field <> Jira.JiraDefaultSearchField ->
                   fields !! field
                   = match m !! field with
                     | Some keyAry =>
                         if (Dig_keys item keyAry).2
                         then Some (Dig_keys item keyAry).1 else None
                     | None => None
                     end)).
  - intros _. split; [apply lookup_insert_eq|].
    intros field Hf. rewrite lookup_insert_ne by congruence.
    rewrite !lookup_empty. reflexivity.
  - intros i x m r Hi IH Hd.
    assert (Hne : i <> Jira.JiraDefaultSearchField).
    { intros ->. rewrite lookup_insert_eq in Hd. discriminate. }
    rewrite lookup_insert_ne in Hd by exact Hne.
    destruct (IH Hd) as [IH1 IH2]. unfold Jira.search_field.
    split.
    + destruct (Dig_keys item x).2; [rewrite lookup_insert_ne by exact Hne|]; exact IH1.
    + intros field Hf. destruct (decide (i = field)) as [->|Hif].
      * rewrite lookup_insert_eq.
        destruct (Dig_keys item x).2; [apply lookup_insert_eq|].
        rewrite (IH2 field Hf), Hi. reflexivity.
      * rewrite (lookup_insert_ne m) by exact Hif.
        destruct (Dig_keys item x).2; [rewrite lookup_insert_ne by exact Hif|];
          apply (IH2 field Hf).
Qed.

(** The search fields of an issue: [item_id] is the uuid; each of the
    fields [project_id], [project_key], [project_name] and [issue_key] is
    there exactly when its path is in the issue, with the value at the end
    of the path; there is no other field. *)
Theorem GenSearchFields_fields (issue : value) (uuid : string) :
  let item := match issue with VMap m => m | _ => ∅ end in
  let fields := Jira.GenSearchFields issue uuid in
  fields !! "item_id" = Some (VString uuid)
  /\ (forall field keyAry,
        Jira.JiraSearchFields !! field = Some keyAry ->
        fields !! field
        = if (Dig_keys item keyAry).2 then Some (Dig_keys item keyAry).1 else None)
  /\ (forall field, field <> "item_id" -> Jira.JiraSearchFields !! field = None ->
        fields !! field = None).
Proof.
  intros item fields.
  destruct (search_fields_fold item uuid Jira.SearchFields eq_refl) as [H1 H2].
  split; [exact H1|]. split.
  - intros field keyAry Hf.
    assert (Hne : field <> Jira.JiraDefaultSearchField).
    { intros ->. discriminate Hf. }
    unfold fields, Jira.GenSearchFields. fold item.
    rewrite (H2 field Hne). unfold Jira.SearchFields. rewrite Hf. reflexivity.
  - intros field Hne Hf. unfold fields, Jira.GenSearchFields. fold item.
    rewrite (H2 field Hne). unfold Jira.SearchFields. rewrite Hf. reflexivity.
Qed.

(* ===================================================================== *)
(** ** [PartitionString] and the fields of a sprint *)
(* ===================================================================== *)

Lemma HasPrefix_split (sep s : string) :
  HasPrefix s sep = true -> s = sep +:+ bytes_from (String.length sep) s.
Proof.
  revert s. induction sep as [|p sep IH]; intros s Hp; [destruct s; reflexivity|].
  destruct s as [|c s]; [discriminate Hp|].
  rewrite HasPrefix_cons in Hp. destruct (Ascii.eqb p c) eqn:Hc; [|discriminate Hp].
  apply Ascii.eqb_eq in Hc. subst c.
  change (String p s = String p (sep +:+ bytes_from (String.length sep) s)).
  f_equal. apply IH, Hp.
Qed.

Lemma HasPrefix_app (sep a b : string) :
  HasPrefix a sep = true -> HasPrefix (a +:+ b) sep = true.
Proof.
  revert a. induction sep as [|p sep IH]; intros a Hp; [apply HasPrefix_empty|].
  destruct a as [|c a]; [discriminate Hp|].
  rewrite HasPrefix_cons in Hp. rewrite app_cons, HasPrefix_cons.
  destruct (Ascii.eqb p c); [apply IH, Hp|discriminate Hp].
Qed.

Lemma Contains_cons (c : ascii) (s sep : string) :
  Contains (String c s) sep
  = if HasPrefix (String c s) sep then true else Contains s sep.
Proof. reflexivity. Qed.

(** What [cut] gives: the two parts around the first occurrence. *)
Lemma cut_spec (sep s : string) :
  forall pre,
    match cut s sep pre with
    | Some (a, b) =>
        exists p0, a = pre +:+ p0 /\ s = p0 +:+ sep +:+ b
                   /\ Contains p0 sep = false /\ Contains s sep = true
    | None => Contains s sep = false
    end \/ sep = "".
Proof.
  destruct sep as [|p sep]; [right; reflexivity|]. intros pre. left. revert pre.
  induction s as [|c s IH]; intros pre.
  - reflexivity.
  - change (cut (String c s) (String p sep) pre)
      with (if HasPrefix (String c s) (String p sep)
            then Some (pre, bytes_from (String.length (String p sep)) (String c s))
            else cut s (String p sep) (pre +:+ String c EmptyString)).
    rewrite Contains_cons.
    destruct (HasPrefix (String c s) (String p sep)) eqn:Hp.
    + exists "". rewrite string_app_nil_r, app_nil_l.
      split; [reflexivity|]. split; [apply HasPrefix_split, Hp|]. split; reflexivity.
    + specialize (IH (pre +:+ String c EmptyString)).
      destruct (cut s (String p sep) (pre +:+ String c EmptyString)) as [[a b]|];
        [|exact IH].
      destruct IH as (p0 & -> & Hs & Hn & Hc). exists (String c p0).
      split; [rewrite string_app_assoc; reflexivity|].
      split; [rewrite app_cons; f_equal; exact Hs|]. split; [|exact Hc].
      rewrite Contains_cons, Hn.
      destruct (HasPrefix (String c p0) (String p sep)) eqn:Hp0; [|reflexivity].
      rewrite Hs, <- app_cons, (HasPrefix_app _ _ _ Hp0) in Hp. discriminate Hp.
Qed.

Section PartitionProperties.
Context `{Runes}.

(** For a separator that is not empty, [PartitionString] returns three
    parts that make up the text again; the first part has no occurrence of
    the separator; the second part is the separator when the text has an
    occurrence, and otherwise the second and third parts are empty. *)
Theorem PartitionString_parts (s sep : string) :
  sep <> "" ->
  exists p0 p1 p2 : string,
    PartitionString s sep = Done (p0, p1, p2)
    /\ p0 +:+ p1 +:+ p2 = s
    /\ Contains p0 sep = false
    /\ (if Contains s sep then p1 = sep else p1 = "" /\ p2 = "").
Proof.
  intros Hne. unfold PartitionString, SplitN2.
  apply eqb_empty in Hne as Hb. rewrite Hb.
  destruct (cut_spec sep s "") as [Hc | Hc]; [|contradiction].
  destruct (cut s sep "") as [[a b]|].
  - destruct Hc as (p0 & -> & Hs & Hn & Hy). rewrite app_nil_l.
    exists p0, sep, b. rewrite Hy.
    split; [reflexivity|]. split; [symmetry; exact Hs|]. split; [exact Hn|reflexivity].
  - exists s, "", "". rewrite !string_app_nil_r.
    split; [reflexivity|]. split; [reflexivity|]. split; [exact Hc|].
    rewrite Hc. split; reflexivity.
Qed.
End PartitionProperties.

Lemma PartitionString_parts_witness :
  @PartitionString runes_sample "id=7,name=S1,goal=" ",name="
  = Done ("id=7", ",name=", "S1,goal=").
Proof.
  destruct (@PartitionString_parts runes_sample "id=7,name=S1,goal=" ",name=")
    as (p0 & p1 & p2 & Hp & _); [discriminate|].
  rewrite Hp. vm_compute in Hp. injection Hp as <- <- <-. reflexivity.
Defined.

Section SprintProperties.
Context `{Runes}.

Lemma HasPrefix_lacks (c0 : ascii) (b pat a : string) :
  lacks c0 pat = true ->
  HasPrefix (a +:+ String c0 b) pat = true -> HasPrefix a pat = true.
Proof.
  revert a. induction pat as [|p pat IH]; intros a Hl Hp; [apply HasPrefix_empty|].
  simpl in Hl. apply andb_true_iff in Hl as [Hc Hl]. apply negb_true_iff in Hc.
  destruct a as [|x a].
  - rewrite app_nil_l, HasPrefix_cons, Hc in Hp. discriminate Hp.
  - rewrite app_cons, HasPrefix_cons in Hp. rewrite HasPrefix_cons.
    destruct (Ascii.eqb p x); [apply IH; assumption|discriminate Hp].
Qed.

(** For a separator whose first byte is none of its other bytes, the first
    occurrence in [pre ++ sep ++ post] is the one after [pre] when [pre] has
    none. *)
Lemma cut_first (c0 : ascii) (tl pre post : string) :
  lacks c0 tl = true -> Contains pre (String c0 tl) = false ->
  forall acc,
    cut (pre +:+ String c0 tl +:+ post) (String c0 tl) acc = Some (acc +:+ pre, post).
Proof.
  intros Hl. induction pre as [|x pre IH]; intros Hn acc.
  - rewrite app_nil_l, string_app_nil_r.
    assert (Hp : HasPrefix (String c0 tl +:+ post) (String c0 tl) = true).
    { apply HasPrefix_app. clear. induction (String c0 tl) as [|p s IH]; [reflexivity|].
      rewrite HasPrefix_cons, Ascii.eqb_refl. exact IH. }
    destruct (String c0 tl +:+ post) as [|y rest] eqn:Hs; [discriminate Hs|].
    change (cut (String y rest) (String c0 tl) acc)
      with (if HasPrefix (String y rest) (String c0 tl)
            then Some (acc, bytes_from (String.length (String c0 tl)) (String y rest))
            else cut rest (String c0 tl) (acc +:+ String y EmptyString)).
    rewrite Hp. f_equal. f_equal. rewrite <- Hs. clear.
    induction (String c0 tl) as [|p s IH]; [reflexivity|exact IH].
  - rewrite Contains_cons in Hn.
    destruct (HasPrefix (String x pre) (String c0 tl)) eqn:Hp; [discriminate Hn|].
    rewrite app_cons.
    change (cut (String x (pre +:+ String c0 tl +:+ post)) (String c0 tl) acc)
      with (if HasPrefix (String x (pre +:+ String c0 tl +:+ post)) (String c0 tl)
            then Some (acc, bytes_from (String.length (String c0 tl))
                              (String x (pre +:+ String c0 tl +:+ post)))
            else cut (pre +:+ String c0 tl +:+ post) (String c0 tl)
                   (acc +:+ String x EmptyString)).
    destruct (HasPrefix (String x (pre +:+ String c0 tl +:+ post)) (String c0 tl))
      eqn:Hp'.
    + exfalso. rewrite HasPrefix_cons in Hp, Hp'.
      destruct (Ascii.eqb c0 x); [|discriminate Hp'].
      rewrite (HasPrefix_lacks c0 (tl +:+ post) tl pre Hl Hp') in Hp. discriminate Hp.
    + rewrite (IH Hn), string_app_assoc. reflexivity.
Qed.

(** The value of an attribute [,key=value,] of the text of a sprint, and
    the empty text when the attribute is not there. *)
Lemma sprint_attr_value (tl s : string) :
  lacks "," tl = true ->
  (forall pre v rest,
     s = pre +:+ String "," tl +:+ v +:+ rest ->
     Contains pre (String "," tl) = false -> lacks "," v = true ->
     rest = "" \/ HasPrefix rest "," = true ->
     sprint_attr s (String "," tl) = Done v)
  /\ (Contains s (String "," tl) = false -> sprint_attr s (String "," tl) = Done "")
  /\ exists v, sprint_attr s (String "," tl) = Done v.
Proof.
  intros Hl. unfold sprint_attr, PartitionString, SplitN2.
  change (String "," tl =? "") with false. cbv iota.
  split; [|split].
  - intros pre v rest -> Hn Hv Hrest.
    rewrite (cut_first "," tl pre (v +:+ rest) Hl Hn ""). cbn [outcome_map snd].
    destruct Hrest as [-> | Hp].
    + rewrite string_app_nil_r, (Split_lacks _ _ Hv). reflexivity.
    + destruct rest as [|c rest]; [discriminate Hp|]. rewrite HasPrefix_cons in Hp.
      destruct (Ascii.eqb "," c) eqn:Hc; [|discriminate Hp].
      apply Ascii.eqb_eq in Hc. subst c. rewrite (Split_at _ _ _ Hv). reflexivity.
  - intros Hn. destruct (cut_spec (String "," tl) s "") as [Hc | Hc]; [|discriminate Hc].
    destruct (cut s (String "," tl) "") as [[a b]|].
    + destruct Hc as (p0 & _ & _ & _ & Hy). congruence.
    + reflexivity.
  - destruct (cut s (String "," tl) "") as [[a b]|]; eexists; reflexivity.
Qed.

(** The text of a sprint of Jira is a list of attributes [key=value]
    separated by commas. [EnrichItem] reads the name of the sprint from the
    first attribute [,name=]: the text after it up to the next comma. A
    text without this attribute gives the empty name. *)
Theorem EnrichItem_sprint_name (s : string) (rich : gmap string value) :
  exists rich' : gmap string value,
    EnrichItem_sprint s rich = Done rich'
    /\ (forall pre v rest,
          s = pre +:+ ",name=" +:+ v +:+ rest ->
          Contains pre ",name=" = false -> lacks "," v = true ->
          rest = "" \/ HasPrefix rest "," = true ->
          rich' !! "sprint" = Some (VString v))
    /\ (Contains s ",name=" = false -> rich' !! "sprint" = Some (VString "")).
Proof.
  destruct (sprint_attr_value "name=" s eq_refl) as (Hv & Hnone & (v1 & H1)).
  destruct (sprint_attr_value "startDate=" s eq_refl) as (_ & _ & (v2 & H2)).
  destruct (sprint_attr_value "endDate=" s eq_refl) as (_ & _ & (v3 & H3)).
  destruct (sprint_attr_value "completeDate=" s eq_refl) as (_ & _ & (v4 & H4)).
  unfold EnrichItem_sprint.
  change ",name=" with (String "," "name=") at 1.
  change ",startDate=" with (String "," "startDate=").
  change ",endDate=" with (String "," "endDate=").
  change ",completeDate=" with (String "," "completeDate=").
  rewrite H1, H2, H3, H4. eexists. split; [reflexivity|].
  assert (Hl : forall w,
             (<[ "sprint_complete" := VString v4 ]> (
              <[ "sprint_end" := VString v3 ]> (
              <[ "sprint_start" := VString v2 ]> (
              <[ "sprint" := VString w ]> rich)))) !! "sprint" = Some (VString w)).
  { intros w. rewrite !lookup_insert_ne by discriminate. apply lookup_insert_eq. }
  split.
  - intros pre v rest Hs Hn Hlv Hrest.
    rewrite (Hv pre v rest Hs Hn Hlv Hrest) in H1. injection H1 as <-. apply Hl.
  - intros Hn. rewrite (Hnone Hn) in H1. injection H1 as <-. apply Hl.
Qed.
End SprintProperties.

Lemma EnrichItem_sprint_name_witness :
  exists rich' : gmap string value,
    @EnrichItem_sprint runes_sample
      "Sprint@1f[id=7,state=CLOSED,name=Sprint 1,startDate=2020-01-02,endDate=<null>]" ∅
    = Done rich'
    /\ rich' !! "sprint" = Some (VString "Sprint 1").
Proof.
  destruct (@EnrichItem_sprint_name runes_sample
              "Sprint@1f[id=7,state=CLOSED,name=Sprint 1,startDate=2020-01-02,endDate=<null>]"
              ∅) as (rich' & Hrun & Hname & _).
  exists rich'. split; [exact Hrun|].
  apply (Hname "Sprint@1f[id=7,state=CLOSED" "Sprint 1"
           ",startDate=2020-01-02,endDate=<null>]");
    [reflexivity|reflexivity|reflexivity|right; reflexivity].
Defined.

(* ===================================================================== *)
(** ** More on [Request], [HandleMapping] and [SendToElastic] *)
(* ===================================================================== *)

Section TransportProperties.
Context `{Remote} `{Json}.

Lemma status_checks_None (status : Z) (es oks : gset (Z * Z)) (err : option error) :
  status_checks status es oks err = None ->
  err = None /\ in_ranges status es = false
  /\ (oks <> ∅ -> in_ranges status oks = true).
Proof.
  unfold status_checks. destruct (in_ranges status es) eqn:He.
  - destruct (0 <? size oks)%nat; [destruct (negb _)|]; discriminate.
  - destruct (0 <? size oks)%nat eqn:Hs.
    + destruct (in_ranges status oks) eqn:Ho; simpl; [|discriminate].
      intros ->. repeat split.
    + intros ->. split; [reflexivity|]. split; [reflexivity|]. intros Hne.
      exfalso. apply Hne. apply Nat.ltb_ge in Hs.
      apply leibniz_equiv, size_empty_iff. lia.
Qed.

(** A nil error of [Request] means that the endpoint answered, with a
    status in no error range and, when there are success ranges, in one of
    them; and the result is the decoded body for a status in a JSON range,
    the bytes of the body otherwise. *)
Theorem Request_nil_error
    (url method : string) (headers : gmap string string) (payload : string)
    (jsonStatuses errorStatuses okStatuses : gset (Z * Z))
    (st : St) (result : value) (status : Z) :
  (Request url method headers payload jsonStatuses errorStatuses okStatuses st).1
    = Done (result, status, None) ->
  exists body : string,
    (http_do {| http_method := method; http_url := url; http_headers := headers;
                http_payload := payload |} (st_world st)).1 = Response status body
    /\ ~ in_some_range status errorStatuses
    /\ (okStatuses <> ∅ -> in_some_range status okStatuses)
    /\ (in_some_range status jsonStatuses -> Unmarshal body = inl result)
    /\ (~ in_some_range status jsonStatuses -> result = VBytes body).
Proof.
  unfold Request. cbn [fst]. unfold received.
  destruct (http_do _ (st_world st)).1 as [c|c|c|status' body]; try discriminate.
  destruct (in_ranges status' jsonStatuses) eqn:Hj.
  - destruct (Unmarshal body) as [v|c] eqn:Hu; [|discriminate].
    intros [= -> -> Hc]. apply status_checks_None in Hc as (_ & He & Ho).
    exists body. split; [reflexivity|]. split.
    { intros Hin. apply in_ranges_spec in Hin. congruence. }
    split; [intros Hne; apply in_ranges_spec, Ho, Hne|].
    split; [intros _; exact Hu|].
    intros Hn. exfalso. apply Hn, in_ranges_spec, Hj.
  - intros [= <- -> Hc]. apply status_checks_None in Hc as (_ & He & Ho).
    exists body. split; [reflexivity|]. split.
    { intros Hin. apply in_ranges_spec in Hin. congruence. }
    split; [intros Hne; apply in_ranges_spec, Ho, Hne|].
    split; [|intros _; reflexivity].
    intros Hin. apply in_ranges_spec in Hin. congruence.
Qed.


Lemma in_ranges_singleton (status lo hi : Z) :
  in_ranges status {[ (lo, hi) ]} = ((lo <=? status)%Z && (status <=? hi)%Z)%bool.
Proof.
  unfold in_ranges. rewrite elements_singleton. simpl. apply orb_false_r.
Qed.

(** The answer to a call without JSON ranges. *)
Lemma answer_bytes (c : Call) (w : world) :
  call_jsonStatuses c = ∅ ->
  answer c w
  = match (http_do (request_of c) w).1 with
    | NewRequestFails m => (VNil, 0%Z, Some (NewRequestError m))
    | DoFails m => (VNil, 0%Z, Some (DoRequestError m))
    | ReadAllFails m => (VNil, 0%Z, Some (ReadBodyError m))
    | Response status body =>
        (VBytes body, status,
         status_checks status (call_errorStatuses c) (call_okStatuses c) None)
    end.
Proof.
  intros Hj. unfold answer, received. rewrite Hj.
  destruct (http_do (request_of c) w).1; reflexivity.
Qed.

Lemma status_checks_error_only (status lo hi : Z) :
  status_checks status {[ (lo, hi) ]} ∅ None
  = if ((lo <=? status)%Z && (status <=? hi)%Z)%bool
    then Some (StatusError None status) else None.
Proof.
  unfold status_checks. rewrite in_ranges_singleton, size_empty.
  destruct (_ && _)%bool; reflexivity.
Qed.

Lemma status_checks_ok_only (status lo hi : Z) :
  status_checks status ∅ {[ (lo, hi) ]} None
  = if ((lo <=? status)%Z && (status <=? hi)%Z)%bool
    then None else Some (StatusNotSuccess None status).
Proof.
  unfold status_checks. rewrite in_ranges_empty, in_ranges_singleton, size_singleton.
  destruct (_ && _)%bool; reflexivity.
Qed.
End TransportProperties.

Lemma Request_nil_error_witness :
  exists body : string,
    (@http_do scripted {| http_method := Put; http_url := "http://es:9200/proj";
                          http_headers := ∅; http_payload := "" |}
       [Response 400 "exists"]).1 = Response 400 body.
Proof.
  assert (Hrun : (@Request scripted json_sample "http://es:9200/proj" Put ∅ ""
                    ∅ {[ (401, 599)%Z ]} ∅ (st0 [Response 400 "exists"])).1
                 = Done (VBytes "exists", 400%Z, None)).
  { unfold Request. cbn [fst]. unfold received. cbn [http_do scripted st0 st_world fst].
    rewrite in_ranges_empty, status_checks_error_only. reflexivity. }
  destruct (@Request_nil_error scripted json_sample "http://es:9200/proj" Put ∅ ""
              ∅ {[ (401, 599)%Z ]} ∅ (st0 [Response 400 "exists"])
              (VBytes "exists") 400%Z Hrun) as (body & Hb & _).
  exists body. exact Hb.
Defined.

Section MappingProperties.
Context `{Remote} `{Json} `{Helpers}.

Lemma create_index_answer (ctx : Ctx) (raw : bool) (w : world) :
  (answer (create_index_call ctx raw) w).2 = None
  <-> exists s b, (http_do (request_of (create_index_call ctx raw)) w).1 = Response s b
                  /\ ~ (401 <= s <= 599)%Z.
Proof.
  rewrite answer_bytes by reflexivity.
  destruct (http_do (request_of (create_index_call ctx raw)) w).1 as [m|m|m|s b].
  1-3: split; [intros Hd; discriminate Hd | intros (s & b & Hr & _); discriminate Hr].
  cbn [snd create_index_call call_errorStatuses call_okStatuses].
  rewrite status_checks_error_only.
  destruct (401 <=? s)%Z eqn:H4, (s <=? 599)%Z eqn:H5; cbn [andb];
    (split; [intros Hn; first [discriminate Hn | exists s, b; split; [reflexivity|lia]]
            |intros (s' & b' & Hr & Hs); injection Hr as <- <-;
             first [reflexivity | lia]]).
Qed.

Lemma mapping_answer (ctx : Ctx) (raw : bool) (mapping : string) (w : world) :
  (answer (mapping_call ctx raw mapping) w).2 = None
  <-> exists b, (http_do (request_of (mapping_call ctx raw mapping)) w).1 = Response 200 b.
Proof.
  rewrite answer_bytes by reflexivity.
  destruct (http_do (request_of (mapping_call ctx raw mapping)) w).1 as [m|m|m|s b].
  1-3: split; [intros Hd; discriminate Hd | intros (b & Hr); discriminate Hr].
  cbn [snd mapping_call call_errorStatuses call_okStatuses].
  rewrite status_checks_ok_only.
  destruct (200 <=? s)%Z eqn:H4, (s <=? 200)%Z eqn:H5; cbn [andb];
    (split; [intros Hn; first [discriminate Hn | exists b; f_equal; lia]
            |intros (b' & Hr); injection Hr as -> <-; first [reflexivity | lia]]).
Qed.

(** The whole run of [HandleMapping]. *)
Lemma HandleMapping_run (ctx : Ctx) (dx : DSMappings) (raw : bool) (st : St) :
  let c1 := create_index_call ctx raw in
  let c2 := mapping_call ctx raw (ds_mapping dx raw) in
  let c3 := mapping_call ctx raw MappingNotAnalyzeString in
  let w1 := (http_do (request_of c1) (st_world st)).2 in
  let w2 := (http_do (request_of c2) w1).2 in
  let w3 := (http_do (request_of c3) w2).2 in
  HandleMapping ctx dx raw st
  = match (answer c1 (st_world st)).2 with
    | Some _ => (Fatal "FatalOnError",
                 {| st_world := w1; st_calls := st_calls st ++ [c1]; st_log := st_log st |})
    | None =>
        match (answer c2 w1).2 with
        | Some _ => (Fatal "FatalOnError",
                     {| st_world := w2; st_calls := st_calls st ++ [c1; c2];
                        st_log := st_log st |})
        | None =>
            match (answer c3 w2).2 with
            | Some _ => (Fatal "FatalOnError",
                         {| st_world := w3; st_calls := st_calls st ++ [c1; c2; c3];
                            st_log := st_log st |})
            | None => (Done None,
                       {| st_world := w3; st_calls := st_calls st ++ [c1; c2; c3];
                          st_log := st_log st |})
            end
        end
    end.
Proof.
  intros c1 c2 c3 w1 w2 w3. unfold HandleMapping.
  pose proof (Request_run c1 st) as R1.
  cbn [c1 create_index_call call_url call_method call_headers call_payload
       call_jsonStatuses call_errorStatuses call_okStatuses index_url] in R1.
  fold c1 in R1.
  rewrite (bind_Done _ _ _ _ _ R1).
  destruct (answer c1 (st_world st)) as [[res1 status1] [e1|]]; [reflexivity|].
  cbn [snd FatalOnError]. unfold ret at 1. unfold bind at 1. cbv beta iota.
  match goal with |- bind _ _ ?s1 = _ => set (st1 := s1) end.
  pose proof (Request_run c2 st1) as R2.
  cbn [c2 mapping_call call_url call_method call_headers call_payload
       call_jsonStatuses call_errorStatuses call_okStatuses index_url ds_mapping] in R2.
  fold c2 in R2.
  rewrite (bind_Done _ _ _ _ _ R2).
  change (st_world st1) with w1. fold w2.
  destruct (answer c2 w1) as [[res2 status2] [e2|]];
    [cbn [snd]; unfold st1; cbn [st_calls st_log];
     rewrite <- app_assoc; reflexivity|].
  cbn [snd FatalOnError]. unfold ret at 1. unfold bind at 1. cbv beta iota.
  match goal with |- bind _ _ ?s2 = _ => set (st2 := s2) end.
  pose proof (Request_run c3 st2) as R3.
  cbn [c3 mapping_call call_url call_method call_headers call_payload
       call_jsonStatuses call_errorStatuses call_okStatuses index_url] in R3.
  fold c3 in R3.
  rewrite (bind_Done _ _ _ _ _ R3).
  change (st_world st2) with w2. fold w3.
  destruct (answer c3 w2) as [[res3 status3] [e3|]];
    cbn [snd FatalOnError]; unfold bind, fatal, ret; cbv beta iota;
    unfold st2, st1; cbn [st_calls st_log]; rewrite <- !app_assoc; reflexivity.
Qed.

(** [HandleMapping] never returns an error: it returns nil or stops the
    run. It returns exactly when the creation of the index is answered with
    a status outside 401-599 (so also with 400, for an index that is there
    already) and each of the two mapping calls with 200; the calls it has
    made are then the three [PUT] calls, in this order. In every run the
    calls made are the first ones of these three. *)
Theorem HandleMapping_outcome (ctx : Ctx) (dx : DSMappings) (raw : bool) (st : St) :
  let run := HandleMapping ctx dx raw st in
  (run.1 = Done None \/ run.1 = Fatal "FatalOnError")
  /\ (run.1 = Done None
      <-> exists (s1 : Z) (b1 b2 b3 : string),
            answers (mapping_calls ctx dx raw) (st_world st)
            = [Response s1 b1; Response 200 b2; Response 200 b3]
            /\ ~ (401 <= s1 <= 599)%Z)
  /\ (run.1 = Done None ->
      st_calls run.2 = st_calls st ++ mapping_calls ctx dx raw)
  /\ exists n : nat,
       st_calls run.2 = st_calls st ++ take n (mapping_calls ctx dx raw).
Proof.
  intros run. unfold run. rewrite HandleMapping_run.
  cbn [answers mapping_calls].
  set (c1 := create_index_call ctx raw).
  set (c2 := mapping_call ctx raw (ds_mapping dx raw)).
  set (c3 := mapping_call ctx raw MappingNotAnalyzeString).
  set (w1 := (http_do (request_of c1) (st_world st)).2).
  set (w2 := (http_do (request_of c2) w1).2).
  pose proof (create_index_answer ctx raw (st_world st)) as A1.
  pose proof (mapping_answer ctx raw (ds_mapping dx raw) w1) as A2.
  pose proof (mapping_answer ctx raw MappingNotAnalyzeString w2) as A3.
  fold c1 in A1. fold c2 in A2. fold c3 in A3.
  destruct (answer c1 (st_world st)).2 as [e1|].
  { split; [right; reflexivity|]. split; [|split; [discriminate|]].
    - split; [discriminate|]. intros (s1 & b1 & b2 & b3 & [= Hr1 _ _] & Hs).
      destruct A1 as [_ A1]. discriminate A1. exists s1, b1. split; assumption.
    - exists 1%nat. reflexivity. }
  destruct (answer c2 w1).2 as [e2|].
  { split; [right; reflexivity|]. split; [|split; [discriminate|]].
    - split; [discriminate|]. intros (s1 & b1 & b2 & b3 & [= _ Hr2 _] & Hs).
      destruct A2 as [_ A2]. discriminate A2. exists b2. exact Hr2.
    - exists 2%nat. reflexivity. }
  destruct (answer c3 w2).2 as [e3|].
  { split; [right; reflexivity|]. split; [|split; [discriminate|]].
    - split; [discriminate|]. intros (s1 & b1 & b2 & b3 & [= _ _ Hr3] & Hs).
      destruct A3 as [_ A3]. discriminate A3. exists b3. exact Hr3.
    - exists 3%nat. reflexivity. }
  split; [left; reflexivity|]. split; [|split; [reflexivity|exists 3%nat; reflexivity]].
  split; [|reflexivity]. intros _.
  destruct A1 as [A1 _]. destruct (A1 eq_refl) as (s1 & b1 & Hr1 & Hs).
  destruct A2 as [A2 _]. destruct (A2 eq_refl) as (b2 & Hr2).
  destruct A3 as [A3 _]. destruct (A3 eq_refl) as (b3 & Hr3).
  exists s1, b1, b2, b3. split; [|exact Hs].
  rewrite Hr1. fold w1. rewrite Hr2. fold w2. rewrite Hr3. reflexivity.
Qed.
End MappingProperties.

Section BulkProperties.
Context `{Remote} `{Json}.

Lemma bulk_payloads_lacks_key (key : string) (items : list value) :
  Forall is_map items -> Exists (lacks_key key) items ->
  forall acc, exists e : error, bulk_payloads key items acc = Done (inr e).
Proof.
  intros Hmaps Hbad. induction Hbad as [item rest Hb | item rest Hb IH]; intros acc.
  - destruct Hb as (m & -> & Hm). simpl.
    destruct (Marshal (VMap m)) as [doc|c]; [|eexists; reflexivity].
    destruct (m !! key) as [[]|] eqn:Hk; try (eexists; reflexivity).
    exfalso. eapply Hm. reflexivity.
  - inversion Hmaps as [|item' rest' (m & ->) Hrest]; subst. simpl.
    destruct (Marshal (VMap m)) as [doc|c]; [|eexists; reflexivity].
    destruct (m !! key) as [[]|]; try (eexists; reflexivity).
    apply (IH Hrest).
Qed.

(** A batch is sent whole or not at all: when one of its items has no
    string under [key], [SendToElastic] returns an error without any call to
    the endpoint, also for the items before that one. *)
Theorem SendToElastic_item_without_key (ctx : Ctx) (ds : DS) (raw : bool)
    (key : string) (items : list value) (st : St) :
  Forall is_map items -> Exists (lacks_key key) items ->
  exists (e : error) (st' : St),
    SendToElastic ctx ds raw key items st = (Done (Some e), st')
    /\ st_calls st' = st_calls st /\ st_world st' = st_world st.
Proof.
  intros Hmaps Hbad.
  destruct (bulk_payloads_lacks_key key items Hmaps Hbad "") as (e & Hb).
  unfold SendToElastic.
  destruct (0 <? Debug ctx)%Z; unfold bind, when, Printf, ret; rewrite Hb;
    exists e; eexists; (split; [reflexivity|split; reflexivity]).
Qed.

Lemma bulk_call_answer (ctx : Ctx) (raw : bool) (payloads : string) (w : world) :
  (answer (bulk_call ctx raw payloads) w).2 = None
  <-> exists s b, (http_do (request_of (bulk_call ctx raw payloads)) w).1 = Response s b
                  /\ ~ (400 <= s <= 599)%Z.
Proof.
  rewrite answer_bytes by reflexivity.
  destruct (http_do (request_of (bulk_call ctx raw payloads)) w).1 as [m|m|m|s b].
  1-3: split; [intros Hd; discriminate Hd | intros (s & b & Hr & _); discriminate Hr].
  cbn [snd bulk_call call_errorStatuses call_okStatuses].
  rewrite status_checks_error_only.
  destruct (400 <=? s)%Z eqn:H4, (s <=? 599)%Z eqn:H5; cbn [andb];
    (split; [intros Hn; first [discriminate Hn | exists s, b; split; [reflexivity|lia]]
            |intros (s' & b' & Hr & Hs); injection Hr as <- <-;
             first [reflexivity | lia]]).
Qed.

(** When the endpoint answers the bulk call with a status outside 400-599,
    [SendToElastic] returns nil after this one call: no item is sent a
    second time. *)
Theorem SendToElastic_bulk_accepted (ctx : Ctx) (ds : DS) (raw : bool)
    (key : string) (items : list value) (st : St) (payloads : string)
    (status : Z) (body : string) :
  bulk_payloads key items "" = Done (inl payloads) ->
  (http_do (request_of (bulk_call ctx raw payloads)) (st_world st)).1
    = Response status body ->
  ~ (400 <= status <= 599)%Z ->
  exists st' : St,
    SendToElastic ctx ds raw key items st = (Done None, st')
    /\ st_calls st' = st_calls st ++ [bulk_call ctx raw payloads].
Proof.
  intros Hb Hr Hs.
  assert (Ha : (answer (bulk_call ctx raw payloads) (st_world st)).2 = None).
  { apply bulk_call_answer. exists status, body. split; assumption. }
  unfold SendToElastic.
  pose proof (fun st1 => Request_run (bulk_call ctx raw payloads) st1) as Hq.
  cbn [bulk_call call_url call_method call_headers call_payload
       call_jsonStatuses call_errorStatuses call_okStatuses bulk_url] in Hq.
  destruct (0 <? Debug ctx)%Z; unfold bind, when, Printf, ret; rewrite Hb, Hq;
    cbn [st_world];
    destruct (answer (bulk_call ctx raw payloads) (st_world st)) as [[res s] err];
    cbn [snd] in Ha; subst err; eexists; (split; [reflexivity|reflexivity]).
Qed.
End BulkProperties.

Lemma SendToElastic_item_without_key_witness :
  exists (e : error) (st' : @St scripted),
    @SendToElastic scripted json_sample ctx_sample ds_sample true "uuid"
      [doc "a"; VMap ∅] (st0 [Response 200 "{}"]) = (Done (Some e), st')
    /\ st_calls st' = [] /\ st_world st' = [Response 200 "{}"].
Proof.
  apply (@SendToElastic_item_without_key scripted json_sample ctx_sample ds_sample true
           "uuid" [doc "a"; VMap ∅] (st0 [Response 200 "{}"])).
  - repeat constructor; eexists; reflexivity.
  - right. left. exists ∅. split; [reflexivity|]. intros uuid Hk.
    rewrite lookup_empty in Hk. discriminate Hk.
Defined.

Lemma SendToElastic_bulk_accepted_witness :
  exists st' : @St scripted,
    @SendToElastic scripted json_sample ctx_sample ds_sample true "uuid"
      [doc "a"; doc "b"] (st0 [Response 200 "{}"]) = (Done None, st')
    /\ length (st_calls st') = 1%nat.
Proof.
  destruct (@SendToElastic_bulk_accepted scripted json_sample ctx_sample ds_sample true
              "uuid" [doc "a"; doc "b"] (st0 [Response 200 "{}"]) _ 200%Z "{}"
              eq_refl eq_refl) as (st' & Hrun & Hcalls); [lia|].
  exists st'. split; [exact Hrun|]. rewrite Hcalls. reflexivity.
Defined.

(* ===================================================================== *)
(** ** More on the checkpoints *)
(* ===================================================================== *)

Section ResumeProperties.
Context `{Remote} `{Json} `{Helpers}.

Lemma when_Printf_St (b : bool) (l : logline) (st : St) :
  exists st1 : St,
    when b (Printf l) st = (Done tt, st1)
    /\ st_world st1 = st_world st /\ st_calls st1 = st_calls st.
Proof.
  destruct b; unfold when, Printf, ret; eexists; repeat split.
Qed.

Lemma search_answer (c : Call) (w : world) :
  call_jsonStatuses c = ∅ -> call_errorStatuses c = ∅ ->
  call_okStatuses c = {[ (200, 200)%Z ]} ->
  answer c w
  = match (http_do (request_of c) w).1 with
    | NewRequestFails m => (VNil, 0%Z, Some (NewRequestError m))
    | DoFails m => (VNil, 0%Z, Some (DoRequestError m))
    | ReadAllFails m => (VNil, 0%Z, Some (ReadBodyError m))
    | Response status body =>
        (VBytes body, status,
         if (status =? 200)%Z then None else Some (StatusNotSuccess None status))
    end.
Proof.
  intros Hj He Ho. rewrite (answer_bytes c w Hj), He, Ho.
  destruct (http_do (request_of c) w).1 as [m|m|m|status body]; try reflexivity.
  rewrite status_checks_ok_only. f_equal.
  destruct (200 <=? status)%Z eqn:E1, (status <=? 200)%Z eqn:E2,
           (status =? 200)%Z eqn:E3; cbn [andb]; try reflexivity; lia.
Qed.

Lemma GetLastUpdate_run (ctx : Ctx) (ds : DS) (raw : bool) (st : St) :
  let c := last_update_call ctx ds raw in
  let run := GetLastUpdate ctx ds raw st in
  st_calls run.2 = st_calls st ++ [c]
  /\ run.1
     = match (http_do (request_of c) (st_world st)).1 with
       | Response status body =>
           if (status =? 200)%Z then
             Done (match Unmarshal_value_as_string body with
                   | inl str =>
                       if String.eqb str "" then None
                       else match TimeParseAny str with
                            | inl tm => Some tm
                            | inr _ => None
                            end
                   | inr _ => None
                   end)
           else Fatal "FatalOnError"
       | _ => Fatal "FatalOnError"
       end.
Proof.
  intros c run. unfold run, GetLastUpdate.
  destruct (when_Printf_St (0 <? Debug ctx)%Z (LogLine "resume from date query") st)
    as (st1 & Hw & Hw1 & Hc1).
  rewrite (bind_Done _ _ _ _ _ Hw).
  pose proof (Request_run c st1) as Hr.
  cbn [c last_update_call call_url call_method call_headers call_payload
       call_jsonStatuses call_errorStatuses call_okStatuses] in Hr.
  fold c in Hr. rewrite (bind_Done _ _ _ _ _ Hr).
  rewrite (search_answer c (st_world st1)) by reflexivity. rewrite Hw1.
  destruct (http_do (request_of c) (st_world st)).1 as [m|m|m|status body];
    try (unfold bind, FatalOnError, fatal; cbn [st_calls]; rewrite Hc1;
         split; reflexivity).
  destruct (status =? 200)%Z;
    [|unfold bind, FatalOnError, fatal; cbn [st_calls]; rewrite Hc1; split; reflexivity].
  unfold FatalOnError. unfold bind at 1. unfold ret at 1. cbv beta iota.
  destruct (Unmarshal_value_as_string body) as [str|e];
    [|unfold bind, Printf, ret; cbn [fst snd st_calls]; rewrite Hc1; split; reflexivity].
  destruct (String.eqb str ""); cbn [negb];
    [unfold ret; cbn [fst snd st_calls]; rewrite Hc1; split; reflexivity|].
  destruct (TimeParseAny str) as [tm|e];
    unfold bind, Printf, ret; cbn [fst snd st_calls]; rewrite Hc1; split; reflexivity.
Qed.

(** [GetLastUpdate] sends one search to the index. Unless the endpoint
    answers it with the status 200, the run stops (so also on 404, for an
    index that is not there). On 200 the result is the date that the body
    holds, and nil when the body cannot be decoded, holds no date or holds a
    text that is not a date. No run of it panics. *)
Theorem GetLastUpdate_outcome (ctx : Ctx) (ds : DS) (raw : bool) (st : St) :
  let c := last_update_call ctx ds raw in
  let run := GetLastUpdate ctx ds raw st in
  st_calls run.2 = st_calls st ++ [c]
  /\ run.1
     = match (http_do (request_of c) (st_world st)).1 with
       | Response status body =>
           if (status =? 200)%Z then
             Done (match Unmarshal_value_as_string body with
                   | inl str =>
                       if String.eqb str "" then None
                       else match TimeParseAny str with
                            | inl tm => Some tm
                            | inr _ => None
                            end
                   | inr _ => None
                   end)
           else Fatal "FatalOnError"
       | _ => Fatal "FatalOnError"
       end.
Proof. exact (GetLastUpdate_run ctx ds raw st). Qed.

Lemma GetLastOffset_run (ctx : Ctx) (ds : DS) (raw : bool) (st : St) :
  let c := last_offset_call ctx ds raw in
  let run := GetLastOffset ctx ds raw st in
  st_calls run.2 = st_calls st ++ [c]
  /\ run.1
     = match (http_do (request_of c) (st_world st)).1 with
       | Response status body =>
           if (status =? 200)%Z then
             Done (match Unmarshal_value body with
                   | inl (Some v) => v
                   | _ => (-1)%float
                   end)
           else Fatal "FatalOnError"
       | _ => Fatal "FatalOnError"
       end.
Proof.
  intros c run. unfold run, GetLastOffset.
  destruct (when_Printf_St (0 <? Debug ctx)%Z (LogLine "resume from offset query") st)
    as (st1 & Hw & Hw1 & Hc1).
  rewrite (bind_Done _ _ _ _ _ Hw).
  pose proof (Request_run c st1) as Hr.
  cbn [c last_offset_call call_url call_method call_headers call_payload
       call_jsonStatuses call_errorStatuses call_okStatuses] in Hr.
  fold c in Hr. rewrite (bind_Done _ _ _ _ _ Hr).
  rewrite (search_answer c (st_world st1)) by reflexivity. rewrite Hw1.
  destruct (http_do (request_of c) (st_world st)).1 as [m|m|m|status body];
    try (unfold bind, FatalOnError, fatal; cbn [st_calls]; rewrite Hc1;
         split; reflexivity).
  destruct (status =? 200)%Z;
    [|unfold bind, FatalOnError, fatal; cbn [st_calls]; rewrite Hc1; split; reflexivity].
  unfold FatalOnError. unfold bind at 1. unfold ret at 1. cbv beta iota.
  destruct (Unmarshal_value body) as [[v|]|e];
    unfold bind, Printf, ret; cbn [fst snd st_calls]; rewrite Hc1; split; reflexivity.
Qed.

(** [GetLastOffset] sends one search to the index; its filter on the
    origin names the offset field. Unless the endpoint answers with the
    status 200 the run stops. On 200 the result is the value that the body
    holds, and [-1] when the body cannot be decoded or holds no value. *)
Theorem GetLastOffset_outcome (ctx : Ctx) (ds : DS) (raw : bool) (st : St) :
  let c := last_offset_call ctx ds raw in
  let run := GetLastOffset ctx ds raw st in
  st_calls run.2 = st_calls st ++ [c]
  /\ run.1
     = match (http_do (request_of c) (st_world st)).1 with
       | Response status body =>
           if (status =? 200)%Z then
             Done (match Unmarshal_value body with
                   | inl (Some v) => v
                   | _ => (-1)%float
                   end)
           else Fatal "FatalOnError"
       | _ => Fatal "FatalOnError"
       end.
Proof. exact (GetLastOffset_run ctx ds raw st). Qed.
End ResumeProperties.

Section StartProperties.
Context `{Remote} `{Json} `{Helpers}.

(** The date block of [FetchRaw]: what it leaves when it returns. *)
Lemma FetchRaw_start_inv (ctx ctx' : Ctx) (ds : DS) (st st' : St) :
  FetchRaw_start ctx ds st = (Done ctx', st') ->
  (SupportDateFrom ds = true -> SupportOffsetFrom ds = true ->
   DateFrom ctx' = None \/ ge0 (OffsetFrom ctx') = false)
  /\ (DateFromDetected ctx = false -> DateFromDetected ctx' = true ->
      DateFrom ctx' <> None).
Proof.
  intros Hrun. split.
  - intros Hsd Hso. unfold FetchRaw_start in Hrun. rewrite Hsd, Hso in Hrun.
    apply bind_inv in Hrun. destruct Hrun as ([] & s1 & _ & Hrun).
    apply bind_inv in Hrun. destruct Hrun as ([] & s2 & _ & Hrun).
    apply bind_inv in Hrun. destruct Hrun as ([ctx1 lastUpdate] & s3 & Hdate & Hrun).
    apply bind_inv in Hrun. destruct Hrun as ([ctx2 offset] & s4 & Hoff & Hrun).
    apply bind_inv in Hrun. destruct Hrun as ([] & s5 & Hchk & Hrun).
    unfold ret in Hrun; cbv beta in Hrun. injection Hrun as <- _.
    assert (Hd1 : DateFrom ctx1 = lastUpdate).
    { apply bind_inv in Hdate. destruct Hdate as (last & s & Hlast & Hdate).
      destruct last as [d|].
      - apply bind_inv in Hdate. destruct Hdate as ([] & s' & _ & Hdate).
        unfold ret in Hdate; cbv beta in Hdate. injection Hdate as <- <- _. reflexivity.
      - apply bind_inv in Hdate. destruct Hdate as ([] & s' & _ & Hdate).
        unfold ret in Hdate; cbv beta in Hdate. injection Hdate as <- <- _.
        destruct (DateFrom ctx) as [d|]; [|reflexivity].
        unfold ret in Hlast; cbv beta in Hlast. discriminate Hlast. }
    assert (Ho2 : DateFrom ctx2 = DateFrom ctx1
                  /\ (offset = None -> ge0 (OffsetFrom ctx2) = false)).
    { apply bind_inv in Hoff. destruct Hoff as (o & s & Ho & Hoff).
      destruct o as [o|].
      - apply bind_inv in Hoff. destruct Hoff as ([] & s' & _ & Hoff).
        unfold ret in Hoff; cbv beta in Hoff. injection Hoff as <- <- _.
        split; [destruct (PrimFloat.ltb (OffsetFrom ctx1) 0); reflexivity|].
        intros Hn. discriminate Hn.
      - apply bind_inv in Hoff. destruct Hoff as ([] & s' & _ & Hoff).
        unfold ret in Hoff; cbv beta in Hoff. injection Hoff as <- <- _.
        split; [reflexivity|]. intros _.
        destruct (ge0 (OffsetFrom ctx1)); [|reflexivity].
        unfold ret in Ho; cbv beta in Ho. discriminate Ho. }
    destruct Ho2 as [Hd2 Hge]. rewrite Hd2, Hd1.
    destruct lastUpdate as [d|]; [|left; reflexivity].
    destruct offset as [o|]; [|right; apply Hge; reflexivity].
    unfold when, fatal in Hchk.
    rewrite !bool_decide_eq_true_2 in Hchk by discriminate.
    cbn [andb] in Hchk. discriminate Hchk.
  - intros Hd Hd'.
    destruct (FetchRaw_start_detected_date ctx ctx' ds st st' Hrun Hd Hd')
      as (_ & d1 & s & _ & Hf).
    rewrite Hf. discriminate.
Qed.

(** For a connector that resumes by date and by offset, the raw pass
    never starts with both: when the start block of [FetchRaw] returns, the
    context holds no start date or no start offset. *)
Theorem FetchRaw_start_date_or_offset (ctx ctx' : Ctx) (ds : DS) (st st' : St) :
  SupportDateFrom ds = true -> SupportOffsetFrom ds = true ->
  FetchRaw_start ctx ds st = (Done ctx', st') ->
  DateFrom ctx' = None \/ ge0 (OffsetFrom ctx') = false.
Proof.
  intros Hsd Hso Hrun.
  apply (proj1 (FetchRaw_start_inv ctx ctx' ds st st' Hrun) Hsd Hso).
Qed.

(** A start date given by the operator is taken as it is, without a query
    to the index and without the mark of a detected date, by a connector
    that resumes by date only. *)
Theorem FetchRaw_start_given_date (ctx : Ctx) (ds : DS) (st : St) (d : Time) :
  SupportDateFrom ds = true -> SupportOffsetFrom ds = false ->
  DateFrom ctx = Some d -> ge0 (OffsetFrom ctx) = false ->
  DateTo ctx = None \/ ge0 (OffsetTo ctx) = false ->
  exists (ctx' : Ctx) (st' : St),
    FetchRaw_start ctx ds st = (Done ctx', st')
    /\ DateFrom ctx' = Some d
    /\ DateFromDetected ctx' = DateFromDetected ctx
    /\ OffsetFrom ctx' = OffsetFrom ctx
    /\ st_calls st' = st_calls st /\ st_world st' = st_world st.
Proof.
  intros Hsd Hso Hf Hge Hto. unfold FetchRaw_start. rewrite Hsd, Hso, Hf, Hge.
  rewrite andb_false_r.
  assert (Hc : (bool_decide (DateTo ctx <> None) && ge0 (OffsetTo ctx))%bool = false).
  { destruct Hto as [-> | ->]; [|apply andb_false_r].
    rewrite bool_decide_eq_false_2; [reflexivity|]. intros Hn. apply Hn. reflexivity. }
  rewrite Hc.
  rewrite (bool_decide_eq_false_2 (Some d = None)) by discriminate.
  unfold when, bind, ret, Printf. cbn [andb bool_decide].
  rewrite (bool_decide_eq_false_2 (@None float <> None))
    by (intros Hn; apply Hn; reflexivity).
  rewrite andb_false_r.
  eexists _, _. split; [reflexivity|]. repeat split.
Qed.

Lemma GetLastUpdate_no_panic (ctx : Ctx) (ds : DS) (raw : bool) (st : St) (m : string) :
  (GetLastUpdate ctx ds raw st).1 <> Panic m.
Proof.
  destruct (GetLastUpdate_run ctx ds raw st) as [_ Hr]. rewrite Hr.
  destruct (http_do _ (st_world st)).1 as [c|c|c|status body]; try discriminate.
  destruct (status =? 200)%Z; discriminate.
Qed.

Lemma GetLastOffset_no_panic (ctx : Ctx) (ds : DS) (raw : bool) (st : St) (m : string) :
  (GetLastOffset ctx ds raw st).1 <> Panic m.
Proof.
  destruct (GetLastOffset_run ctx ds raw st) as [_ Hr]. rewrite Hr.
  destruct (http_do _ (st_world st)).1 as [c|c|c|status body]; try discriminate.
  destruct (status =? 200)%Z; discriminate.
Qed.

Lemma bind_no_panic {S A B} (c : M S A) (k : A -> M S B) (s : S) (m : string) :
  (c s).1 <> Panic m ->
  (forall a s', c s = (Done a, s') -> (k a s').1 <> Panic m) ->
  (bind c k s).1 <> Panic m.
Proof.
  intros Hc Hk. unfold bind. destruct (c s) as [[a|f|p|] s'] eqn:Hcs;
    [apply Hk; reflexivity|discriminate| |discriminate].
  cbn [fst] in Hc |- *. intros Hp. apply Hc. injection Hp as ->. reflexivity.
Qed.

Lemma Printf_no_panic (l : logline) (st : St) (m : string) :
  (Printf l st).1 <> Panic m.
Proof. discriminate. Qed.

Lemma ret_no_panic {S A} (a : A) (s : S) (m : string) : (ret a s).1 <> Panic m.
Proof. discriminate. Qed.

(** [Enrich] reads [*ctx.DateFrom] whenever the start date is marked as
    detected and the rich index holds a date. After the start block of
    [FetchRaw], which sets the mark only together with the date, the start
    blocks of [Enrich] do not panic, whatever the rich index answers. *)
Theorem Enrich_start_after_FetchRaw_start (ctx ctx' : Ctx) (ds : DS) (st st' st2 : St)
    (m : string) :
  DateFromDetected ctx = false ->
  FetchRaw_start ctx ds st = (Done ctx', st') ->
  (Enrich_start ctx' ds st2).1 <> Panic m.
Proof.
  intros Hd Hrun.
  pose proof (proj2 (FetchRaw_start_inv ctx ctx' ds st st' Hrun) Hd) as Hinv.
  unfold Enrich_start. apply bind_no_panic.
  - unfold Enrich_date. destruct (SupportDateFrom ds); [|apply ret_no_panic].
    apply bind_no_panic.
    + destruct (DateFromDetected ctx') eqn:Hdet; [|apply ret_no_panic].
      apply bind_no_panic; [apply GetLastUpdate_no_panic|].
      intros [d2|] s _; [|apply ret_no_panic].
      destruct (DateFrom ctx') as [d1|] eqn:Hf; [apply ret_no_panic|].
      exfalso. apply Hinv; reflexivity.
    + intros last s _. apply bind_no_panic; [apply Printf_no_panic|].
      intros [] s' _. apply ret_no_panic.
  - intros ctx1 s1 _. unfold Enrich_offset.
    destruct (SupportOffsetFrom ds); [|apply ret_no_panic].
    apply bind_no_panic.
    + destruct (OffsetFromDetected ctx1); [|apply ret_no_panic].
      apply bind_no_panic; [apply GetLastOffset_no_panic|].
      intros lastOffset s _. apply ret_no_panic.
    + intros [o|] s _; (apply bind_no_panic; [apply Printf_no_panic|]);
        intros [] s' _; apply ret_no_panic.
Qed.
End StartProperties.

(** The raw index holds no date and the offset 7. *)
Lemma FetchRaw_start_date_or_offset_witness :
  let r := @FetchRaw_start scripted json_sample (helpers_sample true) ctx_sample ds_both
             (st0 [Response 200 ""; Response 200 "7"]) in
  exists ctx' : Ctx,
    r.1 = Done ctx' /\ OffsetFrom ctx' = 7%float
    /\ (DateFrom ctx' = None \/ ge0 (OffsetFrom ctx') = false).
Proof.
  intros r.
  pose (ctx' := set_OffsetFrom (set_OffsetFromDetected ctx_sample true) 7%float).
  assert (Hr : r = (Done ctx', r.2)) by (vm_compute; reflexivity).
  exists ctx'. split; [rewrite Hr; reflexivity|]. split; [reflexivity|].
  apply (@FetchRaw_start_date_or_offset scripted json_sample (helpers_sample true)
           ctx_sample ctx' ds_both (st0 [Response 200 ""; Response 200 "7"]) r.2
           eq_refl eq_refl Hr).
Defined.

Lemma FetchRaw_start_given_date_witness :
  exists (ctx' : Ctx) (st' : @St scripted),
    @FetchRaw_start scripted json_sample (helpers_sample true)
      (set_DateFrom ctx_sample (Some 100%Z)) ds_sample (st0 [Response 200 "D2"])
    = (Done ctx', st')
    /\ DateFrom ctx' = Some 100%Z /\ st_calls st' = [].
Proof.
  destruct (@FetchRaw_start_given_date scripted json_sample (helpers_sample true)
              (set_DateFrom ctx_sample (Some 100%Z)) ds_sample
              (st0 [Response 200 "D2"]) 100%Z eq_refl eq_refl eq_refl eq_refl
              (or_introl eq_refl))
    as (ctx' & st' & Hrun & Hf & _ & _ & Hcalls & _).
  exists ctx', st'. split; [exact Hrun|]. split; [exact Hf|exact Hcalls].
Defined.

(** The raw index holds the date 100; the rich index then answers with a
    later date. *)
Lemma Enrich_start_after_FetchRaw_start_witness :
  let r := @FetchRaw_start scripted json_sample (helpers_sample true) ctx_sample ds_sample
             (st0 [Response 200 "D1"]) in
  r.1 = Done ctx_detected_date
  /\ (@Enrich_start scripted json_sample (helpers_sample true) ctx_detected_date ds_sample
        (st0 [Response 200 "D2"])).1 <> Panic "nil pointer dereference".
Proof.
  intros r.
  assert (Hr : r = (Done ctx_detected_date, r.2)) by (vm_compute; reflexivity).
  split; [rewrite Hr; reflexivity|].
  apply (@Enrich_start_after_FetchRaw_start scripted json_sample (helpers_sample true)
           ctx_sample ctx_detected_date ds_sample (st0 [Response 200 "D1"]) r.2
           (st0 [Response 200 "D2"]) "nil pointer dereference" eq_refl Hr).
Defined.

(* ===================================================================== *)
(** ** More on the affiliations *)
(* ===================================================================== *)

Section IdentityCacheProperties.
Context `{Unicode} `{Helpers}.

(** The ids of an identity are looked up once in a process: a second call
    returns what the first call returned and leaves the caches as they are,
    whatever the database holds by then; a miss is kept like a hit. *)
Theorem AffsIdentityIDs_cached (db db' : IdentityDB) (ds : DS)
    (identity : gmap string value) (c c1 : Affs.Caches) (ids : value * value) :
  @Affs.AffsIdentityIDs _ db ds identity c = (Done ids, c1) ->
  @Affs.AffsIdentityIDs _ db' ds identity c1 = (Done ids, c1).
Proof.
  unfold Affs.AffsIdentityIDs.
  destruct (Affs.is_nil (at_key identity "email") && Affs.is_nil (at_key identity "name")
            && Affs.is_nil (at_key identity "username"))%bool;
    [intros [= <- <-]; reflexivity|].
  destruct (Affs.as_string (at_key identity "email")) as [sEmail okE].
  destruct (Affs.as_string (at_key identity "name")) as [sName okN].
  destruct (Affs.as_string (at_key identity "username")) as [sUsername okU].
  set (k := sEmail +:+ ":" +:+ sName +:+ ":" +:+ sUsername).
  destruct (Affs.identityCache c !! k) as [ids0|] eqn:Hk.
  - intros [= <- <-]. rewrite Hk. reflexivity.
  - destruct (UuidGo.UUIDAffs (Affs.uuidsCacheAffs c) _) as [[id|f|p|] uc];
      try discriminate.
    intros [= <- <-]. cbn [Affs.identityCache]. rewrite lookup_insert_eq. reflexivity.
Qed.
End IdentityCacheProperties.

Lemma AffsIdentityIDs_cached_witness :
  exists c1 : Affs.Caches,
    @Affs.AffsIdentityIDs Unicode_excerpt empty_db ds_sample identity_sample no_caches
    = (Done (VNil, VNil), c1)
    /\ forall db' : IdentityDB,
         @Affs.AffsIdentityIDs Unicode_excerpt db' ds_sample identity_sample c1
         = (Done (VNil, VNil), c1).
Proof.
  destruct (@AffsIdentityIDs_not_found Unicode_excerpt empty_db ds_sample identity_sample
              no_caches) as (c1 & Hids);
    [discriminate|reflexivity|reflexivity|].
  exists c1. split; [exact Hids|]. intros db'.
  apply (@AffsIdentityIDs_cached Unicode_excerpt empty_db db' ds_sample identity_sample
           no_caches c1 (VNil, VNil) Hids).
Defined.

Section EnrollmentProperties.
Context `{Unicode} `{Helpers} `{IdentityDB}.

Lemma GetEnrollments_rolls_empty (ds : DS) (uuid : string) (dt : Time) (single : bool)
    (c : Affs.Caches) :
  rolls_empty c ->
  exists c' : Affs.Caches,
    Affs.GetEnrollments ds uuid dt single c = (Done [], c')
    /\ rolls_empty c'
    /\ Affs.identityCache c' = Affs.identityCache c
    /\ Affs.uuidsCacheAffs c' = Affs.uuidsCacheAffs c.
Proof.
  intros Hc. unfold Affs.GetEnrollments.
  set (k := uuid +:+ (if single then "s" else "m") +:+ ToYMDDate dt).
  destruct (Affs.rollsCache c !! k) as [orgs|] eqn:Hk.
  - rewrite (Hc k orgs Hk). exists c. repeat split. exact Hc.
  - eexists. split; [reflexivity|]. split; [|split; reflexivity].
    unfold rolls_empty. cbn [Affs.rollsCache].
    apply map_Forall_insert_2; [reflexivity|exact Hc].
Qed.

Lemma GetEnrollments_both_unknown (ds : DS) (uuid : string) (dt : Time) (c : Affs.Caches) :
  rolls_empty c ->
  exists c1 c2 : Affs.Caches,
    Affs.GetEnrollmentsSingle ds uuid dt c = (Done Unknown, c1) /\ rolls_empty c1
    /\ Affs.GetEnrollmentsMulti ds uuid dt c = (Done [Unknown], c2) /\ rolls_empty c2.
Proof.
  intros Hc.
  destruct (GetEnrollments_rolls_empty ds uuid dt true c Hc) as (c1 & E1 & Hc1 & _).
  destruct (GetEnrollments_rolls_empty ds uuid dt false c Hc) as (c2 & E2 & Hc2 & _).
  exists c1, c2. unfold Affs.GetEnrollmentsSingle, Affs.GetEnrollmentsMulti.
  rewrite (bind_Done _ _ _ _ _ E1), (bind_Done _ _ _ _ _ E2).
  repeat split; assumption.
Qed.

(** The cache of enrollments is filled by [GetEnrollments] alone, and with
    empty lists only; so, in a process that starts with an empty cache,
    every lookup of the organization of a unified identity gives [Unknown],
    and every lookup of its organizations the list of [Unknown] alone. The
    list of organizations is never empty, whatever the cache holds. *)
Theorem GetEnrollments_unknown (ds : DS) (uuid : string) (dt : Time) (c : Affs.Caches) :
  (rolls_empty c ->
   exists c1 c2 : Affs.Caches,
     Affs.GetEnrollmentsSingle ds uuid dt c = (Done Unknown, c1) /\ rolls_empty c1
     /\ Affs.GetEnrollmentsMulti ds uuid dt c = (Done [Unknown], c2) /\ rolls_empty c2)
  /\ exists (orgs : list string) (c' : Affs.Caches),
       Affs.GetEnrollmentsMulti ds uuid dt c = (Done orgs, c') /\ orgs <> [].
Proof.
  split.
  - apply GetEnrollments_both_unknown.
  - unfold Affs.GetEnrollmentsMulti, Affs.GetEnrollments, bind.
    destruct (Affs.rollsCache c !! _) as [[|org orgs]|];
      eexists _, _; (split; [reflexivity|discriminate]).
Qed.
End EnrollmentProperties.

Lemma GetEnrollments_unknown_witness :
  exists c1 : Affs.Caches,
    @Affs.GetEnrollmentsSingle (helpers_sample true) ds_sample "u1" 100%Z no_caches
    = (Done Unknown, c1).
Proof.
  destruct (proj1 (@GetEnrollments_unknown (helpers_sample true) ds_sample "u1" 100%Z
                     no_caches)) as (c1 & c2 & E1 & _).
  - unfold rolls_empty. apply map_Forall_empty.
  - exists c1. exact E1.
Defined.

Section AffsDataProperties.
Context `{Unicode} `{Helpers} `{IdentityDB}.

Ltac role_ne := first [apply role_key_ne; unfold MultiOrgNames; discriminate
                      |apply not_eq_sym, role_key_ne; unfold MultiOrgNames; discriminate].

Lemma has_affs_fields_empty (role : string) (undef : bool) :
  has_affs_fields role (Affs.EmptyAffsItem role undef).
Proof.
  destruct (EmptyAffsItem_fields role undef)
    as (T1 & T2 & T3 & T4 & T5 & T6 & T7 & T8 & T9 & T10).
  unfold has_affs_fields, affs_suffixes.
  repeat (constructor; [eexists; eassumption|]). constructor.
Qed.

Lemma has_affs_fields_insert (role k : string) (v : value) (m : gmap string value) :
  has_affs_fields role m -> has_affs_fields role (<[ k := v ]> m).
Proof.
  unfold has_affs_fields. intros Hm. eapply Forall_impl; [exact Hm|].
  intros suffix Hs. apply lookup_insert_is_Some'. right. exact Hs.
Qed.

(** What reading the profile changes: the name, the domain and the gender
    of the role, nothing else. *)
Lemma with_profile_Done (role : string) (profile m m' : gmap string value) (isBot : Z) :
  Affs.with_profile role profile m = Done (m', isBot) ->
  (has_affs_fields role m -> has_affs_fields role m')
  /\ (isBot = 0%Z \/ isBot = 1%Z)
  /\ m' !! (role +:+ "_id") = m !! (role +:+ "_id")
  /\ m' !! (role +:+ "_uuid") = m !! (role +:+ "_uuid")
  /\ (exists g, m' !! (role +:+ "_gender") = Some g /\ g <> VNil).
Proof.
  unfold Affs.with_profile.
  set (m1 := if Affs.is_nil (at_key profile "name") then m
             else <[ role +:+ "_name" := at_key profile "name" ]> m).
  assert (A1 : (has_affs_fields role m -> has_affs_fields role m1)
               /\ m1 !! (role +:+ "_id") = m !! (role +:+ "_id")
               /\ m1 !! (role +:+ "_uuid") = m !! (role +:+ "_uuid")).
  { unfold m1. destruct (Affs.is_nil (at_key profile "name")); [repeat split; auto|].
    split; [apply has_affs_fields_insert|].
    split; rewrite lookup_insert_ne by role_ne; reflexivity. }
  destruct A1 as (Hf1 & Hi1 & Hu1).
  set (wd := if Affs.is_nil (at_key profile "email") then Done m1 else _).
  assert (A2 : forall m2, wd = Done m2 ->
               (has_affs_fields role m -> has_affs_fields role m2)
               /\ m2 !! (role +:+ "_id") = m !! (role +:+ "_id")
               /\ m2 !! (role +:+ "_uuid") = m !! (role +:+ "_uuid")).
  { intros m2. unfold wd. destruct (Affs.is_nil (at_key profile "email"));
      [intros [= <-]; repeat split; auto|].
    destruct (at_key profile "email"); try discriminate.
    destruct (Split s "@" "") as [|a [|domain rest]]; intros [= <-].
    1-2: repeat split; auto.
    split; [intros Hm; apply has_affs_fields_insert, Hf1, Hm|].
    split; rewrite lookup_insert_ne by role_ne; assumption. }
  destruct wd as [m2|f|p|]; try discriminate.
  destruct (A2 m2 eq_refl) as (Hf2 & Hi2 & Hu2).
  intros [= <- <-].
  split; [intros Hm; apply has_affs_fields_insert, Hf2, Hm|].
  split; [destruct (at_key profile "is_bot"); auto; destruct (0 <? n)%Z; auto|].
  split; [rewrite lookup_insert_ne by role_ne; exact Hi2|].
  split; [rewrite lookup_insert_ne by role_ne; exact Hu2|].
  rewrite lookup_insert_eq. eexists. split; [reflexivity|].
  destruct (at_key profile "gender"); discriminate.
Qed.

(** The run of [IdenityAffsData] for an identity with a uuid. *)
Lemma IdenityAffsData_matched (ds : DS) (identity : gmap string value) (dt : Time)
    (role : string) (c c1 c2 : Affs.Caches) (id uuid : value)
    (item : gmap string value) :
  Affs.AffsIdentityIDs ds identity c = (Done (id, uuid), c1) ->
  Affs.is_nil uuid = false ->
  Affs.IdenityAffsData ds identity dt role c = (Done item, c2) ->
  exists (outItem : gmap string value) (isBot : Z) (org : string) (orgs : list string)
         (c3 : Affs.Caches),
    has_affs_fields role outItem
    /\ (isBot = 0%Z \/ isBot = 1%Z)
    /\ outItem !! (role +:+ "_id") = Some id
    /\ outItem !! (role +:+ "_uuid") = Some uuid
    /\ Affs.GetEnrollmentsSingle ds (Affs.as_string uuid).1 dt c1 = (Done org, c3)
    /\ Affs.GetEnrollmentsMulti ds (Affs.as_string uuid).1 dt c3 = (Done orgs, c2)
    /\ item = <[ role +:+ MultiOrgNames := VStrings orgs ]> (
              <[ role +:+ "_org_name" := VString org ]> (
              <[ role +:+ "_bot" := VInt isBot ]> outItem)).
Proof.
  intros Hids Hnil. unfold Affs.IdenityAffsData.
  rewrite (bind_Done _ _ _ _ _ Hids). cbn [fst snd]. rewrite Hnil.
  set (out0 := <[ role +:+ "_domain" := _ ]> _).
  assert (H0f : has_affs_fields role out0
                /\ out0 !! (role +:+ "_id") = Some id
                /\ out0 !! (role +:+ "_uuid") = Some uuid).
  { unfold out0. split.
    - do 5 apply has_affs_fields_insert. apply has_affs_fields_empty.
    - split.
      + rewrite !lookup_insert_ne by role_ne. apply lookup_insert_eq.
      + rewrite !lookup_insert_ne by role_ne. apply lookup_insert_eq. }
  destruct H0f as (Hf0 & Hi0 & Hu0).
  intros Hrun. apply bind_inv in Hrun.
  destruct Hrun as ([out1 isBot] & c1' & Hprof & Hrun).
  assert (Hp : c1' = c1 /\ has_affs_fields role out1 /\ (isBot = 0%Z \/ isBot = 1%Z)
               /\ out1 !! (role +:+ "_id") = Some id
               /\ out1 !! (role +:+ "_uuid") = Some uuid).
  { destruct (FindObject "profiles" "uuid" _ _) as [[profile|]|e].
    - injection Hprof as Hw <-.
      destruct (with_profile_Done role profile out0 out1 isBot Hw)
        as (Hf & Hb & Hi & Hu & _).
      split; [reflexivity|]. split; [apply Hf, Hf0|]. split; [exact Hb|].
      split; congruence.
    - unfold ret in Hprof. injection Hprof as <- <- <-. repeat split; auto.
    - unfold ret in Hprof. injection Hprof as <- <- <-. repeat split; auto. }
  destruct Hp as (-> & Hf1 & Hb & Hi1 & Hu1).
  apply bind_inv in Hrun. destruct Hrun as (org & c3 & Hs & Hrun).
  apply bind_inv in Hrun. destruct Hrun as (orgs & c4 & Hm & Hrun).
  unfold ret in Hrun. injection Hrun as <- <-.
  eexists _, isBot, org, orgs, c3.
  split; [|split; [exact Hb|split; [|split; [|split; [exact Hs|split;
    [exact Hm|reflexivity]]]]]].
  - destruct (out1 !! (role +:+ "_gender")) as [[]|]; try exact Hf1;
      repeat apply has_affs_fields_insert; exact Hf1.
  - destruct (out1 !! (role +:+ "_gender")) as [[]|]; try exact Hi1;
      rewrite !lookup_insert_ne by role_ne; exact Hi1.
  - destruct (out1 !! (role +:+ "_gender")) as [[]|]; try exact Hu1;
      rewrite !lookup_insert_ne by role_ne; exact Hu1.
Qed.

(** Whatever the database holds, the item that [IdenityAffsData] returns
    has the ten affiliation fields of the role: none is a missing key. *)
Theorem IdenityAffsData_all_fields (ds : DS) (identity : gmap string value) (dt : Time)
    (role : string) (c c2 : Affs.Caches) (item : gmap string value) :
  Affs.IdenityAffsData ds identity dt role c = (Done item, c2) ->
  Forall (fun suffix => is_Some (item !! (role +:+ suffix))) affs_suffixes.
Proof.
  intros Hrun. pose proof Hrun as Hrun'. unfold Affs.IdenityAffsData in Hrun'.
  apply bind_inv in Hrun'. destruct Hrun' as ([id uuid] & c1 & Hids & Hrest).
  cbn [fst snd] in Hrest. destruct (Affs.is_nil uuid) eqn:Hnil.
  - unfold ret in Hrest. injection Hrest as <- <-. apply has_affs_fields_empty.
  - destruct (IdenityAffsData_matched ds identity dt role c c1 c2 id uuid item
                Hids Hnil Hrun)
      as (outItem & isBot & org & orgs & c3 & Hf & _ & _ & _ & _ & _ & ->).
    repeat apply has_affs_fields_insert. exact Hf.
Qed.

(** For an identity that the database knows (its uuid is not nil), in a
    process whose cache of enrollments holds empty lists only: the item has
    the id and the uuid of the identity, the organization [Unknown], the
    list of organizations with [Unknown] alone, and 0 or 1 as the bot
    flag. *)
Theorem IdenityAffsData_known_identity (ds : DS) (identity : gmap string value)
    (dt : Time) (role : string) (c c1 c2 : Affs.Caches) (id uuid : value)
    (item : gmap string value) :
  Affs.AffsIdentityIDs ds identity c = (Done (id, uuid), c1) ->
  Affs.is_nil uuid = false ->
  rolls_empty c1 ->
  Affs.IdenityAffsData ds identity dt role c = (Done item, c2) ->
  item !! (role +:+ "_id") = Some id
  /\ item !! (role +:+ "_uuid") = Some uuid
  /\ item !! (role +:+ "_org_name") = Some (VString Unknown)
  /\ item !! (role +:+ MultiOrgNames) = Some (VStrings [Unknown])
  /\ (item !! (role +:+ "_bot") = Some (VInt 0) \/ item !! (role +:+ "_bot") = Some (VInt 1))
  /\ rolls_empty c2.
Proof.
  intros Hids Hnil Hrolls Hrun.
  destruct (IdenityAffsData_matched ds identity dt role c c1 c2 id uuid item
              Hids Hnil Hrun)
    as (outItem & isBot & org & orgs & c3 & Hf & Hb & Hi & Hu & Hs & Hm & ->).
  destruct (GetEnrollments_both_unknown ds (Affs.as_string uuid).1 dt c1 Hrolls)
    as (c3' & _ & Hs' & Hc3 & _).
  rewrite Hs' in Hs. injection Hs as <- <-.
  destruct (GetEnrollments_both_unknown ds (Affs.as_string uuid).1 dt c3' Hc3)
    as (_ & c2' & _ & _ & Hm' & Hc2).
  rewrite Hm' in Hm. injection Hm as <- <-.
  split; [rewrite !lookup_insert_ne by role_ne; exact Hi|].
  split; [rewrite !lookup_insert_ne by role_ne; exact Hu|].
  split; [rewrite lookup_insert_ne by role_ne; apply lookup_insert_eq|].
  split; [apply lookup_insert_eq|].
  split; [|exact Hc2].
  rewrite !lookup_insert_ne by role_ne. rewrite lookup_insert_eq.
  destruct Hb as [-> | ->]; [left|right]; reflexivity.
Qed.

(** An identity that is not in the cache and that the database knows. *)
Lemma AffsIdentityIDs_found (ds : DS) (identity found : gmap string value)
    (c : Affs.Caches) :
  Name ds <> "" ->
  Affs.identityCache c = ∅ ->
  is_Some (identity !! "name") -> Affs.is_nil (at_key identity "name") = false ->
  (forall id fields, FindObject "identities" "id" id fields = inl (Some found)) ->
  exists c1 : Affs.Caches,
    Affs.AffsIdentityIDs ds identity c
    = (Done (at_key found "id", at_key found "uuid"), c1)
    /\ Affs.rollsCache c1 = Affs.rollsCache c.
Proof.
  intros Hname Hcache Hn Hnn Hdb. unfold Affs.AffsIdentityIDs.
  rewrite Hnn, andb_false_r. cbn [andb].
  destruct (Affs.as_string (at_key identity "email")) as [sEmail okE].
  destruct (Affs.as_string (at_key identity "name")) as [sName okN].
  destruct (Affs.as_string (at_key identity "username")) as [sUsername okU].
  rewrite Hcache, lookup_empty.
  set (args := [Name ds; if okE then sEmail else Nil; if okN then sName else Nil;
                if okU then sUsername else Nil]).
  assert (Hdone : exists h uc, UuidGo.UUIDAffs (Affs.uuidsCacheAffs c) args = (Done h, uc)).
  { destruct (Affs.uuidsCacheAffs c !! Join args ":") as [h|] eqn:Hk.
    - exists h, (Affs.uuidsCacheAffs c). apply UuidGo_UUIDAffs_hit, Hk.
    - destruct (UuidGo_UUIDAffs_miss _ args Hk Hname) as (h & _ & Hrun).
      eexists _, _. exact Hrun. }
  destruct Hdone as (h & uc & ->). rewrite Hdb. eexists. split; reflexivity.
Qed.

Lemma GetEnrollments_Done (ds : DS) (uuid : string) (dt : Time) (c : Affs.Caches) :
  (exists org c', Affs.GetEnrollmentsSingle ds uuid dt c = (Done org, c'))
  /\ (exists orgs c', Affs.GetEnrollmentsMulti ds uuid dt c = (Done orgs, c')).
Proof.
  unfold Affs.GetEnrollmentsSingle, Affs.GetEnrollmentsMulti, Affs.GetEnrollments, bind.
  split.
  - destruct (Affs.rollsCache c !! _) as [[|o os]|]; eexists _, _; reflexivity.
  - destruct (Affs.rollsCache c !! _) as [[|o os]|]; eexists _, _; reflexivity.
Qed.

(** [IdenityAffsData] returns for an identity with a uuid and without a
    profile. *)
Lemma IdenityAffsData_known_runs (ds : DS) (identity : gmap string value) (dt : Time)
    (role : string) (c c1 : Affs.Caches) (id uuid : value) :
  Affs.AffsIdentityIDs ds identity c = (Done (id, uuid), c1) ->
  Affs.is_nil uuid = false ->
  (forall suuid fields, FindObject "profiles" "uuid" suuid fields = inl None) ->
  exists (item : gmap string value) (c2 : Affs.Caches),
    Affs.IdenityAffsData ds identity dt role c = (Done item, c2).
Proof.
  intros Hids Hnil Hdb. unfold Affs.IdenityAffsData.
  rewrite (bind_Done _ _ _ _ _ Hids). cbn [fst snd]. rewrite Hnil, Hdb.
  unfold ret at 1. unfold bind at 1. cbv beta iota.
  destruct (GetEnrollments_Done ds (Affs.as_string uuid).1 dt c1)
    as ((org & c3 & Hs) & _).
  rewrite (bind_Done _ _ _ _ _ Hs).
  destruct (GetEnrollments_Done ds (Affs.as_string uuid).1 dt c3)
    as (_ & (orgs & c4 & Hm)).
  rewrite (bind_Done _ _ _ _ _ Hm).
  unfold ret. eexists _, _. reflexivity.
Qed.
End AffsDataProperties.

Lemma IdenityAffsData_known_identity_witness :
  exists (item : gmap string value) (c2 : Affs.Caches),
    @Affs.IdenityAffsData Unicode_excerpt (helpers_sample true) one_identity_db
      ds_sample identity_sample 100%Z "reporter" no_caches = (Done item, c2)
    /\ item !! "reporter_uuid" = Some (VString "u1")
    /\ item !! "reporter_org_name" = Some (VString Unknown).
Proof.
  destruct (@AffsIdentityIDs_found Unicode_excerpt one_identity_db ds_sample
              identity_sample
              (<[ "id" := VString "i1" ]> (<[ "uuid" := VString "u1" ]> ∅)) no_caches)
    as (c1 & Hids & Hrolls);
    [discriminate|reflexivity|eexists; reflexivity|reflexivity|reflexivity|].
  destruct (@IdenityAffsData_known_runs Unicode_excerpt (helpers_sample true)
              one_identity_db ds_sample identity_sample 100%Z "reporter" no_caches c1
              _ _ Hids eq_refl) as (item & c2 & Hrun); [reflexivity|].
  exists item, c2. split; [exact Hrun|].
  destruct (@IdenityAffsData_known_identity Unicode_excerpt (helpers_sample true)
              one_identity_db ds_sample identity_sample 100%Z "reporter" no_caches c1 c2
              _ _ item Hids eq_refl) as (_ & Hu & Ho & _);
    [unfold rolls_empty; rewrite Hrolls; apply map_Forall_empty|exact Hrun|].
  split; [exact Hu|exact Ho].
Defined.

Lemma IdenityAffsData_all_fields_witness :
  exists (item : gmap string value) (c2 : Affs.Caches),
    @Affs.IdenityAffsData Unicode_excerpt (helpers_sample true) one_identity_db
      ds_sample identity_sample 100%Z "reporter" no_caches = (Done item, c2)
    /\ is_Some (item !! "reporter_gender_acc").
Proof.
  destruct (@AffsIdentityIDs_found Unicode_excerpt one_identity_db ds_sample
              identity_sample
              (<[ "id" := VString "i1" ]> (<[ "uuid" := VString "u1" ]> ∅)) no_caches)
    as (c1 & Hids & Hrolls);
    [discriminate|reflexivity|eexists; reflexivity|reflexivity|reflexivity|].
  destruct (@IdenityAffsData_known_runs Unicode_excerpt (helpers_sample true)
              one_identity_db ds_sample identity_sample 100%Z "reporter" no_caches c1
              _ _ Hids eq_refl) as (item & c2 & Hrun); [reflexivity|].
  exists item, c2. split; [exact Hrun|].
  pose proof (@IdenityAffsData_all_fields Unicode_excerpt (helpers_sample true)
                one_identity_db ds_sample identity_sample 100%Z "reporter" no_caches c2
                item Hrun) as Hall.
  unfold affs_suffixes in Hall.
  do 6 (apply Forall_cons in Hall as [_ Hall]).
  apply Forall_cons in Hall as [Hacc _]. exact Hacc.
Defined.

Section RoleProperties.
Context `{Unicode} `{Helpers} `{IdentityDB}.

Lemma GetRoleIdentity_fields (item : gmap string value) (role : string)
    (fields : gmap string value) :
  Dig_keys item ["data"; "fields"] = (VMap fields, true) ->
  Affs.GetRoleIdentity item role
  = Done (match fields !! role with
          | Some user => role_identity user
          | None => ∅
          end).
Proof.
  unfold Affs.GetRoleIdentity, Dig. intros Hd. rewrite Hd. cbn [snd negb andb fst].
  change (Dig_keys fields [role])
    with (match fields !! role with
          | Some v => (v, true)
          | None => (VNil, false)
          end).
  destruct (fields !! role) as [user|]; [|reflexivity].
  cbn [snd negb andb fst]. unfold role_identity.
  destruct user; try reflexivity.
  cbn [Dig_keys]. unfold at_key.
  destruct (m !! "displayName"), (m !! "name"), (m !! "emailAddress"); reflexivity.
Qed.

(** The identity of a role of an issue. The run stops when the item has
    no [data.fields]. A role that is not among the fields has the empty
    identity; a role that is there has an identity of three fields, the
    name, the user name and the email, read from [displayName], [name]
    and [emailAddress], each nil when the user has no such field or is
    not a map (so also for a role that holds null). *)
Theorem GetRoleIdentity_identity (item : gmap string value) (role : string) :
  ((Dig_keys item ["data"; "fields"]).2 = false ->
   Affs.GetRoleIdentity item role = Fatal "cannot dig %+v in %s")
  /\ (forall fields : gmap string value,
        Dig_keys item ["data"; "fields"] = (VMap fields, true) ->
        Affs.GetRoleIdentity item role
        = Done (match fields !! role with
                | Some user => role_identity user
                | None => ∅
                end)).
Proof.
  split.
  - unfold Affs.GetRoleIdentity, Dig. intros Hd. rewrite Hd. reflexivity.
  - intros fields. apply GetRoleIdentity_fields.
Qed.

Lemma AffsIdentityIDs_all_nil (ds : DS) (c : Affs.Caches) :
  Affs.AffsIdentityIDs ds (role_identity VNil) c = (Done (VNil, VNil), c).
Proof. reflexivity. Qed.

(** The affiliation fields of the roles of an issue. A role that is not
    among the fields of the issue gets no affiliation field at all. A role
    that is there and holds null (an issue without assignee) gets the ten
    fields of the empty item with the marker of an undefined value, without
    any access to the database or to the caches. *)
Theorem AffsItems_absent_and_null_roles (ds : DS) (item fields : gmap string value)
    (sDate : string) (dt : Time) (c : Affs.Caches) :
  Dig_keys item ["data"; "fields"] = (VMap fields, true) ->
  TimeParseES sDate = inl dt ->
  (forall roles : list string,
     Forall (fun role => fields !! role = None) roles ->
     Affs.AffsItems ds item roles (VString sDate) c = (Done (∅, None), c))
  /\ (forall role : string,
        fields !! role = Some VNil ->
        Affs.AffsItems ds item [role] (VString sDate) c
        = (Done (Affs.EmptyAffsItem role true, None), c)).
Proof.
  intros Hd Hdt. unfold Affs.AffsItems. rewrite Hdt.
  pose proof (fun role => GetRoleIdentity_fields item role fields Hd) as Hg.
  split.
  - intros roles Hroles.
    assert (Hr : Affs.AffsItems_roles ds item dt roles ∅ c = (Done ∅, c)).
    { induction Hroles as [|role rest Hrole _ IH]; [reflexivity|].
      cbn [Affs.AffsItems_roles]. unfold bind at 1. rewrite (Hg role), Hrole.
      exact IH. }
    rewrite (bind_Done _ _ _ _ _ Hr). reflexivity.
  - intros role Hrole.
    assert (Hr : Affs.AffsItems_roles ds item dt [role] ∅ c
                 = (Done (Affs.EmptyAffsItem role true), c)).
    { cbn [Affs.AffsItems_roles]. unfold bind at 1. rewrite (Hg role), Hrole.
      change (size (role_identity VNil) =? 0)%nat with false. cbv iota.
      assert (Hdata : Affs.IdenityAffsData ds (role_identity VNil) dt role c
                      = (Done (Affs.EmptyAffsItem role true), c)).
      { unfold Affs.IdenityAffsData.
        rewrite (bind_Done _ _ _ _ _ (AffsIdentityIDs_all_nil ds c)). reflexivity. }
      rewrite (bind_Done _ _ _ _ _ Hdata). unfold ret.
      rewrite (right_id_L ∅ (∪)). reflexivity. }
    rewrite (bind_Done _ _ _ _ _ Hr). reflexivity.
Qed.
End RoleProperties.

Lemma AffsItems_absent_and_null_roles_witness :
  @Affs.AffsItems Unicode_excerpt (helpers_sample true) empty_db ds_sample raw_unassigned
    ["reporter"; "creator"] (VString "D1") no_caches = (Done (∅, None), no_caches)
  /\ @Affs.AffsItems Unicode_excerpt (helpers_sample true) empty_db ds_sample
       raw_unassigned ["assignee"] (VString "D1") no_caches
     = (Done (Affs.EmptyAffsItem "assignee" true, None), no_caches).
Proof.
  destruct (@AffsItems_absent_and_null_roles Unicode_excerpt (helpers_sample true)
              empty_db ds_sample raw_unassigned (<[ "assignee" := VNil ]> ∅) "D1" 100%Z
              no_caches eq_refl eq_refl) as [Habsent Hnull].
  split.
  - apply Habsent. repeat constructor.
  - apply Hnull. reflexivity.
Defined.

Section AuthorProperties.

Lemma disjoint_keys_spec (author : string) (suffs : list string) :
  disjoint_keys author suffs = true ->
  forall s s', s ∈ suffs -> s' ∈ suffs -> "author" +:+ s <> author +:+ s'.
Proof.
  unfold disjoint_keys. rewrite forallb_forall. intros Hd s s' Hs Hs'.
  apply list_elem_of_In in Hs, Hs'. specialize (Hd s Hs).
  rewrite forallb_forall in Hd. specialize (Hd s' Hs').
  apply negb_true_iff, String.eqb_neq in Hd. exact Hd.
Qed.

(** The loop of [EnrichItem] over the suffixes, when no field written is
    a field read. *)
Lemma author_fold (author : string) (suffs : list string) :
  forall m0 : gmap string value,
    (forall s s', s ∈ suffs -> s' ∈ suffs -> "author" +:+ s <> author +:+ s') ->
    let m' := foldl (fun rich suff =>
                       <[ "author" +:+ suff := at_key rich (author +:+ suff) ]> rich)
                    m0 suffs in
    (forall k, (forall s, s ∈ suffs -> k <> "author" +:+ s) -> m' !! k = m0 !! k)
    /\ (NoDup suffs ->
        forall s, s ∈ suffs -> m' !! ("author" +:+ s) = Some (at_key m0 (author +:+ s))).
Proof.
  induction suffs as [|s0 rest IH]; intros m0 Hd m'.
  - split; [reflexivity|]. intros _ s Hs. inversion Hs.
  - subst m'. cbn [foldl].
    set (m1 := <[ "author" +:+ s0 := at_key m0 (author +:+ s0) ]> m0).
    destruct (IH m1) as [IH1 IH2].
    { intros s s' Hs Hs'. apply Hd; apply elem_of_cons; right; assumption. }
    split.
    + intros k Hk. rewrite IH1.
      * unfold m1. apply lookup_insert_ne, not_eq_sym, Hk, elem_of_cons. left; reflexivity.
      * intros s Hs. apply Hk, elem_of_cons. right; exact Hs.
    + intros Hnd s Hs. apply NoDup_cons in Hnd as [Hnotin Hnd].
      apply elem_of_cons in Hs as [-> | Hs].
      * rewrite IH1; [unfold m1; apply lookup_insert_eq|].
        intros s Hs Heq. apply (inj (String.app "author")) in Heq. subst s.
        contradiction.
      * rewrite (IH2 Hnd s Hs). f_equal. unfold at_key, m1.
        rewrite lookup_insert_ne; [reflexivity|].
        apply Hd; apply elem_of_cons; [left; reflexivity|right; exact Hs].
Qed.

(** The affiliation block of [EnrichItem] for the author of one of the
    three roles: the fields of the affiliation items go into the rich
    document, where they win over the fields that are there; each of the
    nine [author_...] fields is the field of the role of the author (nil
    when the role has none); the list of organizations of the role is there
    at the end; [author_multi_org_names] is not written. *)
Theorem EnrichItem_affs_author (rich affsItems : gmap string value) (author : string) :
  author ∈ jira_roles ->
  let rich' := Affs.EnrichItem_affs rich affsItems author in
  (forall suff, suff ∈ author_suffixes ->
     rich' !! ("author" +:+ suff) = Some (at_key (affsItems ∪ rich) (author +:+ suff)))
  /\ (forall k v, affsItems !! k = Some v -> HasPrefix k "author_" = false ->
        rich' !! k = Some v)
  /\ is_Some (rich' !! (author +:+ MultiOrgNames))
  /\ rich' !! "author_multi_org_names" = (affsItems ∪ rich) !! "author_multi_org_names".
Proof.
  intros Hin rich'. subst rich'. unfold Affs.EnrichItem_affs.
  set (m := affsItems ∪ rich).
  change ["_id"; "_uuid"; "_name"; "_user_name"; "_domain"; "_gender";
          "_gender_acc"; "_org_name"; "_bot"] with author_suffixes.
  assert (Hd : disjoint_keys author author_suffixes = true
               /\ author +:+ MultiOrgNames <> "author_multi_org_names"
               /\ forall s, s ∈ author_suffixes ->
                    author +:+ MultiOrgNames <> "author" +:+ s).
  { unfold jira_roles in Hin. rewrite !elem_of_cons in Hin.
    destruct Hin as [-> | [-> | [-> | Hin]]]; [| | |inversion Hin];
      (split; [vm_compute; reflexivity|]);
      (split; [intros Heq; vm_compute in Heq; discriminate Heq|]);
      intros s Hs; unfold author_suffixes in Hs; rewrite !elem_of_cons in Hs;
      repeat (destruct Hs as [-> | Hs];
              [intros Heq; vm_compute in Heq; discriminate Heq|]);
      inversion Hs. }
  destruct Hd as (Hd & Hk1 & Hk2).
  destruct (author_fold author author_suffixes m (disjoint_keys_spec _ _ Hd))
    as [Hother Hauthor].
  set (m9 := foldl _ m author_suffixes) in *.
  assert (Hnd : NoDup author_suffixes).
  { apply (bool_decide_unpack _). vm_compute. reflexivity. }
  specialize (Hauthor Hnd).
  assert (Hplain : forall k, HasPrefix k "author_" = false -> m9 !! k = m !! k).
  { intros k Hk. apply Hother. intros s Hs ->.
    unfold author_suffixes in Hs. rewrite !elem_of_cons in Hs.
    repeat (destruct Hs as [-> | Hs]; [discriminate Hk|]). inversion Hs. }
  assert (Hmulti : m9 !! "author_multi_org_names" = m !! "author_multi_org_names").
  { apply Hother. intros s Hs. unfold author_suffixes in Hs. rewrite !elem_of_cons in Hs.
    repeat (destruct Hs as [-> | Hs]; [discriminate|]). inversion Hs. }
  destruct (m9 !! (author +:+ MultiOrgNames)) as [orgs|] eqn:Horgs.
  - split; [exact Hauthor|].
    split; [|split; [rewrite Horgs; eexists; reflexivity|exact Hmulti]].
    intros k v Hk Hp. rewrite (Hplain k Hp). unfold m.
    apply lookup_union_Some_l, Hk.
  - split; [|split; [|split]].
    + intros suff Hs. rewrite lookup_insert_ne by (apply Hk2, Hs). apply Hauthor, Hs.
    + intros k v Hk Hp. destruct (decide (author +:+ MultiOrgNames = k)) as [<-|Hne].
      * rewrite (Hplain _ Hp) in Horgs. unfold m in Horgs.
        rewrite (lookup_union_Some_l _ _ _ _ Hk) in Horgs. discriminate Horgs.
      * rewrite lookup_insert_ne by exact Hne. rewrite (Hplain k Hp). unfold m.
        apply lookup_union_Some_l, Hk.
    + rewrite lookup_insert_eq. eexists; reflexivity.
    + rewrite lookup_insert_ne by exact Hk1. exact Hmulti.
Qed.
End AuthorProperties.

Lemma EnrichItem_affs_author_witness :
  let rich' := Affs.EnrichItem_affs ∅ (Affs.EmptyAffsItem "reporter" true) "reporter" in
  rich' !! "author_org_name" = Some (VString "-- UNDEFINED --")
  /\ rich' !! "author_multi_org_names" = None.
Proof.
  intros rich'.
  destruct (EnrichItem_affs_author ∅ (Affs.EmptyAffsItem "reporter" true) "reporter")
    as (Hauthor & _ & _ & Hmulti).
  { unfold jira_roles. rewrite !elem_of_cons. right. left. reflexivity. }
  split.
  - unfold rich'. change "author_org_name" with ("author" +:+ "_org_name").
    rewrite Hauthor
      by (unfold author_suffixes; rewrite !elem_of_cons; do 7 right; left; reflexivity).
    rewrite (right_id_L ∅ (∪)).
    destruct (EmptyAffsItem_fields "reporter" true)
      as (_ & _ & _ & _ & _ & _ & _ & T8 & _).
    cbv zeta in T8. unfold at_key. rewrite T8. reflexivity.
  - unfold rich'. rewrite Hmulti, (right_id_L ∅ (∪)).
    unfold Affs.EmptyAffsItem. rewrite !lookup_insert_ne by discriminate.
    apply lookup_empty.
Defined.

(* ===================================================================== *)
(** ** The callbacks of [EnrichItems] *)
(* ===================================================================== *)

Section CallbackProperties.
Context `{Remote}.

Lemma EnrichItems_itemsFunc_sources (items : list value) :
  forall docs,
    match EnrichItems_itemsFunc items docs with
    | Done (e, docs') =>
        docs' = docs ++ sources items
        /\ (e = None <-> Forall has_source items)
    | Panic _ => ~ Forall is_map items
    | _ => False
    end.
Proof.
  induction items as [|item rest IH]; intros docs.
  - simpl. rewrite app_nil_r. split; [reflexivity|]. split; [constructor|reflexivity].
  - destruct item; try (simpl; intros Hf; apply Forall_cons in Hf as [(m & Hm) _];
                        discriminate Hm).
    cbn [EnrichItems_itemsFunc sources]. destruct (m !! "_source") as [doc|] eqn:Hs.
    + specialize (IH (docs ++ [doc])).
      destruct (EnrichItems_itemsFunc rest (docs ++ [doc])) as [[e docs']|f|p|];
        try exact IH.
      * destruct IH as [-> IH]. split; [rewrite <- app_assoc; reflexivity|].
        rewrite IH. split.
        -- intros Hf. constructor; [exists m, doc; split; [reflexivity|exact Hs]|exact Hf].
        -- intros Hf. apply Forall_cons in Hf as [_ Hf]. exact Hf.
      * intros Hf. apply IH. apply Forall_cons in Hf as [_ Hf]. exact Hf.
    + rewrite app_nil_r. split; [reflexivity|]. split; [discriminate|].
      intros Hf. apply Forall_cons in Hf as [(m' & doc & [= <-] & Hs') _]. congruence.
Qed.

(** [itemsFunc] of [EnrichItems] adds to the buffer the [_source] of the
    items of the page, in their order, up to the first item without one,
    and returns an error exactly when there is such an item: no document is
    dropped, repeated or reordered, and the documents before the one that
    fails stay in the buffer. It panics only on an item that is not a map. *)
Theorem EnrichItems_itemsFunc_buffer (items docs : list value) :
  Forall is_map items ->
  exists (e : option error),
    EnrichItems_itemsFunc items docs = Done (e, docs ++ sources items)
    /\ (e = None <-> Forall has_source items)
    /\ (Forall has_source items -> length (sources items) = length items).
Proof.
  intros Hmaps. pose proof (EnrichItems_itemsFunc_sources items docs) as Hs.
  destruct (EnrichItems_itemsFunc items docs) as [[e docs']|f|p|];
    [|contradiction|contradiction|contradiction].
  destruct Hs as [-> He]. exists e. split; [reflexivity|]. split; [exact He|].
  clear. induction 1 as [|item rest (m & doc & -> & Hs) _ IH]; [reflexivity|].
  cbn [sources]. rewrite Hs. cbn [length]. f_equal. exact IH.
Qed.

Lemma enrich_authors_adds (EnrichItem : EnrichItem_t) (dbConfigured : bool)
    (item : gmap string value) (authors : list string) :
  forall (outDocs : list value) (w w' : world) (e : option error) (out : list value),
    enrich_authors EnrichItem dbConfigured item authors outDocs w = (Done (e, out), w') ->
    exists added : list value,
      out = outDocs ++ added
      /\ match e with
         | None => length added = length authors
         | Some _ => (length added < length authors)%nat
         end.
Proof.
  induction authors as [|author rest IH]; intros outDocs w w' e out Hrun.
  - unfold enrich_authors, ret in Hrun. injection Hrun as <- <- _.
    exists []. rewrite app_nil_r. split; reflexivity.
  - cbn [enrich_authors] in Hrun. apply bind_inv in Hrun.
    destruct Hrun as ([rich [e1|]] & w1 & _ & Hrun).
    + unfold ret in Hrun. injection Hrun as <- <- _.
      exists []. rewrite app_nil_r. split; [reflexivity|]. cbn [length]. lia.
    + destruct (IH _ _ _ _ _ Hrun) as (added & -> & Hlen).
      exists (VMap rich :: added). split; [rewrite <- app_assoc; reflexivity|].
      destruct e; cbn [length]; lia.
Qed.

Lemma enrich_docs_adds (EnrichItem : EnrichItem_t) (dbConfigured : bool)
    (docs : list value) :
  forall (outDocs : list value) (w w' : world) (e : option error) (out : list value),
    enrich_docs EnrichItem dbConfigured docs outDocs w = (Done (e, out), w') ->
    exists added : list value,
      out = outDocs ++ added
      /\ match e with
         | None => length added = (3 * length docs)%nat
         | Some _ => (length added < 3 * length docs)%nat
         end.
Proof.
  induction docs as [|doc rest IH]; intros outDocs w w' e out Hrun.
  - unfold enrich_docs, ret in Hrun. injection Hrun as <- <- _.
    exists []. rewrite app_nil_r. split; reflexivity.
  - cbn [enrich_docs] in Hrun. destruct doc;
      try (unfold ret in Hrun; injection Hrun as <- <- _;
           exists []; rewrite app_nil_r; split; [reflexivity|cbn [length]; lia]).
    apply bind_inv in Hrun. destruct Hrun as ([e1 out1] & w1 & Hauthors & Hrun).
    destruct (enrich_authors_adds _ _ _ _ _ _ _ _ _ Hauthors) as (added1 & -> & Hlen1).
    destruct e1 as [e1|].
    + unfold ret in Hrun. injection Hrun as <- <- _.
      exists added1. split; [reflexivity|]. cbn [length] in *. lia.
    + destruct (IH _ _ _ _ _ Hrun) as (added & -> & Hlen).
      exists (added1 ++ added). split; [rewrite <- app_assoc; reflexivity|].
      rewrite length_app. destruct e; cbn [length] in *; lia.
Qed.

(** [enrichFunc] of [EnrichItems] appends rich documents to the output and
    never touches what is there. When it returns nil it has added exactly
    three rich documents for every buffered document and has emptied the
    buffer. When it returns an error the buffer is as it was, and fewer than
    three documents per buffered document were added. *)
Theorem EnrichItems_enrichFunc_three_per_doc (EnrichItem : EnrichItem_t)
    (dbConfigured : bool) (docs outDocs docs' outDocs' : list value)
    (e : option error) (w w' : world) :
  EnrichItems_enrichFunc EnrichItem dbConfigured docs outDocs w
  = (Done (e, docs', outDocs'), w') ->
  exists added : list value,
    outDocs' = outDocs ++ added
    /\ match e with
       | None => docs' = [] /\ length added = (3 * length docs)%nat
       | Some _ => docs' = docs /\ (length added < 3 * length docs)%nat
       end.
Proof.
  unfold EnrichItems_enrichFunc. intros Hrun. apply bind_inv in Hrun.
  destruct Hrun as ([e1 out1] & w1 & Hdocs & Hrun).
  destruct (enrich_docs_adds _ _ _ _ _ _ _ _ Hdocs) as (added & -> & Hlen).
  destruct e1 as [e1|]; unfold ret in Hrun; injection Hrun as <- <- <- _;
    exists added; (split; [reflexivity|]); split; [reflexivity|exact Hlen| |exact Hlen];
    reflexivity.
Qed.
End CallbackProperties.

Lemma EnrichItems_itemsFunc_buffer_witness :
  EnrichItems_itemsFunc
    [VMap (<[ "_source" := doc "a" ]> ∅); VMap (<[ "_id" := VString "b" ]> ∅);
     VMap (<[ "_source" := doc "c" ]> ∅)] [doc "z"]
  = Done (Some (OtherError "Missing _source in item %+v"), [doc "z"; doc "a"]).
Proof.
  destruct (EnrichItems_itemsFunc_buffer
              [VMap (<[ "_source" := doc "a" ]> ∅); VMap (<[ "_id" := VString "b" ]> ∅);
               VMap (<[ "_source" := doc "c" ]> ∅)] [doc "z"]) as (e & Hrun & _).
  { repeat constructor; eexists; reflexivity. }
  rewrite Hrun. vm_compute in Hrun. injection Hrun as <-. reflexivity.
Defined.

Lemma EnrichItems_enrichFunc_three_per_doc_witness :
  exists (outDocs' : list value) (w' : @world scripted),
    @EnrichItems_enrichFunc scripted EnrichItem_sample false [doc "a"; doc "b"] [] []
    = (Done (None, [], outDocs'), w')
    /\ length outDocs' = 6%nat.
Proof.
  eexists _, _. split; [reflexivity|].
  destruct (@EnrichItems_enrichFunc_three_per_doc scripted EnrichItem_sample false
              [doc "a"; doc "b"] [] [] _ None [] _ eq_refl) as (added & Hout & _ & Hlen).
  rewrite Hout. exact Hlen.
Defined.

(* ===================================================================== *)
(** ** The identities of an item and their upload *)
(* ===================================================================== *)

Section IdentityKeyProperties.
Context `{Unicode} `{Helpers}.

(** The cache of [AffsIdentityIDs] is keyed by the text of the email, the
    name and the user name joined by colons, with the empty text for a
    field that is not a string. Two identities with the same text share the
    entry: the second one gets the ids of the first without any lookup,
    whatever the database holds for it. *)
Theorem AffsIdentityIDs_shared_key (db db' : IdentityDB) (ds : DS)
    (identity identity' : gmap string value) (c c1 : Affs.Caches) (ids : value * value) :
  identity_key identity' = identity_key identity ->
  all_nil identity = false ->
  all_nil identity' = false ->
  @Affs.AffsIdentityIDs _ db ds identity c = (Done ids, c1) ->
  @Affs.AffsIdentityIDs _ db' ds identity' c1 = (Done ids, c1).
Proof.
  unfold Affs.AffsIdentityIDs, identity_key, all_nil. intros Hk -> ->.
  destruct (Affs.as_string (at_key identity "email")) as [sEmail okE].
  destruct (Affs.as_string (at_key identity "name")) as [sName okN].
  destruct (Affs.as_string (at_key identity "username")) as [sUsername okU].
  destruct (Affs.as_string (at_key identity' "email")) as [sEmail' okE'].
  destruct (Affs.as_string (at_key identity' "name")) as [sName' okN'].
  destruct (Affs.as_string (at_key identity' "username")) as [sUsername' okU'].
  cbn [fst] in Hk. rewrite Hk.
  set (k := sEmail +:+ ":" +:+ sName +:+ ":" +:+ sUsername).
  destruct (Affs.identityCache c !! k) as [ids0|] eqn:Hc.
  - intros [= <- <-]. rewrite Hc. reflexivity.
  - destruct (UuidGo.UUIDAffs (Affs.uuidsCacheAffs c) _) as [[id|f|p|] uc];
      try discriminate.
    intros [= <- <-]. cbn [Affs.identityCache]. rewrite lookup_insert_eq. reflexivity.
Qed.
End IdentityKeyProperties.

Lemma AffsIdentityIDs_shared_key_witness :
  exists c1 : Affs.Caches,
    @Affs.AffsIdentityIDs Unicode_excerpt empty_db ds_sample identity_sample no_caches
    = (Done (VNil, VNil), c1)
    /\ forall db' : IdentityDB,
         @Affs.AffsIdentityIDs Unicode_excerpt db' ds_sample identity_no_email c1
         = (Done (VNil, VNil), c1).
Proof.
  destruct (@AffsIdentityIDs_not_found Unicode_excerpt empty_db ds_sample identity_sample
              no_caches) as (c1 & Hids);
    [discriminate|reflexivity|reflexivity|].
  exists c1. split; [exact Hids|]. intros db'.
  apply (@AffsIdentityIDs_shared_key Unicode_excerpt empty_db db' ds_sample identity_sample
           identity_no_email no_caches c1 (VNil, VNil));
    [reflexivity|reflexivity|reflexivity|exact Hids].
Defined.

Section ItemIdentitiesProperties.

Lemma users_identities_grows (m : gmap string value) (fields : list string) :
  forall (s0 : gset identity3),
    exists s : gset identity3,
      users_identities m fields (Some s0) = Some s /\ s0 ⊆ s.
Proof.
  induction fields as [|field rest IH]; intros s0.
  - exists s0. split; [reflexivity|set_solver].
  - cbn [users_identities].
    destruct (m !! field) as [[| | | | | | | |f|]|]; try apply IH.
    destruct (user_identity f) as [identity [|]]; [|apply IH].
    cbn [default from_option Datatypes.id]. destruct (IH (s0 ∪ {[ identity ]})) as (s & Hs & Hsub).
    exists s. split; [exact Hs|set_solver].
Qed.

Lemma users_identities_has (m f : gmap string value) (fields : list string)
    (field : string) (ident : identity3) :
  In field fields ->
  m !! field = Some (VMap f) ->
  user_identity f = (ident, true) ->
  forall identities : option (gset identity3),
    exists s : gset identity3,
      users_identities m fields identities = Some s /\ ident ∈ s.
Proof.
  intros Hin Hf Hu. induction fields as [|field' rest IH]; [destruct Hin|].
  intros identities. cbn [users_identities].
  destruct Hin as [->|Hin].
  - rewrite Hf, Hu.
    destruct (users_identities_grows m rest (default ∅ identities ∪ {[ ident ]}))
      as (s & Hs & Hsub).
    exists s. split; [exact Hs|set_solver].
  - destruct (m !! field') as [[| | | | | | | |f'|]|]; try apply (IH Hin).
    destruct (user_identity f') as [identity [|]]; apply (IH Hin).
Qed.

Lemma comments_identities_grows (comments : list value) :
  forall (s0 : gset identity3),
    exists (s : gset identity3) (e : option error),
      comments_identities comments (Some s0) = (Some s, e) /\ s0 ⊆ s.
Proof.
  induction comments as [|comment rest IH]; intros s0.
  - exists s0, None. split; [reflexivity|set_solver].
  - cbn [comments_identities].
    destruct comment; try (eexists s0, _; split; [reflexivity|set_solver]).
    destruct (users_identities_grows m ["author"; "updateAuthor"] s0) as (s1 & -> & Hsub1).
    destruct (IH s1) as (s & e & Hs & Hsub). exists s, e. split; [exact Hs|set_solver].
Qed.

Lemma field_or_Nil_as_string (f : gmap string value) (k : string) :
  field_or_Nil f k
  = ((if (Affs.as_string (at_key f k)).2 then (Affs.as_string (at_key f k)).1 else Nil),
     (Affs.as_string (at_key f k)).2).
Proof.
  unfold field_or_Nil, at_key. destruct (f !! k) as [[]|]; reflexivity.
Qed.

Lemma is_nil_not_string (v : value) :
  Affs.is_nil v = true -> (Affs.as_string v).2 = false.
Proof. destruct v; try discriminate; reflexivity. Qed.

Lemma GetRoleIdentity_user (item data fields f : gmap string value) (role : string) :
  item !! "data" = Some (VMap data) ->
  data !! "fields" = Some (VMap fields) ->
  fields !! role = Some (VMap f) ->
  Affs.GetRoleIdentity item role = Done (role_identity (VMap f)).
Proof.
  intros Hd Hf Hr.
  rewrite (GetRoleIdentity_fields item role fields); [rewrite Hr; reflexivity|].
  cbn [Dig_keys]. rewrite Hd, Hf. reflexivity.
Qed.

Context `{Unicode} `{Helpers} `{IdentityDB}.

(** The identities that are uploaded and the identities that are looked
    up at enrichment agree. For a user of an issue (its assignee, reporter
    or creator) with at least one of the display name, the name and the
    email: [GetItemIdentities] returns the identity of the user among the
    identities to upload; and [AffsIdentityIDs], asked for the identity that
    [GetRoleIdentity] makes of this user, looks in the database for the row
    whose id is the uuid under which [uploadFunc] stores the identity. *)
Theorem upload_and_lookup_agree (ds : DS) (item data fields f : gmap string value)
    (role : string) (ident : identity3) (c : Affs.Caches) (id : string)
    (uc : gmap string string) :
  In role ["assignee"; "reporter"; "creator"] ->
  item !! "data" = Some (VMap data) ->
  data !! "fields" = Some (VMap fields) ->
  fields !! role = Some (VMap f) ->
  user_identity f = (ident, true) ->
  (exists (s : gset identity3) (e : option error),
     GetItemIdentities (VMap item) = Done (Some s, e) /\ ident ∈ s)
  /\ (Affs.identityCache c = ∅ ->
      identity_uuid (Affs.uuidsCacheAffs c) (Name ds) ident = (Done id, uc) ->
      exists (identity : gmap string value) (c1 : Affs.Caches),
        Affs.GetRoleIdentity item role = Done identity
        /\ Affs.AffsIdentityIDs ds identity c = (Done (found_ids id), c1)).
Proof.
  intros Hrole Hd Hf Hr Hu. split.
  - unfold GetItemIdentities, at_key. rewrite Hd. cbn [default from_option Datatypes.id]. rewrite Hf. cbn [default from_option Datatypes.id].
    destruct (users_identities_has fields f _ role ident Hrole Hr Hu None) as (s1 & -> & Hin).
    destruct (default VNil (data !! "comments_data"));
      try (exists s1; eexists; split; [reflexivity|exact Hin]).
    destruct (comments_identities_grows l s1) as (s & e & -> & Hsub).
    exists s, e. split; [reflexivity|exact (Hsub _ Hin)].
  - intros Hcache Hid. exists (role_identity (VMap f)).
    rewrite (GetRoleIdentity_user item data fields f role Hd Hf Hr).
    unfold user_identity in Hu.
    rewrite !field_or_Nil_as_string in Hu.
    unfold Affs.AffsIdentityIDs.
    assert (He : at_key (role_identity (VMap f)) "email" = at_key f "emailAddress")
      by reflexivity.
    assert (Hn : at_key (role_identity (VMap f)) "name" = at_key f "displayName")
      by reflexivity.
    assert (Hun : at_key (role_identity (VMap f)) "username" = at_key f "name")
      by reflexivity.
    rewrite He, Hn, Hun.
    injection Hu as <- Hany.
    destruct (Affs.is_nil (at_key f "emailAddress") && Affs.is_nil (at_key f "displayName")
              && Affs.is_nil (at_key f "name"))%bool eqn:Hnil.
    { apply andb_prop in Hnil as [Hnil A3]. apply andb_prop in Hnil as [A1 A2].
      apply is_nil_not_string in A1, A2, A3. rewrite A1, A2, A3 in Hany.
      discriminate Hany. }
    destruct (Affs.as_string (at_key f "emailAddress")) as [sEmail okE].
    destruct (Affs.as_string (at_key f "displayName")) as [sName okN].
    destruct (Affs.as_string (at_key f "name")) as [sUsername okU].
    rewrite Hcache, lookup_empty. cbn [fst snd] in Hid. unfold identity_uuid in Hid.
    rewrite Hid. eexists. split; reflexivity.
Qed.

(** [GetItemIdentities] panics on a document that is not a map or has no
    map under [data], and returns an error, with no identity, when [data]
    has no map under [fields]. When it has one and [comments_data] is no
    list, it returns an error together with the identities of the users of
    the issue. It never returns a map without identities: the result is nil
    or holds at least one. *)
Theorem GetItemIdentities_edges (doc : value) :
  ((forall d data, doc = VMap d -> d !! "data" <> Some (VMap data)) ->
   GetItemIdentities doc = Panic interface_conversion)
  /\ (forall d data : gmap string value,
        doc = VMap d -> d !! "data" = Some (VMap data) ->
        exists (identities : option (gset identity3)) (e : option error),
          GetItemIdentities doc = Done (identities, e)
          /\ identities <> Some ∅
          /\ ((forall fields, data !! "fields" <> Some (VMap fields)) ->
              identities = None /\ e <> None)
          /\ ((forall comments, data !! "comments_data" <> Some (VSlice comments)) ->
              e <> None)).
Proof.
  assert (Hnon : forall m fields identities,
             identities <> Some ∅ -> users_identities m fields identities <> Some ∅).
  { intros m fields. induction fields as [|field rest IH]; intros identities Hi; [exact Hi|].
    cbn [users_identities].
    destruct (m !! field) as [[| | | | | | | |f|]|]; try apply (IH _ Hi).
    destruct (user_identity f) as [identity [|]]; [|apply (IH _ Hi)].
    apply IH. intros [= He]. set_solver. }
  assert (Hnonc : forall comments identities,
             identities <> Some ∅ -> (comments_identities comments identities).1 <> Some ∅).
  { induction comments as [|comment rest IH]; intros identities Hi; [exact Hi|].
    cbn [comments_identities]. destruct comment; try exact Hi.
    apply IH, Hnon, Hi. }
  split.
  - intros Hno. unfold GetItemIdentities, at_key. destruct doc; try reflexivity.
    destruct (m !! "data") as [[| | | | | | | |data|]|] eqn:Hd; try reflexivity.
    destruct (Hno m data eq_refl Hd).
  - intros d data -> Hd. unfold GetItemIdentities, at_key. rewrite Hd. cbn [default from_option Datatypes.id].
    destruct (data !! "fields") as [[| | | | | | | |fields|]|] eqn:Hf; cbn [default from_option Datatypes.id];
      try (eexists None, _; split; [reflexivity|]; split; [discriminate|];
           split; [intros _; split; [reflexivity|discriminate]|intros _; discriminate]).
    set (ids := users_identities fields ["assignee"; "reporter"; "creator"] None).
    assert (Hids : ids <> Some ∅) by (apply Hnon; discriminate).
    destruct (data !! "comments_data") as [[| | | | | | |comments| |]|] eqn:Hc; cbn [default from_option Datatypes.id];
      try (eexists ids, _; split; [reflexivity|]; split; [exact Hids|];
           split; [intros Hn; destruct (Hn fields eq_refl)|intros _; discriminate]).
    destruct (comments_identities comments ids) as [identities e] eqn:Hci.
    exists identities, e. split; [reflexivity|]. split.
    + pose proof (Hnonc comments ids Hids) as Hn. rewrite Hci in Hn. exact Hn.
    + split; [intros Hn; destruct (Hn fields eq_refl)|intros Hn; destruct (Hn comments eq_refl)].
Qed.
End ItemIdentitiesProperties.

Lemma upload_and_lookup_agree_witness :
  exists (s : gset identity3) (e : option error),
    GetItemIdentities (VMap raw_sample) = Done (Some s, e)
    /\ ("Vasyl", "vvavrychuk", "") ∈ s.
Proof.
  refine (proj1 (@upload_and_lookup_agree Unicode_excerpt empty_db
                   ds_sample raw_sample _ _ _ "reporter" ("Vasyl", "vvavrychuk", "")
                   no_caches "" ∅ _ eq_refl eq_refl eq_refl eq_refl)).
  right. left. reflexivity.
Defined.

Lemma GetItemIdentities_edges_witness :
  GetItemIdentities (VMap (<[ "data" := VString "x" ]> ∅)) = Panic interface_conversion.
Proof.
  apply (proj1 (GetItemIdentities_edges (VMap (<[ "data" := VString "x" ]> ∅)))).
  intros d data [= <-] Hd. vm_compute in Hd. discriminate Hd.
Defined.

Section UploadItemsProperties.
Variable G : value -> outcome (option (gset identity3) * option error).

Lemma upload_items_gathers (items : list value) :
  forall (idents idents' : gset identity3),
    upload_items G items idents = Done (inl idents') ->
    idents' = idents ∪ page_identities G items.
Proof.
  induction items as [|item rest IH]; intros idents idents' Hrun.
  - cbn in Hrun. injection Hrun as <-. cbn [page_identities].
    rewrite (right_id_L ∅ (∪)). reflexivity.
  - cbn [upload_items page_identities] in *. destruct item; try discriminate Hrun.
    destruct (m !! "_source") as [doc|]; [|discriminate Hrun].
    destruct (G doc) as [[[identities|] [e|]]|msg|msg|]; try discriminate Hrun.
    + rewrite (IH _ _ Hrun), (assoc_L (∪)). reflexivity.
    + exact (IH _ _ Hrun).
Qed.

(** [itemsFunc] of [UploadIdentities] never reports an error: its result
    is nil on every page. When an item has no [_source], or its identities
    cannot be read, the buffer stays as it was before the page, so the
    identities of the page are not uploaded, and the error goes to a
    variable of [UploadIdentities]. Otherwise the buffer holds, once each,
    the identities it held and the identities of the items of the page. *)
Theorem UploadIdentities_itemsFunc_never_fails (items : list value)
    (docs docs' : list identity3) (e err : option error) :
  UploadIdentities_itemsFunc G items docs = Done (e, err, docs') ->
  e = None
  /\ match err with
     | Some _ => docs' = docs
     | None =>
         NoDup docs'
         /\ forall ident : identity3,
              ident ∈ docs' <-> ident ∈ docs \/ ident ∈ page_identities G items
     end.
Proof.
  unfold UploadIdentities_itemsFunc.
  destruct (upload_items G items (list_to_set docs)) as [[idents|err0]|msg|msg|] eqn:Hrun;
    try discriminate.
  - intros [= <- <- <-]. split; [reflexivity|]. split; [apply NoDup_elements|].
    intros ident. rewrite elem_of_elements, (upload_items_gathers _ _ _ Hrun).
    rewrite elem_of_union, elem_of_list_to_set. reflexivity.
  - intros [= <- <- <-]. split; reflexivity.
Qed.
End UploadItemsProperties.

Lemma UploadIdentities_itemsFunc_never_fails_witness :
  UploadIdentities_itemsFunc GetItemIdentities page_no_comments [("a", Nil, Nil)]
  = Done (None, Some (OtherError "Cannot get identities from doc %+v"), [("a", Nil, Nil)]).
Proof.
  assert (Hrun : exists err,
             UploadIdentities_itemsFunc GetItemIdentities page_no_comments [("a", Nil, Nil)]
             = Done (None, Some err, [("a", Nil, Nil)])
             /\ err = OtherError "Cannot get identities from doc %+v").
  { eexists. split; reflexivity. }
  destruct Hrun as (err & Hrun & ->).
  destruct (UploadIdentities_itemsFunc_never_fails GetItemIdentities page_no_comments
              [("a", Nil, Nil)] _ _ _ Hrun) as [_ _].
  exact Hrun.
Defined.

(* ===================================================================== *)
(** ** A run of [ForEachRawItem] with one thread over two pages *)
(* ===================================================================== *)

Section TwoPagesProperties.
Context `{Remote} `{Json} `{Helpers}.

Lemma call_world_run {A} (c : world -> outcome A * world) (f : Frame) (st : St)
    (a : A) (w : world) :
  c (st_world st) = (Done a, w) ->
  call_world c (f, st)
  = (Done a, (f, {| st_world := w; st_calls := st_calls st; st_log := st_log st |})).
Proof. intros Hc. unfold call_world. cbn [fst snd]. rewrite Hc. reflexivity. Qed.

Ltac page_request f st c st1 Hr :=
  let Hw := fresh "Hw" in
  let Hw1 := fresh "Hw" in
  let Hc1 := fresh "Hw" in
  match goal with
  | |- context [bind (when ?b (liftSt (Printf ?l))) _ (f, st)] =>
      destruct (when_Printf_run b l f st) as (st1 & Hw & Hw1 & Hc1);
      rewrite (bind_Done _ _ _ _ _ Hw)
  end;
  pose proof (liftSt_Request_run c f st1) as Hr;
  rewrite Hw1, Hc1 in Hr;
  erewrite bind_Done by exact Hr.

Ltac read_page Hans Hid Hh Hhh :=
  rewrite Hans; cbv beta iota;
  erewrite bind_Done by reflexivity;
  erewrite bind_Done by reflexivity;
  cbv beta iota; rewrite Hid;
  erewrite bind_Done by reflexivity;
  rewrite Hh, Hhh.

(** An iteration that reads the last page, one without hits. *)
Lemma iteration_last_page (ctx : Ctx) (ds : DS) (packSize : Z)
    (ufunct : ufunct_t) (uitems : uitems_t) (attemptAt : Time)
    (f : Frame) (st : St) (text s : string) :
  (http_do (request_of (page_call ctx ds (scroll f))) (st_world st)).1 = Response 200 text ->
  is_page text s [] ->
  exists st' : St,
    iteration ctx ds packSize ufunct uitems attemptAt (f, st)
    = (Done Break, ({| scroll := Some s; docs := docs f; outDocs := outDocs f;
                       total := total f |}, st'))
    /\ st_calls st' = st_calls st ++ [page_call ctx ds (scroll f)]
    /\ st_world st' = (http_do (request_of (page_call ctx ds (scroll f))) (st_world st)).2.
Proof.
  intros Hdo (m & hits & Hu & Hid & Hh & Hhh).
  assert (Hans : answer (page_call ctx ds (scroll f)) (st_world st)
                 = (VMap m, 200%Z, None)).
  { unfold answer. rewrite Hdo. destruct (scroll f); apply received_200, Hu. }
  unfold iteration.
  rewrite (bind_Done _ _ _ _ _ (eq_refl : get_frame (f, st) = (Done f, (f, st)))).
  cbv zeta. destruct (scroll f) as [s0|] eqn:Hs; cbn [page_call] in Hans |- *.
  - page_request f st (next_page_call ctx s0) st1 Hr. read_page Hans Hid Hh Hhh.
    cbn [length Nat.eqb]. eexists. split; [reflexivity|]. split; reflexivity.
  - page_request f st (open_scroll_call ctx ds) st1 Hr. read_page Hans Hid Hh Hhh.
    cbn [length Nat.eqb]. eexists. split; [reflexivity|]. split; reflexivity.
Qed.

(** An iteration that reads a page with hits that [uitems] accepts and
    that leave the buffer below the size of a pack. *)
Lemma iteration_short_page (ctx : Ctx) (ds : DS) (packSize : Z)
    (ufunct : ufunct_t) (uitems : uitems_t) (attemptAt : Time)
    (f : Frame) (st : St) (text s : string) (items docs' : list value) (w : world) :
  (http_do (request_of (page_call ctx ds (scroll f))) (st_world st)).1 = Response 200 text ->
  is_page text s items ->
  items <> [] ->
  uitems items (docs f) (http_do (request_of (page_call ctx ds (scroll f))) (st_world st)).2
  = (Done (None, docs'), w) ->
  (Z.of_nat (length docs') < packSize)%Z ->
  exists st' : St,
    iteration ctx ds packSize ufunct uitems attemptAt (f, st)
    = (Done Continue, ({| scroll := Some s; docs := docs'; outDocs := outDocs f;
                          total := total f + length items |}, st'))
    /\ st_calls st' = st_calls st ++ [page_call ctx ds (scroll f)]
    /\ st_world st' = w.
Proof.
  intros Hdo (m & hits & Hu & Hid & Hh & Hhh) Hitems Huitems Hshort.
  assert (Hans : answer (page_call ctx ds (scroll f)) (st_world st)
                 = (VMap m, 200%Z, None)).
  { unfold answer. rewrite Hdo. destruct (scroll f); apply received_200, Hu. }
  apply Z.leb_gt in Hshort.
  destruct items as [|item rest]; [destruct (Hitems eq_refl)|].
  set (items := item :: rest) in *.
  unfold iteration.
  rewrite (bind_Done _ _ _ _ _ (eq_refl : get_frame (f, st) = (Done f, (f, st)))).
  cbv zeta. destruct (scroll f) as [s0|] eqn:Hs; cbn [page_call] in Hans, Huitems |- *.
  - page_request f st (next_page_call ctx s0) st1 Hr. read_page Hans Hid Hh Hhh.
    change (length items =? 0)%nat with false. cbv iota.
    match goal with
    | |- context [bind (when ?b (liftSt (Printf ?l))) _ (?f1, ?st2)] =>
        destruct (when_Printf_run b l f1 st2) as (st3 & Hw3 & Hw4 & Hc4);
        rewrite (bind_Done _ _ _ _ _ Hw3)
    end.
    cbn [st_world st_calls fst snd] in Hw4, Hc4. rewrite <- Hw4 in Huitems.
    rewrite (bind_Done _ _ _ _ _ (call_world_run _ _ st3 _ _ Huitems)).
    cbv beta iota.
    erewrite bind_Done by reflexivity.
    rewrite Hshort.
    eexists. split; [reflexivity|]. split; [exact Hc4|reflexivity].
  - page_request f st (open_scroll_call ctx ds) st1 Hr. read_page Hans Hid Hh Hhh.
    change (length items =? 0)%nat with false. cbv iota.
    match goal with
    | |- context [bind (when ?b (liftSt (Printf ?l))) _ (?f1, ?st2)] =>
        destruct (when_Printf_run b l f1 st2) as (st3 & Hw3 & Hw4 & Hc4);
        rewrite (bind_Done _ _ _ _ _ Hw3)
    end.
    cbn [st_world st_calls fst snd] in Hw4, Hc4. rewrite <- Hw4 in Huitems.
    rewrite (bind_Done _ _ _ _ _ (call_world_run _ _ st3 _ _ Huitems)).
    cbv beta iota.
    erewrite bind_Done by reflexivity.
    rewrite Hshort.
    eexists. split; [reflexivity|]. split; [exact Hc4|reflexivity].
Qed.

(** The last lines of the body of [ForEachRawItem], after the loop is
    left by [break] with a buffer that is not empty: one call of [ufunct],
    whose result is the result of the run. *)
Lemma body_flush (ctx : Ctx) (ufunct : ufunct_t) (f : Frame) (st : St)
    (e : option error) (docs2 outDocs2 : list value) (w : world) :
  docs f <> [] ->
  ufunct (docs f) (outDocs f) (st_world st) = (Done (e, docs2, outDocs2), w) ->
  exists st' : St,
    (f0 <- get_frame ;
     err <- (if (0 <? length (docs f0))%nat then funct ufunct else ret None) ;
     match err with
     | Some e => ret (Some e)
     | None =>
         f' <- get_frame ;
         _ <- when (0 <? Debug ctx)%Z (liftSt (Printf (LogTotal (total f')))) ;
         ret None
     end) (f, st)
    = (Done e, ({| scroll := scroll f; docs := docs2; outDocs := outDocs2;
                   total := total f |}, st'))
    /\ st_calls st' = st_calls st.
Proof.
  intros Hdocs Hu.
  rewrite (bind_Done _ _ _ _ _ (eq_refl : get_frame (f, st) = (Done f, (f, st)))).
  assert (Hlen : (0 <? length (docs f))%nat = true).
  { destruct (docs f); [destruct (Hdocs eq_refl)|reflexivity]. }
  rewrite Hlen.
  set (f2 := {| scroll := scroll f; docs := docs2; outDocs := outDocs2; total := total f |}).
  set (st2 := {| st_world := w; st_calls := st_calls st; st_log := st_log st |}).
  assert (Hfunct : funct ufunct (f, st) = (Done e, (f2, st2))).
  { unfold funct.
    rewrite (bind_Done _ _ _ _ _ (eq_refl : get_frame (f, st) = (Done f, (f, st)))).
    rewrite (bind_Done _ _ _ _ _ (call_world_run _ _ st _ _ Hu)).
    reflexivity. }
  rewrite (bind_Done _ _ _ _ _ Hfunct).
  destruct e as [e|]; [exists st2; split; reflexivity|].
  rewrite (bind_Done _ _ _ _ _ (eq_refl : get_frame (f2, st2) = (Done f2, (f2, st2)))).
  destruct (when_Printf_run (0 <? Debug ctx)%Z (LogTotal (total f2)) f2 st2)
    as (st3 & Hw & _ & Hc3).
  rewrite (bind_Done _ _ _ _ _ Hw). exists st3. split; [reflexivity|exact Hc3].
Qed.

(** With one thread ([GetThreadsNum(ctx) <= 1], the path that
    [ForEachRawItem] embeds): a run over an index whose documents fit in one
    page and stay below the size of a pack. The first search opens the scroll and brings the
    hits, which [uitems] buffers; the second call asks for the next page
    with the scroll id of the first answer and finds no hit; the buffer is
    then flushed by one call of [ufunct], whose result is the result of the
    run; and the scroll that is freed at the end is the one named in the
    last answer. The run makes these three calls and no other. *)
Theorem ForEachRawItem_two_pages (pages : nat) (ctx : Ctx) (ds : DS) (packSize : Z)
    (ufunct : ufunct_t) (uitems : uitems_t) (st : St) (text1 text2 s1 s2 : string)
    (items docs1 docs2 outDocs2 : list value) (e : option error) (w2 w4 : world) :
  let r1 := http_do (request_of (open_scroll_call ctx ds)) (time_Now (st_world st)).2 in
  let r2 := http_do (request_of (next_page_call ctx s1)) w2 in
  r1.1 = Response 200 text1 ->
  is_page text1 s1 items ->
  items <> [] ->
  uitems items [] r1.2 = (Done (None, docs1), w2) ->
  docs1 <> [] ->
  (Z.of_nat (length docs1) < packSize)%Z ->
  r2.1 = Response 200 text2 ->
  is_page text2 s2 [] ->
  ufunct docs1 [] r2.2 = (Done (e, docs2, outDocs2), w4) ->
  exists st' : St,
    ForEachRawItem (S (S pages)) ctx ds packSize ufunct uitems st = (Done e, st')
    /\ st_calls st'
       = st_calls st ++ [open_scroll_call ctx ds; next_page_call ctx s1;
                         release_call ctx s2].
Proof.
  intros r1 r2 Hdo1 Hpage1 Hitems Huitems Hdocs1 Hshort Hdo2 Hpage2 Hufunct.
  set (f0 := {| scroll := None; docs := []; outDocs := []; total := 0 |}).
  set (stn := {| st_world := (time_Now (st_world st)).2; st_calls := st_calls st;
                 st_log := st_log st |}).
  set (at0 := (time_Now (st_world st)).1).
  destruct (iteration_short_page ctx ds packSize ufunct uitems at0 f0 stn text1 s1 items
              docs1 w2 Hdo1 Hpage1 Hitems Huitems Hshort) as (st1 & Hit1 & Hc1 & Hw1).
  set (f1 := {| scroll := Some s1; docs := docs1; outDocs := outDocs f0;
                total := total f0 + length items |}) in Hit1.
  assert (Hdo2' : (http_do (request_of (page_call ctx ds (scroll f1))) (st_world st1)).1
                  = Response 200 text2) by (rewrite Hw1; exact Hdo2).
  destruct (iteration_last_page ctx ds packSize ufunct uitems at0 f1 st1 text2 s2
              Hdo2' Hpage2) as (st2 & Hit2 & Hc2 & Hw2).
  set (f2 := {| scroll := Some s2; docs := docs f1; outDocs := outDocs f1;
                total := total f1 |}) in Hit2.
  assert (Hufunct' : ufunct (docs f2) (outDocs f2) (st_world st2)
                     = (Done (e, docs2, outDocs2), w4)).
  { rewrite Hw2. cbn [f2 f1 f0 docs outDocs scroll page_call]. rewrite Hw1. exact Hufunct. }
  destruct (body_flush ctx ufunct f2 st2 e docs2 outDocs2 w4 Hdocs1 Hufunct')
    as (st3 & Hflush & Hc3).
  set (f3 := {| scroll := scroll f2; docs := docs2; outDocs := outDocs2;
                total := total f2 |}) in Hflush.
  assert (Hpaging : paging (S (S pages)) ctx ds packSize ufunct uitems at0 (f0, stn)
                    = (Done Break, (f2, st2))).
  { cbn [paging]. rewrite (bind_Done _ _ _ _ _ Hit1). cbv iota.
    rewrite (bind_Done _ _ _ _ _ Hit2). reflexivity. }
  assert (Hbody : (attemptAt <- liftWorld time_Now ;
                   body (S (S pages)) ctx ds packSize ufunct uitems attemptAt) (f0, st)
                  = (Done e, (f3, st3))).
  { erewrite bind_Done by reflexivity. unfold body. cbn [fst snd].
    fold stn at0. rewrite (bind_Done _ _ _ _ _ Hpaging). cbv iota. exact Hflush. }
  destruct (free_scroll_run ctx f3 st3) as (st' & Hfree & Hrel).
  exists st'. unfold ForEachRawItem, ForEachRawItem_run, defer. fold f0.
  rewrite Hbody, Hfree. cbn [fst snd fail_as]. split; [reflexivity|].
  rewrite Hrel, Hc3, Hc2, Hc1. cbn [f3 f2 f1 f0 scroll page_call stn st_calls].
  rewrite <- !app_assoc. reflexivity.
Qed.
End TwoPagesProperties.

Lemma ForEachRawItem_two_pages_witness :
  exists st' : @St scripted,
    @EnrichItems scripted json_pages (helpers_sample true) 2 ctx_sample 10 ds_sample
      EnrichItem_sample false
      (st0 [Response 200 "page1"; Response 200 "page2"; Response 200 "{}"])
    = (Done None, st')
    /\ st_calls st'
       = [@open_scroll_call (helpers_sample true) ctx_sample ds_sample;
          next_page_call ctx_sample "c1"; release_call ctx_sample "c2"].
Proof.
  unfold EnrichItems.
  refine (@ForEachRawItem_two_pages scripted json_pages (helpers_sample true) 0 ctx_sample
            ds_sample 10 _ _
            (st0 [Response 200 "page1"; Response 200 "page2"; Response 200 "{}"])
            "page1" "page2" "c1" "c2" [VMap (<[ "_source" := doc "a" ]> ∅)]
            [doc "a"] [] _ None [Response 200 "page2"; Response 200 "{}"]
            [Response 200 "{}"] eq_refl _ _ eq_refl _ _ eq_refl _ eq_refl).
  - eexists _, _. split; [reflexivity|]. split; [reflexivity|]. split; reflexivity.
  - discriminate.
  - discriminate.
  - reflexivity.
  - eexists _, _. split; [reflexivity|]. split; [reflexivity|]. split; reflexivity.
Defined.

(* ===================================================================== *)
(** ** The transaction of [uploadFunc] *)
(* ===================================================================== *)

Section UploadProperties.
Context `{SQL} `{Unicode} `{Helpers}.

Lemma only_execs_ret {A} (a : A) : only_execs (ret a).
Proof.
  intros s. exists []. cbn. rewrite app_nil_r. split; [reflexivity|]. split; constructor.
Qed.

Lemma only_execs_panic {A} (msg : string) : only_execs (@panic Db A msg).
Proof.
  intros s. exists []. cbn. rewrite app_nil_r. split; [reflexivity|]. split; constructor.
Qed.

Lemma only_execs_bind {A B} (c : M Db A) (k : A -> M Db B) :
  only_execs c -> (forall a, only_execs (k a)) -> only_execs (bind c k).
Proof.
  intros Hc Hk s. destruct (Hc s) as (ops1 & Hops1 & Hex1 & Htx1). unfold bind.
  destruct (c s) as [[a|msg|msg|] s1]; cbn [fst snd] in *;
    try (exists ops1; split; [exact Hops1|]; split; assumption).
  destruct (Hk a s1) as (ops2 & Hops2 & Hex2 & Htx2).
  exists (ops1 ++ ops2). rewrite Hops2, Hops1, Htx2, Htx1, app_assoc.
  split; [reflexivity|]. split; [apply Forall_app; split; assumption|reflexivity].
Qed.

Lemma only_execs_uuid_affs (args : list string) : only_execs (uuid_affs args).
Proof.
  intros s. exists []. cbn. rewrite app_nil_r. split; [reflexivity|]. split; constructor.
Qed.

Lemma only_execs_sql (query : string) (args : list sql_arg) :
  only_execs (sql (OpExec query args)).
Proof.
  intros s. exists [OpExec query args]. cbn. split; [reflexivity|].
  split; [repeat constructor|reflexivity].
Qed.

Lemma only_execs_rows (source : string) (docs : list identity3) (n : nat) :
  forall (j : Z) (p : Pack), only_execs (rows source docs j n p).
Proof.
  induction n as [|n IH]; intros j p; cbn [rows]; [apply only_execs_ret|].
  destruct (if (j <? 0)%Z then None else docs !! Z.to_nat j) as [[[name username] email]|];
    [|apply only_execs_panic].
  apply only_execs_bind; [apply only_execs_uuid_affs|]. intros uuid. apply IH.
Qed.

Lemma only_execs_packs (bulkSize nIdents : Z) (source : string) (docs : list identity3)
    (n : nat) :
  forall i : Z, only_execs (packs bulkSize nIdents source docs i n).
Proof.
  induction n as [|n IH]; intros i; cbn [packs]; [apply only_execs_ret|].
  apply only_execs_bind; [apply only_execs_rows|]. intros p.
  apply only_execs_bind; [apply only_execs_sql|]. intros [e|]; [apply only_execs_ret|].
  apply only_execs_bind; [apply only_execs_sql|]. intros [e|]; [apply only_execs_ret|].
  apply only_execs_bind; [apply only_execs_sql|]. intros [e|]; [apply only_execs_ret|].
  apply IH.
Qed.

(** The transaction of [uploadFunc]. A call that returns nil has
    committed the transaction as its last operation, never rolled back,
    and has emptied the buffer. A call that returns an error leaves the
    buffer as it was, and when it had begun a transaction its last
    operation is the rollback (also after a commit that failed). Between
    the start of the transaction and its end there are only statements.
    When [DBBulkSize] is between -5 and 5, the size of a pack is zero and
    a call that gets its transaction panics on the division, for every
    buffer, and rolls the transaction back. *)
Theorem uploadFunc_transaction (DBBulkSize : Z) (source : string)
    (docs : list identity3) (s : Db) :
  db_tx s = false ->
  (forall (e : option error) (docs' : list identity3) (s' : Db),
     uploadFunc DBBulkSize source docs s = (Done (e, docs'), s') ->
     exists stmts : list sql_op,
       Forall is_exec stmts
       /\ match e with
          | None =>
              docs' = []
              /\ db_ops s' = db_ops s ++ [OpSessionOrigin; OpBegin] ++ stmts ++ [OpCommit]
          | Some _ =>
              docs' = docs
              /\ (db_ops s' = db_ops s ++ [OpSessionOrigin]
                  \/ db_ops s' = db_ops s ++ [OpSessionOrigin; OpBegin]
                  \/ db_ops s' = db_ops s ++ [OpSessionOrigin; OpBegin] ++ stmts
                                   ++ [OpRollback]
                  \/ db_ops s' = db_ops s ++ [OpSessionOrigin; OpBegin] ++ stmts
                                   ++ [OpCommit; OpRollback])
          end)
  /\ ((-6 < DBBulkSize < 6)%Z ->
      (sql_do OpSessionOrigin (db_world s)).1 = None ->
      (sql_do OpBegin (sql_do OpSessionOrigin (db_world s)).2).1 = None ->
      exists s' : Db,
        uploadFunc DBBulkSize source docs s = (Panic "integer divide by zero", s')
        /\ db_ops s' = db_ops s ++ [OpSessionOrigin; OpBegin; OpRollback]).
Proof.
  intros Htx. unfold uploadFunc.
  rewrite (bind_Done _ _ _ _ _ (eq_refl : sql OpSessionOrigin s = (Done _, _))).
  set (s1 := {| db_world := (sql_do OpSessionOrigin (db_world s)).2;
                db_ops := db_ops s ++ [OpSessionOrigin]; db_tx := db_tx s;
                db_uuids := db_uuids s |}).
  split.
  - intros e docs' s'.
    destruct (sql_do OpSessionOrigin (db_world s)).1 as [e1|].
    { intros [= <- <- <-]. exists []. split; [constructor|]. split; [reflexivity|].
      left. reflexivity. }
    rewrite (bind_Done _ _ _ _ _ (eq_refl : sql OpBegin s1 = (Done _, _))).
    set (s2 := {| db_world := (sql_do OpBegin (db_world s1)).2;
                  db_ops := db_ops s1 ++ [OpBegin]; db_tx := db_tx s1;
                  db_uuids := db_uuids s1 |}).
    destruct (sql_do OpBegin (db_world s1)).1 as [e2|].
    { intros [= <- <- <-]. exists []. split; [constructor|]. split; [reflexivity|].
      right. left. cbn [s2 s1 db_ops]. rewrite <- app_assoc. reflexivity. }
    rewrite (bind_Done _ _ _ _ _ (eq_refl : set_tx true s2 = (Done tt, _))).
    set (s3 := {| db_world := db_world s2; db_ops := db_ops s2; db_tx := true;
                  db_uuids := db_uuids s2 |}).
    assert (Hops3 : db_ops s3 = db_ops s ++ [OpSessionOrigin; OpBegin]).
    { cbn [s3 s2 s1 db_ops]. rewrite <- app_assoc. reflexivity. }
    unfold defer. cbv zeta.
    destruct (Z.quot DBBulkSize 6 =? 0)%Z.
    { unfold panic. cbn [fst snd rollback_unless_nil s3 db_tx]. discriminate. }
    set (n := Z.to_nat _).
    pose proof (only_execs_packs (Z.quot DBBulkSize 6) (Z.of_nat (length docs)) source
                  docs n 0%Z s3) as (stmts & Hops4 & Hex & Htx4).
    unfold bind at 1.
    destruct (packs (Z.quot DBBulkSize 6) (Z.of_nat (length docs)) source docs 0 n s3)
      as [[[e4|]|msg|msg|] s4]; cbn [fst snd] in *;
      try (unfold rollback_unless_nil; rewrite Htx4; cbn; discriminate);
      try (destruct fatal_runs_deferred;
           [unfold rollback_unless_nil; rewrite Htx4; cbn; discriminate|discriminate]);
      try discriminate.
    + unfold ret, rollback_unless_nil. rewrite Htx4. cbn [db_tx s3 bind sql ret fst snd].
      intros [= <- <- <-]. exists stmts. split; [exact Hex|]. split; [reflexivity|].
      right. right. left. cbn [db_ops]. rewrite Hops4, Hops3, <- !app_assoc. reflexivity.
    + rewrite (bind_Done _ _ _ _ _ (eq_refl : sql OpCommit s4 = (Done _, _))).
      destruct (sql_do OpCommit (db_world s4)).1 as [e5|].
      * unfold ret, rollback_unless_nil. cbn [db_tx bind sql ret fst snd]. rewrite Htx4.
        cbn [db_tx s3 fst snd fail_as db_ops].
        intros [= <- <- <-]. exists stmts. split; [exact Hex|]. split; [reflexivity|].
        right. right. right. cbn [db_ops]. rewrite Hops4, Hops3, <- !app_assoc.
        reflexivity.
      * unfold ret, rollback_unless_nil, set_tx. cbn [db_tx bind sql ret fst snd fail_as].
        intros [= <- <- <-]. exists stmts. split; [exact Hex|]. split; [reflexivity|].
        cbn [db_ops]. rewrite Hops4, Hops3, <- !app_assoc. reflexivity.
  - intros Hsize E1 E2. rewrite E1.
    rewrite (bind_Done _ _ _ _ _ (eq_refl : sql OpBegin s1 = (Done _, _))).
    cbn [s1 db_world]. rewrite E2.
    rewrite (bind_Done _ _ _ _ _ (eq_refl : set_tx true _ = (Done tt, _))).
    assert (Hq : (Z.quot DBBulkSize 6 =? 0)%Z = true).
    { apply Z.eqb_eq, Z.quot_small_iff; [lia|]. lia. }
    unfold defer. cbv zeta. rewrite Hq. unfold panic, rollback_unless_nil.
    cbn [db_tx fst snd bind sql ret fail_as]. eexists. split; [reflexivity|].
    subst s1. cbn [db_ops]. rewrite <- !app_assoc. reflexivity.
Qed.
End UploadProperties.

Lemma uploadFunc_transaction_witness :
  (exists s' : @Db sql_ok,
     @uploadFunc sql_ok Unicode_excerpt (helpers_sample true) 5 "jira"
       [("Vasyl", "vvavrychuk", Nil)] db0
     = (Panic "integer divide by zero", s')
     /\ db_ops s' = [OpSessionOrigin; OpBegin; OpRollback])
  /\ exists stmts : list sql_op,
       (@uploadFunc sql_ok Unicode_excerpt (helpers_sample true) 6 "jira" [] db0).2.(db_ops)
       = [OpSessionOrigin; OpBegin] ++ stmts ++ [OpCommit].
Proof.
  split.
  - apply (proj2 (@uploadFunc_transaction sql_ok Unicode_excerpt (helpers_sample true) 5
                    "jira" [("Vasyl", "vvavrychuk", Nil)] db0 eq_refl));
      [lia|reflexivity|reflexivity].
  - destruct (proj1 (@uploadFunc_transaction sql_ok Unicode_excerpt (helpers_sample true) 6
                       "jira" [] db0 eq_refl) None [] _ eq_refl) as (stmts & _ & _ & Hops).
    exists stmts. exact Hops.
Defined.
